(** * USB-Blaster JTAG engine and MIPS32 EJTAG PrAcc engine

    A shallow embedding of [usb_blaster.c] (the USB-Blaster driver) and of
    [mips32_pracc.c] with the instruction encoders of [mips32.h], and the
    properties of both that the specification states.

    C integers are [Z]; a conversion to a fixed width is written out
    ([to_u8], [to_u32], [to_int]).  The driver state that C keeps in globals
    is threaded explicitly through a small state monad whose outcome is
    either a result or the point where the C program leaves defined
    behaviour or fails to come back from a loop. *)

From Stdlib Require Import String.
From Stdlib Require Import ZArith List Bool Lia.
Import ListNotations.
Open Scope Z_scope.

(** ** Outcomes of a run *)

(** Where a run stops without returning to its caller. *)
Inductive fault : Type :=
| OutOfFuel               (* a loop did not finish within the budget of steps *)
| NullPointer             (* a NULL pointer was dereferenced *)
| OutOfBounds (i : Z)     (* an array was indexed at [i], outside its extent *)
| BadStackIndex (i : Z)   (* the debug stack of the PrAcc executor was indexed at [i] *)
| ProcessExit (code : Z). (* exit(code) was called *)

Inductive outcome (S A : Type) : Type :=
| Done (a : A) (s : S)
| Stuck (f : fault) (s : S).
Arguments Done {S A} a s.
Arguments Stuck {S A} f s.

Definition M (S A : Type) : Type := S -> outcome S A.

Definition ret {S A} (a : A) : M S A := fun s => Done a s.

Definition bind {S A B} (m : M S A) (k : A -> M S B) : M S B :=
  fun s => match m s with
           | Done a s' => k a s'
           | Stuck f s' => Stuck f s'
           end.

Definition get {S} : M S S := fun s => Done s s.
Definition gets {S A} (f : S -> A) : M S A := fun s => Done (f s) s.
Definition modify {S} (f : S -> S) : M S unit := fun s => Done tt (f s).
Definition stuck {S A} (f : fault) : M S A := fun s => Stuck f s.

Declare Scope run_scope.
Delimit Scope run_scope with run.
Notation "x <- m ;; k" := (bind m (fun x => k))
  (at level 61, m at next level, right associativity) : run_scope.
Notation "m ;; k" := (bind m (fun _ => k))
  (at level 61, right associativity) : run_scope.
Notation "' pat <- m ;; k" := (bind m (fun x => match x with pat => k end))
  (at level 61, pat pattern, m at next level, right associativity) : run_scope.
Open Scope run_scope.

(** The state in which a run ends, whatever its outcome. *)
Definition final {S A} (o : outcome S A) : S :=
  match o with Done _ s => s | Stuck _ s => s end.

(** ** Fixed-width integers *)

Definition to_u8 (x : Z) : Z := Z.land x 255.
Definition to_u32 (x : Z) : Z := x mod 2 ^ 32.
(** Conversion to [int] (32 bits, two's complement). *)
Definition to_int (x : Z) : Z := (x + 2 ^ 31) mod 2 ^ 32 - 2 ^ 31.

(** [a[i]] for reading; [None] outside the array. *)
Definition aget {A} (l : list A) (i : Z) : option A :=
  if (0 <=? i) && (i <? Z.of_nat (length l)) then nth_error l (Z.to_nat i) else None.

Fixpoint set_nth {A} (n : nat) (v : A) (l : list A) : list A :=
  match l, n with
  | [], _ => []
  | _ :: t, O => v :: t
  | h :: t, S n' => h :: set_nth n' v t
  end.

(** [a[i] = v]; [None] outside the array. *)
Definition aset {A} (l : list A) (i : Z) (v : A) : option (list A) :=
  if (0 <=? i) && (i <? Z.of_nat (length l)) then Some (set_nth (Z.to_nat i) v l) else None.

(** memcpy(&a[i], src, n) for [n = length src]. *)
Fixpoint acopy {A} (l : list A) (i : Z) (src : list A) : option (list A) :=
  match src with
  | [] => Some l
  | b :: rest => match aset l i b with
                 | Some l' => acopy l' (i + 1) rest
                 | None => None
                 end
  end.

(** The [n] elements of [l] from index [i] on; [None] when they are not all
    inside [l] or [n] is negative. *)
Definition aslice {A} (l : list A) (i n : Z) : option (list A) :=
  if (0 <=? i) && (0 <=? n) && (i + n <=? Z.of_nat (length l))
  then Some (firstn (Z.to_nat n) (skipn (Z.to_nat i) l)) else None.

(** Error codes of the host ([log.h], [jtag.h], [target.h]); the driver only
    compares against [ERROR_OK] and hands the others on. *)
Definition ERROR_OK : Z := 0.
Definition ERROR_FAIL : Z := -4.
Definition ERROR_JTAG_DEVICE_ERROR : Z := -107.
Definition ERROR_TARGET_RESOURCE_NOT_AVAILABLE : Z := -308.
Definition ERROR_COMMAND_SYNTAX_ERROR : Z := -601.


(** ** Reasoning about runs *)

Lemma bind_Done {S A B} (m : M S A) (k : A -> M S B) s b s2 :
  bind m k s = Done b s2 ->
  exists a s1, m s = Done a s1 /\ k a s1 = Done b s2.
Proof.
  unfold bind. destruct (m s) as [a s1|f s1]; intros H.
  - exists a, s1. split; [reflexivity|exact H].
  - discriminate H.
Qed.

Lemma bind_of_Done {S A B} (m : M S A) (k : A -> M S B) s a s1 :
  m s = Done a s1 -> bind m k s = k a s1.
Proof. intros H. unfold bind. rewrite H. reflexivity. Qed.

Lemma bind_of_Stuck {S A B} (m : M S A) (k : A -> M S B) s f s1 :
  m s = Stuck f s1 -> bind m k s = Stuck f s1.
Proof. intros H. unfold bind. rewrite H. reflexivity. Qed.

Lemma bind_assoc {S A B C} (m : M S A) (k : A -> M S B) (h : B -> M S C) s :
  bind (bind m k) h s = bind m (fun x => bind (k x) h) s.
Proof. unfold bind. destruct (m s); reflexivity. Qed.

(** [m] relates the state it starts in to the state it ends in by [R],
    whatever its outcome. *)
Definition preserves {S A} (R : S -> S -> Prop) (m : M S A) : Prop :=
  forall s, R s (final (m s)).

Section Preserves.
Context {S : Type} (R : S -> S -> Prop).
Hypothesis R_refl : forall s, R s s.
Hypothesis R_trans : forall s1 s2 s3, R s1 s2 -> R s2 s3 -> R s1 s3.

Lemma preserves_ret {A} (a : A) : preserves R (ret a).
Proof. intros s. apply R_refl. Qed.

Lemma preserves_get : preserves R get.
Proof. intros s. apply R_refl. Qed.

Lemma preserves_gets {A} (f : S -> A) : preserves R (gets f).
Proof. intros s. apply R_refl. Qed.

Lemma preserves_stuck {A} (f : fault) : preserves R (@stuck S A f).
Proof. intros s. apply R_refl. Qed.

Lemma preserves_modify (f : S -> S) :
  (forall s, R s (f s)) -> preserves R (modify f).
Proof. intros H s. apply H. Qed.

Lemma preserves_bind {A B} (m : M S A) (k : A -> M S B) :
  preserves R m -> (forall a, preserves R (k a)) -> preserves R (bind m k).
Proof.
  intros Hm Hk s. unfold bind. specialize (Hm s).
  destruct (m s) as [a s1|f s1]; simpl in *.
  - eapply R_trans; [exact Hm|apply Hk].
  - exact Hm.
Qed.

End Preserves.

(** One step of a frame proof: split a sequence, or go through a branch. *)
Ltac frame_step Rr Rt :=
  lazymatch goal with
  | |- preserves _ (bind _ _) => apply (preserves_bind _ Rt); [ | intros ]
  | |- preserves _ (ret _) => apply (preserves_ret _ Rr)
  | |- preserves _ get => apply (preserves_get _ Rr)
  | |- preserves _ (gets _) => apply (preserves_gets _ Rr)
  | |- preserves _ (stuck _) => apply (preserves_stuck _ Rr)
  | |- preserves _ (modify _) => apply preserves_modify; intros; try reflexivity
  | |- preserves _ (if ?c then _ else _) => destruct c
  | |- preserves _ (match ?x with _ => _ end) => destruct x
  end.

(** Boolean comparisons on [Z] in the hypotheses, as propositions. *)
Ltac zbool :=
  repeat match goal with
  | H : (_ && _) = true |- _ => apply andb_prop in H; destruct H
  | H : (_ >? _) = true |- _ => rewrite Z.gtb_ltb in H; apply Z.ltb_lt in H
  | H : (_ >? _) = false |- _ => rewrite Z.gtb_ltb in H; apply Z.ltb_ge in H
  | H : (_ <? _) = true |- _ => apply Z.ltb_lt in H
  | H : (_ <? _) = false |- _ => apply Z.ltb_ge in H
  | H : (_ <=? _) = true |- _ => apply Z.leb_le in H
  | H : (_ <=? _) = false |- _ => apply Z.leb_gt in H
  | H : (_ =? _) = true |- _ => apply Z.eqb_eq in H
  | H : (_ =? _) = false |- _ => apply Z.eqb_neq in H
  end.

(** [m] ends, from any state, with a result in [Q] or a fault in [F]. *)
Definition ensures {S A} (Q : A -> Prop) (F : fault -> Prop) (m : M S A) : Prop :=
  forall s, match m s with Done a _ => Q a | Stuck f _ => F f end.

Lemma ensures_ret {S A} (Q : A -> Prop) F (a : A) : Q a -> ensures Q F (@ret S A a).
Proof. intros H s. exact H. Qed.

Lemma ensures_stuck {S A} (Q : A -> Prop) (F : fault -> Prop) f :
  F f -> ensures Q F (@stuck S A f).
Proof. intros H s. exact H. Qed.

Lemma ensures_get {S} (F : fault -> Prop) : ensures (fun _ : S => True) F get.
Proof. intros s. exact I. Qed.

Lemma ensures_gets {S A} (g : S -> A) (F : fault -> Prop) :
  ensures (fun _ => True) F (gets g).
Proof. intros s. exact I. Qed.

Lemma ensures_modify {S} (g : S -> S) (F : fault -> Prop) :
  ensures (fun _ => True) F (modify g).
Proof. intros s. exact I. Qed.

Lemma ensures_bind {S A B} (Qa : A -> Prop) (Q : B -> Prop) F
      (m : M S A) (k : A -> M S B) :
  ensures Qa F m -> (forall a, Qa a -> ensures Q F (k a)) -> ensures Q F (bind m k).
Proof.
  intros Hm Hk s. unfold bind. specialize (Hm s).
  destruct (m s) as [a s1|f s1]; [apply Hk; exact Hm|exact Hm].
Qed.

Lemma ensures_weaken {S A} (Q Q' : A -> Prop) F (m : M S A) :
  ensures Q F m -> (forall a, Q a -> Q' a) -> ensures Q' F m.
Proof.
  intros Hm HQ s. specialize (Hm s). destruct (m s); [apply HQ; exact Hm|exact Hm].
Qed.

(** One step of a proof that a computation without a result of interest
    stays within the faults [F]. *)
Ltac ensures_step :=
  lazymatch goal with
  | |- ensures _ _ (bind _ _) =>
      apply (ensures_bind (fun _ => True)); [ | intros ? _ ]
  | |- ensures _ _ (ret _) => apply ensures_ret; exact I
  | |- ensures _ _ get => apply ensures_get
  | |- ensures _ _ (gets _) => apply ensures_gets
  | |- ensures _ _ (modify _) => apply ensures_modify
  | |- ensures _ _ (stuck _) => apply ensures_stuck; exact I
  | |- ensures _ _ (if ?c then _ else _) => destruct c
  | |- ensures _ _ (match ?x with _ => _ end) => destruct x
  end.

Lemma final_bind {S A B} (m : M S A) (k : A -> M S B) s :
  final (bind m k s) =
  match m s with Done a s1 => final (k a s1) | Stuck _ s1 => s1 end.
Proof. unfold bind. destruct (m s); reflexivity. Qed.

(** [m] keeps the invariant [I] whenever it returns. *)
Definition keeps {S A} (I : S -> Prop) (m : M S A) : Prop :=
  forall s a s', I s -> m s = Done a s' -> I s'.

Section Keeps.
Context {S : Type} (I : S -> Prop).

Lemma keeps_ret {A} (a : A) : keeps I (ret a).
Proof. intros s a' s' H E. inversion E; subst. exact H. Qed.

Lemma keeps_get : keeps I get.
Proof. intros s a' s' H E. inversion E; subst. exact H. Qed.

Lemma keeps_gets {A} (f : S -> A) : keeps I (gets f).
Proof. intros s a' s' H E. inversion E; subst. exact H. Qed.

Lemma keeps_stuck {A} (f : fault) : keeps I (@stuck S A f).
Proof. intros s a' s' H E. discriminate E. Qed.

Lemma keeps_modify (f : S -> S) : (forall s, I s -> I (f s)) -> keeps I (modify f).
Proof. intros Hf s a' s' H E. inversion E; subst. apply Hf. exact H. Qed.

Lemma keeps_bind {A B} (m : M S A) (k : A -> M S B) :
  keeps I m -> (forall a, keeps I (k a)) -> keeps I (bind m k).
Proof.
  intros Hm Hk s b s2 H E. apply bind_Done in E.
  destruct E as (a & s1 & E1 & E2).
  eapply Hk; [|exact E2]. eapply Hm; [exact H|exact E1].
Qed.

End Keeps.

Ltac keeps_step :=
  lazymatch goal with
  | |- keeps _ (bind _ _) => apply keeps_bind; [ | intros ]
  | |- keeps _ (ret _) => apply keeps_ret
  | |- keeps _ get => apply keeps_get
  | |- keeps _ (gets _) => apply keeps_gets
  | |- keeps _ (stuck _) => apply keeps_stuck
  | |- keeps _ (modify _) => apply keeps_modify; intros ? ?
  | |- keeps _ (if ?c then _ else _) => destruct c
  | |- keeps _ (match ?x with _ => _ end) => destruct x
  end.

(** ** Arrays *)

Lemma set_nth_length {A} (v : A) : forall n l, length (set_nth n v l) = length l.
Proof.
  intros n l; revert n. induction l as [|h t IH]; intros [|n]; simpl; auto.
Qed.

Lemma firstn_set_nth {A} (v : A) : forall n l,
  (n < length l)%nat -> firstn (S n) (set_nth n v l) = firstn n l ++ [v].
Proof.
  intros n l; revert n. induction l as [|h t IH]; intros [|n] H; simpl in *; try lia.
  - reflexivity.
  - f_equal. apply IH. lia.
Qed.

Lemma aset_Some {A} (l l' : list A) (i : Z) (v : A) :
  aset l i v = Some l' ->
  0 <= i < Z.of_nat (length l) /\ length l' = length l /\
  firstn (Z.to_nat (i + 1)) l' = firstn (Z.to_nat i) l ++ [v].
Proof.
  unfold aset. destruct ((0 <=? i) && (i <? Z.of_nat (length l))) eqn:E; [|discriminate].
  apply andb_prop in E. destruct E as [E1 E2].
  apply Z.leb_le in E1. apply Z.ltb_lt in E2.
  intros H. inversion H; subst l'; clear H.
  split; [lia|]. split; [apply set_nth_length|].
  replace (Z.to_nat (i + 1)) with (S (Z.to_nat i)) by lia.
  apply firstn_set_nth. lia.
Qed.

Lemma acopy_Some {A} (src : list A) : forall (l l' : list A) (i : Z),
  0 <= i -> acopy l i src = Some l' ->
  length l' = length l /\
  firstn (Z.to_nat (i + Z.of_nat (length src))) l' = firstn (Z.to_nat i) l ++ src.
Proof.
  induction src as [|b rest IH]; intros l l' i Hi H; simpl in *.
  - inversion H; subst. rewrite Z.add_0_r, app_nil_r. auto.
  - destruct (aset l i b) as [l1|] eqn:E; [|discriminate].
    apply aset_Some in E. destruct E as (Hr & Hl & Hf).
    apply IH in H; [|lia]. destruct H as (Hl' & Hf').
    split; [congruence|].
    replace (i + Z.pos (Pos.of_succ_nat (length rest)))
      with (i + 1 + Z.of_nat (length rest)) by lia.
    rewrite Hf', Hf, <- app_assoc. reflexivity.
Qed.

Lemma aslice_Some {A} (l p : list A) (i n : Z) :
  aslice l i n = Some p -> 0 <= n /\ Z.of_nat (length p) = n.
Proof.
  unfold aslice.
  destruct ((0 <=? i) && (0 <=? n) && (i + n <=? Z.of_nat (length l))) eqn:E; [|discriminate].
  apply andb_prop in E. destruct E as [E E3]. apply andb_prop in E. destruct E as [E1 E2].
  apply Z.leb_le in E1, E2, E3.
  intros H. inversion H; subst p; clear H. split; [exact E2|].
  rewrite length_firstn, length_skipn. lia.
Qed.

(** A check of every integer of [0, n), and what it proves. *)
Fixpoint all_below (n : nat) (f : Z -> bool) : bool :=
  match n with
  | O => true
  | S n' => f (Z.of_nat n') && all_below n' f
  end.

Lemma all_below_true n f :
  all_below n f = true -> forall z, 0 <= z < Z.of_nat n -> f z = true.
Proof.
  induction n as [|n IH]; intros H z Hz; [lia|].
  simpl in H. apply andb_prop in H. destruct H as [H1 H2].
  destruct (Z.eq_dec z (Z.of_nat n)) as [->|NE]; [exact H1|].
  apply IH; [exact H2|lia].
Qed.

(** ** Conversions that change nothing *)

Lemma to_u32_small x : 0 <= x < 2 ^ 32 -> to_u32 x = x.
Proof. intros H. unfold to_u32. apply Z.mod_small. exact H. Qed.

Lemma to_int_small x : - 2 ^ 31 <= x < 2 ^ 31 -> to_int x = x.
Proof. intros H. unfold to_int. rewrite Z.mod_small; lia. Qed.

Lemma to_u8_small x : 0 <= x < 256 -> to_u8 x = x.
Proof.
  intros H. unfold to_u8. change 255 with (Z.ones 8).
  rewrite Z.land_ones by lia. apply Z.mod_small. exact H.
Qed.

Lemma to_u8_range x : 0 <= to_u8 x < 256.
Proof.
  unfold to_u8. change 255 with (Z.ones 8). rewrite Z.land_ones by lia.
  apply Z.mod_pos_bound. reflexivity.
Qed.

Lemma to_u32_range x : 0 <= to_u32 x < 2 ^ 32.
Proof. unfold to_u32. apply Z.mod_pos_bound. reflexivity. Qed.
(** * The USB-Blaster driver ([usb_blaster.c]) *)

Module UBlast.

(** Size of the USB endpoint's packet. *)
Definition BUF_LEN : Z := 64.

Definition NO_TAP_SHIFT : Z := 0.
Definition TAP_SHIFT : Z := 1.

(** Bits of a bit-bang byte, and of a byte-shift header. *)
Definition TCK : Z := Z.shiftl 1 0.
Definition TMS : Z := Z.shiftl 1 1.
Definition NCE : Z := Z.shiftl 1 2.
Definition NCS : Z := Z.shiftl 1 3.
Definition TDI : Z := Z.shiftl 1 4.
Definition LED : Z := Z.shiftl 1 5.
Definition READ : Z := Z.shiftl 1 6.
Definition SHMODE : Z := Z.shiftl 1 7.
Definition READ_TDO : Z := Z.shiftl 1 0.

(** [enum scan_type] of the host's [commands.h]. *)
Inductive scan_type : Type := SCAN_IN | SCAN_OUT | SCAN_IO.

(** The sixteen states of the IEEE 1149.1 TAP ([tap_state_t] of the host). *)
Inductive tap_state : Type :=
| TAP_DREXIT2 | TAP_DREXIT1 | TAP_DRSHIFT | TAP_DRPAUSE
| TAP_IRSELECT | TAP_DRUPDATE | TAP_DRCAPTURE | TAP_DRSELECT
| TAP_IREXIT2 | TAP_IREXIT1 | TAP_IRSHIFT | TAP_IRPAUSE
| TAP_IDLE | TAP_IRUPDATE | TAP_IRCAPTURE | TAP_RESET.

Definition tap_state_eq_dec (a b : tap_state) : {a = b} + {a <> b}.
Proof. decide equality. Defined.

Definition tap_eqb (a b : tap_state) : bool :=
  if tap_state_eq_dec a b then true else false.

Definition reads_tdo (type : scan_type) : bool :=
  match type with SCAN_IN | SCAN_IO => true | SCAN_OUT => false end.

(** C's [!!x] and [!x]. *)
Definition notnot (x : Z) : Z := if x =? 0 then 0 else 1.
Definition lnot (x : Z) : Z := if x =? 0 then 1 else 0.

(** [DIV_ROUND_UP(m, n)] of the host's helper macros. *)
Definition DIV_ROUND_UP (m n : Z) : Z := Z.quot (m + n - 1) n.

(** ** The split of a shift into byte-shift bytes and bit-bang bits

    The first statements of [ublast_queue_tdi]: [nb8] bytes go out in
    byte-shift mode and [nb1] bits in bit-bang mode. *)
Definition tdi_split (nb_bits : Z) : Z * Z :=
  let nb8 := Z.quot nb_bits 8 in
  let nb1 := Z.rem nb_bits 8 in
  if (nb8 >? 0) && (nb1 =? 0) then (nb8 - 1, 8) else (nb8, nb1).

Section Driver.

(** The private state of a low-level driver (libftdi, ftd2xx) with the
    device behind it. *)
Variable T : Type.

(** [struct ublast_lowlevel] of [ublast_access.h]. *)
Record ublast_lowlevel : Type := mk_lowlevel {
  drv_vid : Z;
  drv_pid : Z;
  drv_device_desc : option String.string;
  priv : T
}.

(** The driver's entry points, [drv->write(drv, buf, size, &written)] and so
    on; a write is handed the [size] bytes at [buf] and answers with its
    return code and the count it reports; a read of up to [size] bytes
    answers with its return code and the bytes it stored. *)
Variable drv_write : list Z -> ublast_lowlevel -> (Z * Z) * ublast_lowlevel.
Variable drv_read : Z -> ublast_lowlevel -> (Z * list Z) * ublast_lowlevel.
Variable drv_open : ublast_lowlevel -> Z * ublast_lowlevel.
Variable drv_close : ublast_lowlevel -> Z * ublast_lowlevel.
Variable drv_speed : Z -> ublast_lowlevel -> Z * ublast_lowlevel.

(** The registrars of [lowlevel_drivers_map]; NULL is [None]. *)
Variable ublast_register_ftdi : option ublast_lowlevel.
Variable ublast_register_ftd2xx : option ublast_lowlevel.

(** The TAP tables of the host ([interface.c]). *)
Variable tap_state_transition : tap_state -> bool -> tap_state.
Variable tap_get_tms_path : tap_state -> tap_state -> Z.
Variable tap_get_tms_path_len : tap_state -> tap_state -> Z.

(** A scan command: the fields [ublast_scan] reads itself, and the scan
    fields that only the host's helpers look into. *)
Variable scan_fields : Type.
Record scan_command : Type := mk_scan {
  ir_scan : bool;
  fields : scan_fields;
  end_state : tap_state
}.
Variable jtag_scan_type : scan_command -> scan_type.
(** The bit count and the buffer [jtag_build_buffer] allocates. *)
Variable jtag_build_buffer : scan_command -> Z * option (list Z).
Variable jtag_read_buffer : option (list Z) -> scan_command -> Z.

(** The budget of iterations given to a loop whose end depends on the
    device or on the state it is entered in. *)
Variable fuel : nat.

(** One call of [ublast_buf_write] as its debug line shows it. *)
Record write_call : Type := mk_write_call {
  w_bytes : list Z;   (* the [size] bytes offered *)
  w_ret : Z;
  w_written : Z
}.

(** [struct ublast_info info], the recorded TAP state that the host keeps
    behind [tap_get_state]/[tap_set_state], and the trace of the writes
    handed to the low-level driver (ghost: nothing reads it). *)
Record ublast_info : Type := mk_info {
  pin6 : Z;
  pin8 : Z;
  tms : Z;
  tdi : Z;
  buf : list Z;
  bufidx : Z;
  lowlevel_name : option String.string;
  drv : option ublast_lowlevel;
  ublast_device_desc : option String.string;
  ublast_vid : Z;
  ublast_pid : Z;
  tap : tap_state;
  wlog : list write_call
}.

Definition set_tms (v : Z) (s : ublast_info) : ublast_info :=
  mk_info (pin6 s) (pin8 s) v (tdi s) (buf s) (bufidx s) (lowlevel_name s)
          (drv s) (ublast_device_desc s) (ublast_vid s) (ublast_pid s) (tap s) (wlog s).
Definition set_tdi (v : Z) (s : ublast_info) : ublast_info :=
  mk_info (pin6 s) (pin8 s) (tms s) v (buf s) (bufidx s) (lowlevel_name s)
          (drv s) (ublast_device_desc s) (ublast_vid s) (ublast_pid s) (tap s) (wlog s).
Definition set_buf (v : list Z) (s : ublast_info) : ublast_info :=
  mk_info (pin6 s) (pin8 s) (tms s) (tdi s) v (bufidx s) (lowlevel_name s)
          (drv s) (ublast_device_desc s) (ublast_vid s) (ublast_pid s) (tap s) (wlog s).
Definition set_bufidx (v : Z) (s : ublast_info) : ublast_info :=
  mk_info (pin6 s) (pin8 s) (tms s) (tdi s) (buf s) v (lowlevel_name s)
          (drv s) (ublast_device_desc s) (ublast_vid s) (ublast_pid s) (tap s) (wlog s).
Definition set_drv (v : option ublast_lowlevel) (s : ublast_info) : ublast_info :=
  mk_info (pin6 s) (pin8 s) (tms s) (tdi s) (buf s) (bufidx s) (lowlevel_name s)
          v (ublast_device_desc s) (ublast_vid s) (ublast_pid s) (tap s) (wlog s).
Definition tap_set_state (v : tap_state) (s : ublast_info) : ublast_info :=
  mk_info (pin6 s) (pin8 s) (tms s) (tdi s) (buf s) (bufidx s) (lowlevel_name s)
          (drv s) (ublast_device_desc s) (ublast_vid s) (ublast_pid s) v (wlog s).
Definition log_write (c : write_call) (s : ublast_info) : ublast_info :=
  mk_info (pin6 s) (pin8 s) (tms s) (tdi s) (buf s) (bufidx s) (lowlevel_name s)
          (drv s) (ublast_device_desc s) (ublast_vid s) (ublast_pid s) (tap s)
          (wlog s ++ [c]).

Definition tap_get_state : M ublast_info tap_state := gets tap.

(** ** Access to the low-level driver *)

Definition ublast_buf_read (size : Z) : M ublast_info (Z * list Z) :=
  fun s => match drv s with
           | None => Stuck NullPointer s
           | Some d => let '(r, d') := drv_read size d in Done r (set_drv (Some d') s)
           end.

Definition ublast_buf_write (bytes : list Z) (size : Z) : M ublast_info (Z * Z) :=
  fun s => match drv s with
           | None => Stuck NullPointer s
           | Some d =>
               let offered := firstn (Z.to_nat size) bytes in
               let '((r, n), d') := drv_write offered d in
               Done (r, n) (log_write (mk_write_call offered r n) (set_drv (Some d') s))
           end.

Definition nb_buf_remaining (s : ublast_info) : Z := BUF_LEN - bufidx s.

(** The loop of [ublast_flush_buffer]: every attempt offers [info.buf] from
    its start, [nb] bytes of it. *)
Fixpoint flush_loop (n : nat) (retv nb : Z) : M ublast_info unit :=
  if (retv =? ERROR_OK) && (nb >? 0) then
    match n with
    | O => stuck OutOfFuel
    | S n' =>
        s <- get ;;
        '(r, retlen) <- ublast_buf_write (buf s) nb ;;
        flush_loop n' r (to_int (nb - to_u32 retlen))
    end
  else ret tt.

Definition ublast_flush_buffer : M ublast_info unit :=
  s <- get ;;
  flush_loop fuel ERROR_OK (bufidx s) ;;
  modify (set_bufidx 0).

(** ** Queueing *)

Definition ublast_queue_byte (abyte : Z) : M ublast_info unit :=
  s <- get ;;
  (if nb_buf_remaining s <? 1 then ublast_flush_buffer else ret tt) ;;
  s <- get ;;
  match aset (buf s) (bufidx s) (to_u8 abyte) with
  | None => stuck (OutOfBounds (bufidx s))
  | Some b =>
      modify (fun s => set_bufidx (bufidx s + 1) (set_buf b s)) ;;
      s <- get ;;
      if nb_buf_remaining s =? 0 then ublast_flush_buffer else ret tt
  end.

Definition ublast_build_out (type : scan_type) (s : ublast_info) : Z :=
  let abyte := 0 in
  let abyte := Z.lor abyte (if tms s =? 0 then 0 else TMS) in
  let abyte := Z.lor abyte (if pin6 s =? 0 then 0 else NCE) in
  let abyte := Z.lor abyte (if pin8 s =? 0 then 0 else NCS) in
  let abyte := Z.lor abyte (if tdi s =? 0 then 0 else TDI) in
  let abyte := Z.lor abyte LED in
  if reads_tdo type then Z.lor abyte READ else abyte.

Definition ublast_clock_tms (tms_v : Z) : M ublast_info unit :=
  modify (set_tms (notnot tms_v)) ;;
  modify (set_tdi 0) ;;
  out <- gets (ublast_build_out SCAN_OUT) ;;
  ublast_queue_byte out ;;
  ublast_queue_byte (Z.lor out TCK).

Definition ublast_idle_clock : M ublast_info unit :=
  out <- gets (ublast_build_out SCAN_OUT) ;;
  ublast_queue_byte out.

Definition ublast_clock_tdi (tdi_v : Z) (type : scan_type) : M ublast_info unit :=
  modify (set_tdi (notnot tdi_v)) ;;
  out <- gets (ublast_build_out SCAN_OUT) ;;
  ublast_queue_byte out ;;
  out <- gets (ublast_build_out type) ;;
  ublast_queue_byte (Z.lor out TCK).

Definition ublast_clock_tdi_flip_tms (tdi_v : Z) (type : scan_type) : M ublast_info unit :=
  modify (set_tdi (notnot tdi_v)) ;;
  modify (fun s => set_tms (lnot (tms s)) s) ;;
  out <- gets (ublast_build_out SCAN_OUT) ;;
  ublast_queue_byte out ;;
  out <- gets (ublast_build_out type) ;;
  ublast_queue_byte (Z.lor out TCK) ;;
  out <- gets (ublast_build_out SCAN_OUT) ;;
  ublast_queue_byte out.

(** [ublast_queue_bytes(bytes, nb_bytes)]: [bytes] is the source ([None] for
    NULL, which queues zeros). *)
Definition ublast_queue_bytes (bytes : option (list Z)) (nb_bytes : Z) : M ublast_info unit :=
  s <- get ;;
  if bufidx s + nb_bytes >? BUF_LEN then stuck (ProcessExit (-1))
  else
    match (match bytes with
           | Some l => aslice l 0 nb_bytes
           | None => aslice (repeat 0 (Z.to_nat nb_bytes)) 0 nb_bytes
           end) with
    | None => stuck (OutOfBounds nb_bytes)
    | Some src =>
        match acopy (buf s) (bufidx s) src with
        | None => stuck (OutOfBounds (bufidx s))
        | Some b =>
            modify (fun s => set_bufidx (bufidx s + nb_bytes) (set_buf b s)) ;;
            s <- get ;;
            if nb_buf_remaining s =? 0 then ublast_flush_buffer else ret tt
        end
    end.

(** ** TMS sequences and state moves *)

(** [(bits[i / 8] >> (i % 8)) & 0x01] *)
Definition tms_bit (bits : list Z) (i : Z) : option Z :=
  match aget bits (Z.quot i 8) with
  | Some b => Some (Z.land (Z.shiftr b (Z.rem i 8)) 1)
  | None => None
  end.

Fixpoint tms_seq_loop (n : nat) (bits : list Z) (i : Z) : M ublast_info unit :=
  match n with
  | O => ret tt
  | S n' =>
      match tms_bit bits i with
      | None => stuck (OutOfBounds (Z.quot i 8))
      | Some b => ublast_clock_tms b ;; tms_seq_loop n' bits (i + 1)
      end
  end.

Definition ublast_tms_seq (bits : list Z) (nb_bits : Z) : M ublast_info unit :=
  tms_seq_loop (Z.to_nat nb_bits) bits 0 ;;
  ublast_idle_clock.

Record tms_command : Type := mk_tms_command {
  tms_num_bits : Z;
  tms_bits : list Z
}.

Definition ublast_tms (cmd : tms_command) : M ublast_info unit :=
  ublast_tms_seq (tms_bits cmd) (tms_num_bits cmd).

Record pathmove_command : Type := mk_pathmove {
  num_states : Z;
  path : list tap_state
}.

Fixpoint path_move_loop (n : nat) (cmd : pathmove_command) (i : Z) : M ublast_info unit :=
  match n with
  | O => ret tt
  | S n' =>
      match aget (path cmd) i with
      | None => stuck (OutOfBounds i)
      | Some target =>
          cur <- tap_get_state ;;
          (if tap_eqb (tap_state_transition cur false) target
           then ublast_clock_tms 0 else ret tt) ;;
          cur <- tap_get_state ;;
          (if tap_eqb (tap_state_transition cur true) target
           then ublast_clock_tms 1 else ret tt) ;;
          modify (tap_set_state target) ;;
          path_move_loop n' cmd (i + 1)
      end
  end.

Definition ublast_path_move (cmd : pathmove_command) : M ublast_info unit :=
  path_move_loop (Z.to_nat (num_states cmd)) cmd 0 ;;
  ublast_idle_clock.

Definition ublast_state_move (state : tap_state) : M ublast_info unit :=
  cur <- tap_get_state ;;
  if tap_eqb cur state then ret tt
  else
    let tms_scan := to_u8 (tap_get_tms_path cur state) in
    let tms_len := tap_get_tms_path_len cur state in
    ublast_tms_seq [tms_scan] tms_len ;;
    modify (tap_set_state state).

(** ** Reading TDO back *)

(** The loop of [ublast_read_byteshifted_tdos]; every read stores at the
    same place, [&tdos[off]]. *)
Fixpoint read_loop (n : nat) (retv nb_bytes : Z) (tdos : list Z) (off : Z)
  : M ublast_info (Z * list Z) :=
  if (retv =? ERROR_OK) && (nb_bytes >? 0) then
    match n with
    | O => stuck OutOfFuel
    | S n' =>
        '(r, data) <- ublast_buf_read nb_bytes ;;
        match acopy tdos off data with
        | None => stuck (OutOfBounds off)
        | Some tdos' =>
            read_loop n' r (to_int (nb_bytes - to_u32 (Z.of_nat (length data)))) tdos' off
        end
    end
  else ret (retv, tdos).

Definition ublast_read_byteshifted_tdos (tdos : list Z) (off nb_bytes : Z)
  : M ublast_info (Z * list Z) :=
  ublast_flush_buffer ;;
  read_loop fuel ERROR_OK nb_bytes tdos off.

(** The unpacking loop of [ublast_read_bitbang_tdos] on the byte [b] that
    [buf] points at. *)
Fixpoint unpack_tdos (n : nat) (i : Z) (tmp : list Z) (b : Z) : option Z :=
  match n with
  | O => Some b
  | S n' =>
      match aget tmp i with
      | None => None
      | Some t =>
          unpack_tdos n' (i + 1) tmp
            (if Z.land t READ_TDO =? 0
             then to_u8 (Z.land b (Z.lnot (Z.shiftl 1 i)))
             else to_u8 (Z.lor b (Z.shiftl 1 i)))
      end
  end.

(** [tmp] is an uninitialised array of 8 bytes in C; the slots a short read
    leaves untouched are taken as 0 here. *)
Definition ublast_read_bitbang_tdos (tdos : list Z) (off nb_bits : Z)
  : M ublast_info (Z * list Z) :=
  let nb1 := nb_bits in
  ublast_flush_buffer ;;
  '(r, data) <- ublast_buf_read nb1 ;;
  match acopy (repeat 0 8%nat) 0 data with
  | None => stuck (OutOfBounds 8)
  | Some tmp =>
      if r =? ERROR_OK then
        match aget tdos off with
        | None => if 0 <? nb1 then stuck (OutOfBounds off) else ret (r, tdos)
        | Some b =>
            match unpack_tdos (Z.to_nat nb1) 0 tmp b with
            | None => stuck (OutOfBounds 8)
            | Some b' =>
                match aset tdos off b' with
                | Some tdos' => ret (r, tdos')
                | None => stuck (OutOfBounds off)
                end
            end
        end
      else ret (r, tdos)
  end.

(** ** Shifting TDI *)

(** [static uint8_t byte0[BUF_LEN]] *)
Definition byte0 : list Z := repeat 0 (Z.to_nat BUF_LEN).

(** The header of a byte-shift burst of [trans] bytes. *)
Definition shift_header (read_tdos : bool) (trans : Z) : Z :=
  if read_tdos then Z.lor (Z.lor SHMODE READ) trans else Z.lor SHMODE trans.

(** One turn of the first loop of [ublast_queue_tdi] once [trans] is
    chosen: the header, the payload, and the TDO bytes when they are read. *)
Definition byteshift_burst (bits : option (list Z)) (read_tdos : bool)
           (i trans : Z) (tdos : list Z) : M ublast_info (list Z) :=
  ublast_queue_byte (shift_header read_tdos trans) ;;
  ublast_queue_bytes (match bits with
                      | Some l => Some (skipn (Z.to_nat i) l)
                      | None => Some byte0
                      end) trans ;;
  if read_tdos then
    '(_, tdos') <- ublast_read_byteshifted_tdos tdos i trans ;;
    ret tdos'
  else ret tdos.

(** [trans = MIN(nbfree - 1, nb8 - i)] *)
Definition burst_len (s : ublast_info) (nb8 i : Z) : Z :=
  Z.min (nb_buf_remaining s - 1) (nb8 - i).

Fixpoint byteshift_loop (n : nat) (bits : option (list Z)) (read_tdos : bool)
         (nb8 i : Z) (tdos : list Z) : M ublast_info (list Z) :=
  if i <? nb8 then
    match n with
    | O => stuck OutOfFuel
    | S n' =>
        s <- get ;;
        let trans := burst_len s nb8 i in
        tdos' <- byteshift_burst bits read_tdos i trans tdos ;;
        byteshift_loop n' bits read_tdos nb8 (i + trans) tdos'
    end
  else ret tdos.

Definition is_some {A} (o : option A) : bool :=
  match o with Some _ => true | None => false end.

Fixpoint bitbang_loop (n : nat) (bits : option (list Z)) (scan : scan_type)
         (tap_shift nb8 nb1 i : Z) : M ublast_info unit :=
  match n with
  | O => ret tt
  | S n' =>
      tdi_v <- match bits with
               | Some l =>
                   match aget l (nb8 + Z.quot i 8) with
                   | Some b => ret (Z.land b (Z.shiftl 1 i))
                   | None => stuck (OutOfBounds (nb8 + Z.quot i 8))
                   end
               | None => ret 0
               end ;;
      (if negb (tap_shift =? 0) && is_some bits && (i =? nb1 - 1)
       then ublast_clock_tdi_flip_tms tdi_v scan
       else ublast_clock_tdi tdi_v scan) ;;
      bitbang_loop n' bits scan tap_shift nb8 nb1 (i + 1)
  end.

(** [ublast_queue_tdi(bits, nb_bits, scan, tap_shift)]; the result is what
    [bits] holds afterwards. *)
Definition ublast_queue_tdi (bits : option (list Z)) (nb_bits : Z)
           (scan : scan_type) (tap_shift : Z) : M ublast_info (option (list Z)) :=
  let '(nb8, nb1) := tdi_split nb_bits in
  let tdos := repeat 0 (Z.to_nat (Z.quot nb_bits 8 + 1)) in
  let read_tdos := reads_tdo scan in
  tdos <- byteshift_loop fuel bits read_tdos nb8 0 tdos ;;
  bitbang_loop (Z.to_nat nb1) bits scan tap_shift nb8 nb1 0 ;;
  tdos <- (if negb (nb1 =? 0) && read_tdos
           then '(_, tdos') <- ublast_read_bitbang_tdos tdos nb8 nb1 ;; ret tdos'
           else ret tdos) ;;
  bits' <- match bits with
           | None => ret None
           | Some l =>
               match aslice tdos 0 (DIV_ROUND_UP nb_bits 8) with
               | None => stuck (OutOfBounds (DIV_ROUND_UP nb_bits 8))
               | Some src =>
                   match acopy l 0 src with
                   | None => stuck (OutOfBounds (Z.of_nat (length l)))
                   | Some l' => ret (Some l')
                   end
               end
           end ;;
  ublast_idle_clock ;;
  ret bits'.

Definition ublast_runtest (cycles : Z) (state : tap_state) : M ublast_info unit :=
  ublast_state_move TAP_IDLE ;;
  ublast_queue_tdi None cycles SCAN_OUT TAP_SHIFT ;;
  ublast_state_move state.

Definition ublast_stableclocks (cycles : Z) : M ublast_info unit :=
  ublast_queue_tdi None cycles SCAN_OUT TAP_SHIFT ;;
  ret tt.

(** [hexdump(buf, size)] builds the string of the debug output from
    [buf[0 .. size - 1]]; [size] is an [unsigned int].  Of the call only
    these reads are kept: with no byte to read [buf] is not touched. *)
Definition hexdump (buf : option (list Z)) (size : Z) : M ublast_info unit :=
  if to_u32 size =? 0 then ret tt
  else
    match buf with
    | None => stuck NullPointer
    | Some l =>
        if to_u32 size <=? Z.of_nat (length l) then ret tt
        else stuck (OutOfBounds (Z.of_nat (length l)))
    end.

Definition ublast_scan (cmd : scan_command) : M ublast_info Z :=
  let type := jtag_scan_type cmd in
  let '(scan_bits, buf0) := jtag_build_buffer cmd in
  (if ir_scan cmd then ublast_state_move TAP_IRSHIFT
   else ublast_state_move TAP_DRSHIFT) ;;
  hexdump buf0 (DIV_ROUND_UP scan_bits 8) ;;
  buf1 <- (if tap_eqb (end_state cmd) TAP_DRSHIFT
           then ublast_queue_tdi buf0 scan_bits type NO_TAP_SHIFT
           else ublast_queue_tdi buf0 scan_bits type TAP_SHIFT) ;;
  (if negb (tap_eqb (end_state cmd) TAP_DRSHIFT) then
     ublast_clock_tms 0 ;;
     (if ir_scan cmd then modify (tap_set_state TAP_IRPAUSE)
      else modify (tap_set_state TAP_DRPAUSE))
   else ret tt) ;;
  let r := jtag_read_buffer buf1 cmd in
  (if negb (tap_eqb (end_state cmd) TAP_DRSHIFT)
   then ublast_state_move (end_state cmd) else ret tt) ;;
  ret r.

(** ** The command queue *)

Definition ublast_reset (trst srst : Z) : M ublast_info unit :=
  if trst =? 1 then modify (tap_set_state TAP_RESET) else ret tt.

(** [jtag_sleep] only lets time pass. *)
Definition ublast_msleep (ms : Z) : M ublast_info unit := ret tt.

(** The commands of the host's queue, each with the fields the driver reads. *)
Inductive jtag_command : Type :=
| JTAG_SCAN (scan : scan_command)
| JTAG_TLR_RESET (statemove_end_state : tap_state)
| JTAG_RUNTEST (num_cycles : Z) (runtest_end_state : tap_state)
| JTAG_RESET (trst srst : Z)
| JTAG_PATHMOVE (pathmove : pathmove_command)
| JTAG_SLEEP (us : Z)
| JTAG_STABLECLOCKS (num_cycles : Z)
| JTAG_TMS (tms_cmd : tms_command).

Definition execute_command (cmd : jtag_command) (retv : Z) : M ublast_info Z :=
  match cmd with
  | JTAG_RESET trst srst => ublast_reset trst srst ;; ret retv
  | JTAG_RUNTEST n e => ublast_runtest n e ;; ret retv
  | JTAG_STABLECLOCKS n => ublast_stableclocks n ;; ret retv
  | JTAG_TLR_RESET e => ublast_state_move e ;; ret retv
  | JTAG_PATHMOVE p => ublast_path_move p ;; ret retv
  | JTAG_TMS t => ublast_tms t ;; ret retv
  | JTAG_SLEEP us => ublast_msleep us ;; ret retv
  | JTAG_SCAN c => ublast_scan c
  end.

Fixpoint execute_loop (queue : list jtag_command) (retv : Z) : M ublast_info Z :=
  match queue with
  | [] => ret retv
  | cmd :: rest =>
      if retv =? ERROR_OK then
        r <- execute_command cmd retv ;;
        execute_loop rest r
      else ret retv
  end.

(** [ublast_execute_queue] on the host's [jtag_command_queue]. *)
Definition ublast_execute_queue (jtag_command_queue : list jtag_command) : M ublast_info Z :=
  r <- execute_loop jtag_command_queue ERROR_OK ;;
  ublast_flush_buffer ;;
  ret r.

Definition ublast_speed (speed : Z) : M ublast_info Z :=
  fun s => match drv s with
           | None => Stuck NullPointer s
           | Some d => let '(r, d') := drv_speed speed d in Done r (set_drv (Some d') s)
           end.

(** ** Opening and closing the probe *)

Definition lowlevel_drivers_map : list (String.string * option ublast_lowlevel) :=
  [ ("ftdi"%string, ublast_register_ftdi);
    ("ftd2xx"%string, ublast_register_ftd2xx) ].

(** The registrar of the first entry called [name], if there is one. *)
Fixpoint find_driver (m : list (String.string * option ublast_lowlevel))
         (name : String.string) : option (option ublast_lowlevel) :=
  match m with
  | [] => None
  | (n, reg) :: rest => if String.eqb n name then Some reg else find_driver rest name
  end.

(** [for (i = 0; !info.drv && map[i].name; i++) info.drv = map[i].drv_register();] *)
Fixpoint try_drivers (m : list (String.string * option ublast_lowlevel))
         (d : option ublast_lowlevel) : option ublast_lowlevel :=
  match d, m with
  | None, (_, reg) :: rest => try_drivers rest reg
  | _, _ => d
  end.

(** [for (i = 0; i < 128 / BUF_LEN; i += BUF_LEN) ublast_buf_write(buf0, BUF_LEN, &retlen);] *)
Fixpoint init_flush_loop (n : nat) (i : Z) : M ublast_info unit :=
  if i <? Z.quot 128 BUF_LEN then
    match n with
    | O => stuck OutOfFuel
    | S n' =>
        ublast_buf_write byte0 BUF_LEN ;;
        init_flush_loop n' (i + BUF_LEN)
    end
  else ret tt.

Definition select_driver : M ublast_info bool :=
  s <- get ;;
  match lowlevel_name s with
  | Some name =>
      match find_driver lowlevel_drivers_map name with
      | Some reg => modify (set_drv reg)
      | None => ret tt
      end ;;
      s <- get ;;
      ret (is_some (drv s))
  | None =>
      modify (fun s => set_drv (try_drivers lowlevel_drivers_map (drv s)) s) ;;
      s <- get ;;
      ret (is_some (drv s))
  end.

Definition ublast_init : M ublast_info Z :=
  found <- select_driver ;;
  if negb found then ret ERROR_JTAG_DEVICE_ERROR
  else
    s <- get ;;
    match drv s with
    | None => stuck NullPointer
    | Some d =>
        let d := mk_lowlevel (ublast_vid s) (ublast_pid s) (ublast_device_desc s) (priv d) in
        let '(r, d') := drv_open d in
        modify (set_drv (Some d')) ;;
        (if r =? ERROR_OK then
           init_flush_loop (Z.to_nat (Z.quot 128 BUF_LEN)) 0 ;;
           ublast_tms_seq [255] 5 ;;
           modify (tap_set_state TAP_RESET)
         else ret tt) ;;
        ret r
    end.

Definition ublast_quit : M ublast_info Z :=
  ublast_buf_write [0] 1 ;;
  fun s => match drv s with
           | None => Stuck NullPointer s
           | Some d => let '(r, d') := drv_close d in Done r (set_drv (Some d') s)
           end.

(** ** Speed conversions *)

(** [dummy_khz(khz, &jtag_speed)] and [dummy_speed_div(speed, &khz)]: the
    return code and what is stored through the pointer. *)
Definition dummy_khz (khz : Z) : Z * Z := (ERROR_OK, khz).
Definition dummy_speed_div (speed : Z) : Z * Z := (ERROR_OK, speed).

(** ** Configuration commands *)

Definition set_pin6 (v : Z) (s : ublast_info) : ublast_info :=
  mk_info v (pin8 s) (tms s) (tdi s) (buf s) (bufidx s) (lowlevel_name s)
          (drv s) (ublast_device_desc s) (ublast_vid s) (ublast_pid s) (tap s) (wlog s).
Definition set_pin8 (v : Z) (s : ublast_info) : ublast_info :=
  mk_info (pin6 s) v (tms s) (tdi s) (buf s) (bufidx s) (lowlevel_name s)
          (drv s) (ublast_device_desc s) (ublast_vid s) (ublast_pid s) (tap s) (wlog s).
Definition set_lowlevel_name (v : option String.string) (s : ublast_info) : ublast_info :=
  mk_info (pin6 s) (pin8 s) (tms s) (tdi s) (buf s) (bufidx s) v
          (drv s) (ublast_device_desc s) (ublast_vid s) (ublast_pid s) (tap s) (wlog s).
Definition set_ublast_device_desc (v : option String.string) (s : ublast_info) : ublast_info :=
  mk_info (pin6 s) (pin8 s) (tms s) (tdi s) (buf s) (bufidx s) (lowlevel_name s)
          (drv s) v (ublast_vid s) (ublast_pid s) (tap s) (wlog s).
Definition set_ublast_vid (v : Z) (s : ublast_info) : ublast_info :=
  mk_info (pin6 s) (pin8 s) (tms s) (tdi s) (buf s) (bufidx s) (lowlevel_name s)
          (drv s) (ublast_device_desc s) v (ublast_pid s) (tap s) (wlog s).
Definition set_ublast_pid (v : Z) (s : ublast_info) : ublast_info :=
  mk_info (pin6 s) (pin8 s) (tms s) (tdi s) (buf s) (bufidx s) (lowlevel_name s)
          (drv s) (ublast_device_desc s) (ublast_vid s) v (tap s) (wlog s).

(** [COMMAND_PARSE_NUMBER(u16, in, out)] and [COMMAND_PARSE_NUMBER(uint, in,
    out)] of the host's [command.h]: the parser is given the text and what
    [out] holds, and answers with its return code and what [out] holds
    afterwards; the macro leaves the handler with the code when that is not
    [ERROR_OK]. *)
Variable parse_u16 : String.string -> Z -> Z * Z.
Variable parse_uint : String.string -> Z -> Z * Z.

(** The handlers are given [CMD_ARGV]; [CMD_ARGC] is its length. *)
Definition ublast_handle_device_desc_command (argv : list String.string)
  : M ublast_info Z :=
  match argv with
  | [desc] => modify (set_ublast_device_desc (Some desc)) ;; ret ERROR_OK
  | _ => ret ERROR_OK
  end.

Definition ublast_handle_vid_pid_command (argv : list String.string)
  : M ublast_info Z :=
  let argc := Z.of_nat (length argv) in
  let argc := if argc >? 2 then 2 else argc in
  if argc =? 2 then
    match argv with
    | a0 :: a1 :: _ =>
        s <- get ;;
        let '(r, v) := parse_u16 a0 (ublast_vid s) in
        modify (set_ublast_vid v) ;;
        if negb (r =? ERROR_OK) then ret r
        else
          s <- get ;;
          let '(r, p) := parse_u16 a1 (ublast_pid s) in
          modify (set_ublast_pid p) ;;
          if negb (r =? ERROR_OK) then ret r else ret ERROR_OK
    | _ => stuck (OutOfBounds 1)
    end
  else ret ERROR_OK.

(** [state] is not initialised before it is parsed; it is taken as 0 there. *)
Definition ublast_handle_pin_command (argv : list String.string) : M ublast_info Z :=
  match argv with
  | [pin_name; a1] =>
      let '(r, state) := parse_uint a1 0 in
      if negb (r =? ERROR_OK) then ret r
      else if negb (state =? 0) && negb (state =? 1) then ret ERROR_COMMAND_SYNTAX_ERROR
      else
        let queue_pins : M ublast_info Z :=
          s <- get ;;
          (if is_some (drv s) then
             out_value <- gets (ublast_build_out SCAN_OUT) ;;
             ublast_queue_byte out_value ;;
             ublast_flush_buffer
           else ret tt) ;;
          ret ERROR_OK in
        if String.eqb pin_name "pin6" then modify (set_pin6 state) ;; queue_pins
        else if String.eqb pin_name "pin8" then modify (set_pin8 state) ;; queue_pins
        else ret ERROR_COMMAND_SYNTAX_ERROR
  | _ => ret ERROR_COMMAND_SYNTAX_ERROR
  end.

Definition ublast_handle_lowlevel_drv_command (argv : list String.string)
  : M ublast_info Z :=
  match argv with
  | [name] => modify (set_lowlevel_name (Some name)) ;; ret ERROR_OK
  | _ => ret ERROR_OK
  end.

(** ** The recorded TAP state is touched by [tap_set_state] alone *)

Definition same_tap (s s' : ublast_info) : Prop := tap s' = tap s.

Lemma same_tap_refl s : same_tap s s.
Proof. reflexivity. Qed.

Lemma same_tap_trans s1 s2 s3 : same_tap s1 s2 -> same_tap s2 s3 -> same_tap s1 s3.
Proof. unfold same_tap. congruence. Qed.

Ltac tap_frame :=
  repeat first
    [ frame_step same_tap_refl same_tap_trans
    | solve [ auto with tap_frame ] ].

Create HintDb tap_frame.

Lemma buf_read_tap size : preserves same_tap (ublast_buf_read size).
Proof.
  intros s. unfold ublast_buf_read. destruct (drv s) as [d|]; [|reflexivity].
  destruct (drv_read size d) as [r d']. reflexivity.
Qed.

Lemma buf_write_tap bytes size : preserves same_tap (ublast_buf_write bytes size).
Proof.
  intros s. unfold ublast_buf_write. destruct (drv s) as [d|]; [|reflexivity].
  destruct (drv_write _ d) as [[r n] d']. reflexivity.
Qed.
#[local] Hint Resolve buf_read_tap buf_write_tap : tap_frame.

Lemma flush_loop_tap n : forall retv nb, preserves same_tap (flush_loop n retv nb).
Proof.
  induction n as [|n IH]; intros retv nb; simpl;
    destruct ((retv =? ERROR_OK) && (nb >? 0)); tap_frame.
Qed.
#[local] Hint Resolve flush_loop_tap : tap_frame.

Lemma flush_buffer_tap : preserves same_tap ublast_flush_buffer.
Proof. unfold ublast_flush_buffer. tap_frame. Qed.
#[local] Hint Resolve flush_buffer_tap : tap_frame.

Lemma queue_byte_tap b : preserves same_tap (ublast_queue_byte b).
Proof. unfold ublast_queue_byte. tap_frame. Qed.
#[local] Hint Resolve queue_byte_tap : tap_frame.

Lemma queue_bytes_tap bytes n : preserves same_tap (ublast_queue_bytes bytes n).
Proof. unfold ublast_queue_bytes. tap_frame. Qed.
#[local] Hint Resolve queue_bytes_tap : tap_frame.

Lemma clock_tms_tap v : preserves same_tap (ublast_clock_tms v).
Proof. unfold ublast_clock_tms. tap_frame. Qed.

Lemma idle_clock_tap : preserves same_tap ublast_idle_clock.
Proof. unfold ublast_idle_clock. tap_frame. Qed.

Lemma clock_tdi_tap v t : preserves same_tap (ublast_clock_tdi v t).
Proof. unfold ublast_clock_tdi. tap_frame. Qed.

Lemma clock_tdi_flip_tms_tap v t : preserves same_tap (ublast_clock_tdi_flip_tms v t).
Proof. unfold ublast_clock_tdi_flip_tms. tap_frame. Qed.
#[local] Hint Resolve clock_tms_tap idle_clock_tap clock_tdi_tap clock_tdi_flip_tms_tap : tap_frame.

Lemma tms_seq_loop_tap n bits : forall i, preserves same_tap (tms_seq_loop n bits i).
Proof. induction n as [|n IH]; intros i; simpl; tap_frame. Qed.
#[local] Hint Resolve tms_seq_loop_tap : tap_frame.

Lemma tms_seq_tap bits n : preserves same_tap (ublast_tms_seq bits n).
Proof. unfold ublast_tms_seq. tap_frame. Qed.
#[local] Hint Resolve tms_seq_tap : tap_frame.

Lemma read_loop_tap n : forall retv nb tdos off,
  preserves same_tap (read_loop n retv nb tdos off).
Proof.
  induction n as [|n IH]; intros retv nb tdos off; simpl;
    destruct ((retv =? ERROR_OK) && (nb >? 0)); tap_frame.
Qed.
#[local] Hint Resolve read_loop_tap : tap_frame.

Lemma read_byteshifted_tdos_tap tdos off n :
  preserves same_tap (ublast_read_byteshifted_tdos tdos off n).
Proof. unfold ublast_read_byteshifted_tdos. tap_frame. Qed.

Lemma read_bitbang_tdos_tap tdos off n :
  preserves same_tap (ublast_read_bitbang_tdos tdos off n).
Proof. unfold ublast_read_bitbang_tdos. tap_frame. Qed.
#[local] Hint Resolve read_byteshifted_tdos_tap read_bitbang_tdos_tap : tap_frame.

Lemma byteshift_burst_tap bits rd i trans tdos :
  preserves same_tap (byteshift_burst bits rd i trans tdos).
Proof. unfold byteshift_burst. tap_frame. Qed.
#[local] Hint Resolve byteshift_burst_tap : tap_frame.

Lemma byteshift_loop_tap n bits rd nb8 : forall i tdos,
  preserves same_tap (byteshift_loop n bits rd nb8 i tdos).
Proof.
  induction n as [|n IH]; intros i tdos; simpl; destruct (i <? nb8); tap_frame.
Qed.
#[local] Hint Resolve byteshift_loop_tap : tap_frame.

Lemma bitbang_loop_tap n bits scan ts nb8 nb1 : forall i,
  preserves same_tap (bitbang_loop n bits scan ts nb8 nb1 i).
Proof. induction n as [|n IH]; intros i; simpl; tap_frame. Qed.
#[local] Hint Resolve bitbang_loop_tap : tap_frame.

Lemma queue_tdi_tap bits n scan ts : preserves same_tap (ublast_queue_tdi bits n scan ts).
Proof.
  unfold ublast_queue_tdi. destruct (tdi_split n) as [nb8 nb1]. tap_frame.
Qed.
#[local] Hint Resolve queue_tdi_tap : tap_frame.

Lemma preserves_Done {A} (R : ublast_info -> ublast_info -> Prop) (m : M ublast_info A) s a s' :
  preserves R m -> m s = Done a s' -> R s s'.
Proof. intros H E. specialize (H s). rewrite E in H. exact H. Qed.

Lemma state_move_Done state s u s' :
  ublast_state_move state s = Done u s' -> tap s' = state.
Proof.
  unfold ublast_state_move, tap_get_state. intros H.
  apply bind_Done in H. destruct H as (cur & s1 & Hg & H).
  unfold gets in Hg. inversion Hg; subst cur s1; clear Hg.
  unfold tap_eqb in H. destruct (tap_state_eq_dec (tap s) state) as [E|NE].
  - unfold ret in H. inversion H; subst; reflexivity.
  - apply bind_Done in H. destruct H as (u1 & s1 & _ & H).
    unfold modify in H. inversion H; subst. reflexivity.
Qed.

(** ** The split of [ublast_queue_tdi] *)

(** The split as the specification words it: the borrow is made only when
    exit is requested ([tap_shift] is not 0). *)
Definition tdi_split_on_exit (nb_bits tap_shift : Z) : Z * Z :=
  let nb8 := Z.quot nb_bits 8 in
  let nb1 := Z.rem nb_bits 8 in
  if negb (tap_shift =? 0) && (nb1 =? 0) && (nb8 >? 0) then (nb8 - 1, 8) else (nb8, nb1).

(** C2, as amended: the split is [nb8 = nb_bits / 8] and [nb1 = nb_bits % 8];
    the borrow ([nb8 - 1], [nb1 = 8]) is applied exactly when [nb1 == 0] and
    [nb8 > 0], whether or not exit is requested; in all cases
    [nb8 * 8 + nb1 == nb_bits]. *)
Theorem tdi_split_borrow (nb_bits : Z) :
  (Z.rem nb_bits 8 = 0 /\ Z.quot nb_bits 8 > 0 <->
   tdi_split nb_bits = (Z.quot nb_bits 8 - 1, 8)) /\
  (~ (Z.rem nb_bits 8 = 0 /\ Z.quot nb_bits 8 > 0) <->
   tdi_split nb_bits = (Z.quot nb_bits 8, Z.rem nb_bits 8)) /\
  fst (tdi_split nb_bits) * 8 + snd (tdi_split nb_bits) = nb_bits.
Proof.
  pose proof (Z.quot_rem' nb_bits 8) as E.
  assert (R8 : Z.abs (Z.rem nb_bits 8) < 8).
  { pose proof (Z.rem_bound_abs nb_bits 8). lia. }
  unfold tdi_split.
  destruct (Z.quot nb_bits 8 >? 0) eqn:Hq; destruct (Z.rem nb_bits 8 =? 0) eqn:Hr; simpl;
    rewrite ?Z.gtb_lt, ?Z.eqb_eq, ?Z.eqb_neq in *;
    try (apply Z.gtb_ltb in Hq); repeat split; intros;
    try match goal with H : (_, _) = (_, _) |- _ => inversion H; clear H end;
    try match goal with H : _ /\ _ |- _ => destruct H end;
    try (f_equal; lia); try lia.
Qed.

(** ** The recorded TAP state after a scan *)

(** [hexdump] leaves the driver's state alone. *)
Lemma hexdump_Done buf size s u s' : hexdump buf size s = Done u s' -> s' = s.
Proof.
  unfold hexdump. destruct (to_u32 size =? 0); [intros H; inversion H; reflexivity|].
  destruct buf as [l|]; [|discriminate].
  destruct (to_u32 size <=? Z.of_nat (length l)); [|discriminate].
  intros H. inversion H. reflexivity.
Qed.

(** C3, as amended: when [ublast_scan] returns, the recorded TAP state is
    [cmd.end_state] if that is not DRSHIFT; if it is DRSHIFT, the recorded
    state is the shift state of the scan, DRSHIFT for a DR scan and IRSHIFT
    for an IR scan. *)
Theorem ublast_scan_recorded_state cmd s r s' :
  ublast_scan cmd s = Done r s' ->
  (end_state cmd <> TAP_DRSHIFT -> tap s' = end_state cmd) /\
  (end_state cmd = TAP_DRSHIFT ->
   tap s' = if ir_scan cmd then TAP_IRSHIFT else TAP_DRSHIFT).
Proof.
  unfold ublast_scan. destruct (jtag_build_buffer cmd) as [scan_bits buf0].
  intros H.
  apply bind_Done in H. destruct H as (u1 & s0 & H1 & H).
  apply bind_Done in H. destruct H as (u0 & s1 & H0 & H).
  apply hexdump_Done in H0. subst s1.
  apply bind_Done in H. destruct H as (buf1 & s2 & H2 & H).
  apply bind_Done in H. destruct H as (u3 & s3 & H3 & H).
  apply bind_Done in H. destruct H as (u4 & s4 & H4 & H).
  unfold ret in H. inversion H; subst r s'; clear H.
  assert (E1 : tap s0 = if ir_scan cmd then TAP_IRSHIFT else TAP_DRSHIFT).
  { destruct (ir_scan cmd); eapply state_move_Done; exact H1. }
  assert (E2 : tap s2 = tap s0).
  { destruct (tap_eqb (end_state cmd) TAP_DRSHIFT);
      eapply (preserves_Done same_tap); try exact H2; apply queue_tdi_tap. }
  unfold tap_eqb in H3, H4.
  destruct (tap_state_eq_dec (end_state cmd) TAP_DRSHIFT) as [E|NE]; simpl in H3, H4.
  - unfold ret in H3, H4. inversion H3; inversion H4; subst.
    split; [intros NE; contradiction|intros _; congruence].
  - split; [intros _|intros E; contradiction].
    eapply state_move_Done; exact H4.
Qed.

(** ** Packets

    What is queued and not yet flushed, and what a flush hands to the
    low-level driver. *)

Definition pending (s : ublast_info) : list Z :=
  firstn (Z.to_nat (bufidx s)) (buf s).

(** The write buffer is the 64-byte array and is never left full. *)
Definition buffer_ok (s : ublast_info) : Prop :=
  length (buf s) = Z.to_nat BUF_LEN /\ 0 <= bufidx s <= BUF_LEN - 1.

(** Between [s] and [s'] the write trace grew, first by a write that was
    offered exactly the bytes [P]. *)
Definition flushed_as (P : list Z) (s s' : ublast_info) : Prop :=
  exists r k more, wlog s' = wlog s ++ mk_write_call P r k :: more.

Definition same_queue (s s' : ublast_info) : Prop :=
  buf s' = buf s /\ bufidx s' = bufidx s /\ wlog s' = wlog s.

Lemma same_queue_refl s : same_queue s s.
Proof. repeat split. Qed.

Lemma same_queue_trans s1 s2 s3 :
  same_queue s1 s2 -> same_queue s2 s3 -> same_queue s1 s3.
Proof. unfold same_queue. intuition congruence. Qed.

Lemma buf_read_queue size : preserves same_queue (ublast_buf_read size).
Proof.
  intros s. unfold ublast_buf_read. destruct (drv s) as [d|]; [|apply same_queue_refl].
  destruct (drv_read size d) as [r d']. repeat split.
Qed.

Lemma read_loop_queue n : forall retv nb tdos off,
  preserves same_queue (read_loop n retv nb tdos off).
Proof.
  induction n as [|n IH]; intros retv nb tdos off; simpl;
    destruct ((retv =? ERROR_OK) && (nb >? 0));
    repeat first [ frame_step same_queue_refl same_queue_trans
                 | apply buf_read_queue | apply IH ].
Qed.

Lemma buf_write_Done bytes size s r k s1 :
  ublast_buf_write bytes size s = Done (r, k) s1 ->
  buf s1 = buf s /\ bufidx s1 = bufidx s /\
  wlog s1 = wlog s ++ [mk_write_call (firstn (Z.to_nat size) bytes) r k].
Proof.
  unfold ublast_buf_write. destruct (drv s) as [d|]; [|discriminate].
  destruct (drv_write _ d) as [[r0 k0] d']. intros H. inversion H; subst.
  repeat split.
Qed.

Lemma flush_loop_Done n : forall retv nb s u s',
  flush_loop n retv nb s = Done u s' ->
  buf s' = buf s /\ bufidx s' = bufidx s /\
  (exists more, wlog s' = wlog s ++ more) /\
  (if (retv =? ERROR_OK) && (nb >? 0)
   then flushed_as (firstn (Z.to_nat nb) (buf s)) s s'
   else wlog s' = wlog s).
Proof.
  induction n as [|n IH]; intros retv nb s u s' H; simpl in H;
    destruct ((retv =? ERROR_OK) && (nb >? 0)) eqn:C.
  - discriminate H.
  - inversion H; subst. repeat split. exists []. rewrite app_nil_r. reflexivity.
  - apply bind_Done in H. destruct H as (s0 & s0' & Hg & H).
    inversion Hg; subst s0 s0'; clear Hg.
    apply bind_Done in H. destruct H as ([r k] & s1 & Hw & H).
    apply buf_write_Done in Hw. destruct Hw as (Hb & Hi & Hl).
    apply IH in H. destruct H as (Hb' & Hi' & (more & Hm) & _).
    split; [congruence|]. split; [congruence|].
    unfold flushed_as. rewrite Hm, Hl, <- app_assoc. simpl.
    split; [eexists; reflexivity|]. exists r, k, more. reflexivity.
  - inversion H; subst. repeat split. exists []. rewrite app_nil_r. reflexivity.
Qed.

Lemma flush_buffer_Done s u s' :
  ublast_flush_buffer s = Done u s' ->
  buf s' = buf s /\ bufidx s' = 0 /\
  (0 < bufidx s -> flushed_as (pending s) s s') /\
  (bufidx s <= 0 -> wlog s' = wlog s).
Proof.
  unfold ublast_flush_buffer. intros H.
  apply bind_Done in H. destruct H as (s0 & s0' & Hg & H).
  inversion Hg; subst s0 s0'; clear Hg.
  apply bind_Done in H. destruct H as (u1 & s1 & Hf & H).
  inversion H; subst s' u; clear H.
  apply flush_loop_Done in Hf. destruct Hf as (Hb & Hi & _ & Hc).
  simpl. split; [exact Hb|]. split; [reflexivity|].
  change (ERROR_OK =? ERROR_OK) with true in Hc. simpl in Hc.
  split; intros Hpos.
  - destruct (bufidx s >? 0) eqn:C; [|zbool; lia].
    destruct Hc as (r & k & more & Hc). exists r, k, more. exact Hc.
  - destruct (bufidx s >? 0) eqn:C; [|exact Hc].
    zbool; lia.
Qed.

Ltac proj_simpl :=
  cbn [pin6 pin8 tms tdi buf bufidx lowlevel_name drv ublast_device_desc
       ublast_vid ublast_pid tap wlog
       set_tms set_tdi set_buf set_bufidx set_drv tap_set_state log_write] in *.

Lemma queue_byte_Done b s u s' :
  buffer_ok s -> ublast_queue_byte b s = Done u s' ->
  length (buf s') = Z.to_nat BUF_LEN /\
  ((bufidx s + 1 < BUF_LEN /\ wlog s' = wlog s /\ bufidx s' = bufidx s + 1 /\
    pending s' = pending s ++ [to_u8 b]) \/
   (bufidx s + 1 = BUF_LEN /\ bufidx s' = 0 /\
    flushed_as (pending s ++ [to_u8 b]) s s')).
Proof.
  intros [Hlen Hidx] H. unfold ublast_queue_byte in H.
  unfold bind at 1 in H. unfold get at 1 in H.
  unfold nb_buf_remaining at 1 in H.
  destruct (BUF_LEN - bufidx s <? 1) eqn:C; [zbool; lia|].
  unfold bind at 1 in H. unfold ret at 1 in H.
  unfold bind at 1 in H. unfold get at 1 in H.
  destruct (aset (buf s) (bufidx s) (to_u8 b)) as [b'|] eqn:Ea; [|discriminate H].
  apply aset_Some in Ea. destruct Ea as (Hr & Hl' & Hf).
  unfold bind at 1 in H. unfold modify at 1 in H.
  unfold bind at 1 in H. unfold get at 1 in H.
  unfold nb_buf_remaining in H. proj_simpl.
  destruct (BUF_LEN - (bufidx s + 1) =? 0) eqn:C2; zbool.
  - apply flush_buffer_Done in H. proj_simpl.
    destruct H as (Hb & Hi & Hfl & _).
    split; [rewrite Hb; congruence|]. right.
    split; [lia|]. split; [exact Hi|].
    specialize (Hfl ltac:(lia)). unfold pending in Hfl. proj_simpl.
    rewrite Hf in Hfl. destruct Hfl as (r & k & more & Hfl).
    exists r, k, more. exact Hfl.
  - unfold ret in H. inversion H; subst s'; clear H. proj_simpl.
    split; [congruence|]. left.
    split; [lia|]. split; [reflexivity|]. split; [reflexivity|].
    unfold pending. proj_simpl. exact Hf.
Qed.

Lemma queue_bytes_Done bytes n s u s' :
  buffer_ok s -> ublast_queue_bytes bytes n s = Done u s' ->
  exists payload,
    Z.of_nat (length payload) = n /\ bufidx s + n <= BUF_LEN /\
    length (buf s') = Z.to_nat BUF_LEN /\
    ((bufidx s + n < BUF_LEN /\ wlog s' = wlog s /\ bufidx s' = bufidx s + n /\
      pending s' = pending s ++ payload) \/
     (bufidx s + n = BUF_LEN /\ bufidx s' = 0 /\
      flushed_as (pending s ++ payload) s s')).
Proof.
  intros [Hlen Hidx] H. unfold ublast_queue_bytes in H.
  unfold bind at 1 in H. unfold get at 1 in H.
  destruct (bufidx s + n >? BUF_LEN) eqn:C; [discriminate H|]. zbool.
  destruct (match bytes with
            | Some l => aslice l 0 n
            | None => aslice (repeat 0 (Z.to_nat n)) 0 n
            end) as [payload|] eqn:Es; [|discriminate H].
  assert (Hp : Z.of_nat (length payload) = n).
  { destruct bytes; apply aslice_Some in Es; apply Es. }
  clear Es.
  exists payload. split; [exact Hp|]. split; [exact C|].
  destruct (acopy (buf s) (bufidx s) payload) as [b'|] eqn:Ea; [|discriminate H].
  apply acopy_Some in Ea; [|lia]. destruct Ea as (Hl' & Hf). rewrite Hp in Hf.
  unfold bind at 1 in H. unfold modify at 1 in H.
  unfold bind at 1 in H. unfold get at 1 in H.
  unfold nb_buf_remaining in H. proj_simpl.
  destruct (BUF_LEN - (bufidx s + n) =? 0) eqn:C2; zbool.
  - apply flush_buffer_Done in H. proj_simpl.
    destruct H as (Hb & Hi & Hfl & Hnf).
    split; [rewrite Hb; congruence|]. right.
    split; [lia|]. split; [exact Hi|].
    specialize (Hfl ltac:(unfold BUF_LEN in *; lia)). unfold pending in Hfl. proj_simpl.
    rewrite Hf in Hfl. destruct Hfl as (r & k & more & Hfl).
    exists r, k, more. exact Hfl.
  - unfold ret in H. inversion H; subst s'; clear H. proj_simpl.
    split; [congruence|]. left.
    split; [lia|]. split; [reflexivity|]. split; [reflexivity|].
    unfold pending. proj_simpl. exact Hf.
Qed.

Lemma read_byteshifted_tdos_Done tdos off n s r s' :
  ublast_read_byteshifted_tdos tdos off n s = Done r s' ->
  buf s' = buf s /\ bufidx s' = 0 /\
  (0 < bufidx s -> flushed_as (pending s) s s') /\
  (bufidx s <= 0 -> wlog s' = wlog s).
Proof.
  unfold ublast_read_byteshifted_tdos. intros H.
  apply bind_Done in H. destruct H as (u & s1 & Hf & H).
  apply flush_buffer_Done in Hf. destruct Hf as (Hb & Hi & Hfl & Hnf).
  pose proof (preserves_Done same_queue _ _ _ _ (read_loop_queue _ _ _ _ _) H)
    as (Hb' & Hi' & Hl').
  split; [congruence|]. split; [congruence|]. split; intros Hpos.
  - destruct (Hfl Hpos) as (r0 & k & more & E). exists r0, k, more. congruence.
  - rewrite Hl'. apply Hnf. exact Hpos.
Qed.

(** The header of a burst of at most 63 bytes is a byte with bit 7 set, bit
    6 set when TDO is read, and the length in its low six bits. *)
Lemma shift_header_fields rd N :
  0 <= N <= 63 ->
  to_u8 (shift_header rd N) = shift_header rd N /\
  Z.land (shift_header rd N) 63 = N /\
  Z.land (shift_header rd N) SHMODE = SHMODE /\
  Z.land (shift_header rd N) READ = (if rd then READ else 0).
Proof.
  intros HN.
  assert (C : all_below 64
    (fun n => forallb (fun rd =>
       (to_u8 (shift_header rd n) =? shift_header rd n) &&
       (Z.land (shift_header rd n) 63 =? n) &&
       (Z.land (shift_header rd n) SHMODE =? SHMODE) &&
       (Z.land (shift_header rd n) READ =? (if rd then READ else 0)))
       [true; false]) = true) by (vm_compute; reflexivity).
  pose proof (all_below_true _ _ C N ltac:(lia)) as H. cbv beta in H.
  simpl forallb in H. rewrite andb_true_r in H. apply andb_prop in H.
  destruct H as [Ht Hf].
  destruct rd; [clear Hf; rename Ht into H|clear Ht; rename Hf into H];
    zbool; auto.
Qed.

Lemma flushed_as_later P s s1 s2 :
  flushed_as P s s1 -> wlog s2 = wlog s1 -> flushed_as P s s2.
Proof. intros (r & k & more & E) H. exists r, k, more. congruence. Qed.

Lemma flushed_as_from P s s1 s2 :
  wlog s1 = wlog s -> flushed_as P s1 s2 -> flushed_as P s s2.
Proof. intros H (r & k & more & E). exists r, k, more. congruence. Qed.

Lemma pending_length s : buffer_ok s -> Z.of_nat (length (pending s)) = bufidx s.
Proof.
  intros [Hl Hi]. unfold pending. rewrite length_firstn, Hl. unfold BUF_LEN in *. lia.
Qed.

(** ** Byte-shift bursts *)

(** C1, as amended: a byte-shift burst of [ublast_queue_tdi] (one turn of its
    byte loop, entered with [i < nb8] and a buffer that is not full) queues
    exactly one header byte; its low six bits are
    [N = min(63 - bufidx, nb8 - i)], so [0 <= N <= 63], and [1 <= N] exactly
    when the buffer holds at most 62 bytes (with 63 bytes held the header
    carries [N = 0]); exactly [N] payload bytes follow the header in the same
    packet of at most 64 bytes: either they all wait in the buffer behind
    what was pending, or the first write the driver is offered since the
    burst began is what was pending, the header and the [N] payload bytes. *)
Theorem byteshift_burst_packet bits rd nb8 i tdos s tdos' s' :
  buffer_ok s -> i < nb8 ->
  byteshift_burst bits rd i (burst_len s nb8 i) tdos s = Done tdos' s' ->
  exists payload,
    burst_len s nb8 i = Z.min (BUF_LEN - 1 - bufidx s) (nb8 - i) /\
    0 <= burst_len s nb8 i <= 63 /\
    (1 <= burst_len s nb8 i <-> bufidx s <= 62) /\
    Z.land (shift_header rd (burst_len s nb8 i)) 63 = burst_len s nb8 i /\
    Z.land (shift_header rd (burst_len s nb8 i)) SHMODE = SHMODE /\
    Z.of_nat (length payload) = burst_len s nb8 i /\
    (length (pending s ++ shift_header rd (burst_len s nb8 i) :: payload) <= 64)%nat /\
    ((wlog s' = wlog s /\
      pending s' = pending s ++ shift_header rd (burst_len s nb8 i) :: payload) \/
     (bufidx s' = 0 /\
      flushed_as (pending s ++ shift_header rd (burst_len s nb8 i) :: payload) s s')) /\
    buffer_ok s'.
Proof.
  intros Hok Hi H.
  pose proof (pending_length s Hok) as Hpl.
  destruct Hok as [Hlen Hidx].
  assert (HN : burst_len s nb8 i = Z.min (BUF_LEN - 1 - bufidx s) (nb8 - i)).
  { unfold burst_len, nb_buf_remaining. f_equal. lia. }
  assert (HN63 : 0 <= burst_len s nb8 i <= 63).
  { rewrite HN. unfold BUF_LEN in *. lia. }
  set (N := burst_len s nb8 i) in *.
  destruct (shift_header_fields rd N HN63) as (Hu8 & Hlow & Hb7 & _).
  unfold byteshift_burst in H.
  apply bind_Done in H. destruct H as (u1 & s1 & H1 & H).
  apply bind_Done in H. destruct H as (u2 & s2 & H2 & H).
  apply queue_byte_Done in H1; [|split; assumption].
  rewrite Hu8 in H1. destruct H1 as (Hlen1 & H1).
  assert (Hok1 : buffer_ok s1).
  { split; [exact Hlen1|]. unfold BUF_LEN in *.
    destruct H1 as [(? & ? & ? & ?)|(? & ? & ?)]; lia. }
  apply queue_bytes_Done in H2; [|exact Hok1].
  destruct H2 as (payload & Hpay & Hle & Hlen2 & H2).
  assert (Hrest : exists r, (if rd then ublast_read_byteshifted_tdos tdos i N
                             else ret r) s2 = Done r s' \/
                            (rd = false /\ s' = s2)).
  { destruct rd.
    - apply bind_Done in H. destruct H as ([r0 t0] & s3 & Hr & H).
      inversion H; subst. exists (r0, tdos'). left. exact Hr.
    - inversion H; subst. exists (0, tdos'). right. split; reflexivity. }
  clear H. destruct Hrest as (rr & Hrest).
  exists payload.
  split; [exact HN|]. split; [exact HN63|].
  split; [rewrite HN; unfold BUF_LEN in *; lia|].
  split; [exact Hlow|]. split; [exact Hb7|]. split; [exact Hpay|].
  split.
  { rewrite length_app. simpl. rewrite HN in Hpay. unfold BUF_LEN in *. lia. }
  assert (Hq : (wlog s2 = wlog s /\
                pending s2 = pending s ++ shift_header rd N :: payload /\
                0 < bufidx s2 < BUF_LEN) \/
               (bufidx s2 = 0 /\
                flushed_as (pending s ++ shift_header rd N :: payload) s s2)).
  { destruct H1 as [(Hlt & Hw1 & Hi1 & Hp1)|(Heq & Hi1 & Hf1)];
      destruct H2 as [(Hlt2 & Hw2 & Hi2 & Hp2)|(Heq2 & Hi2 & Hf2)].
    - left. split; [congruence|].
      split; [rewrite Hp2, Hp1, <- app_assoc; reflexivity|lia].
    - right. split; [exact Hi2|].
      rewrite Hp1, <- app_assoc in Hf2. simpl in Hf2.
      eapply flushed_as_from; [exact Hw1|exact Hf2].
    - right. split; [lia|].
      assert (payload = []) as ->.
      { destruct payload; [reflexivity|]. simpl in Hpay.
        rewrite HN in Hpay. unfold BUF_LEN in *. lia. }
      eapply flushed_as_later; [exact Hf1|exact Hw2].
    - exfalso. rewrite HN in Heq2. unfold BUF_LEN in *. lia. }
  destruct Hrest as [Hrd|[-> ->]].
  - destruct rd.
    + apply read_byteshifted_tdos_Done in Hrd.
      destruct Hrd as (Hb & Hi0 & Hfl & Hnf).
      split.
      * right. split; [exact Hi0|].
        destruct Hq as [(Hw & Hp & Hpos)|(Hz & Hf)].
        -- eapply flushed_as_from; [exact Hw|].
           rewrite <- Hp. apply Hfl. lia.
        -- eapply flushed_as_later; [exact Hf|]. apply Hnf. lia.
      * split; [congruence|]. unfold BUF_LEN. lia.
    + inversion Hrd; subst s'.
      split.
      * destruct Hq as [(Hw & Hp & Hpos)|(Hz & Hf)]; [left|right]; auto.
      * split; [exact Hlen2|]. unfold BUF_LEN in *. destruct Hq; lia.
  - split.
    + destruct Hq as [(Hw & Hp & Hpos)|(Hz & Hf)]; [left|right]; auto.
    + split; [exact Hlen2|]. unfold BUF_LEN in *. destruct Hq; lia.
Qed.

(** ** The fill index of the write buffer

    Every operation of the driver that returns leaves the 64-byte buffer in
    place and its fill index in [0, 63]: a buffer that fills up is flushed
    at once. *)

Create HintDb buffer_inv.

Ltac buffer_inv :=
  repeat first
    [ keeps_step
    | assumption
    | solve [ auto with buffer_inv ] ].

Lemma buf_read_buffer size : keeps buffer_ok (ublast_buf_read size).
Proof.
  intros s a s' H E. unfold ublast_buf_read in E.
  destruct (drv s) as [d|]; [|discriminate E].
  destruct (drv_read size d) as [r d']. inversion E; subst. exact H.
Qed.

Lemma buf_write_buffer bytes size : keeps buffer_ok (ublast_buf_write bytes size).
Proof.
  intros s [r k] s' H E. apply buf_write_Done in E.
  destruct E as (Hb & Hi & _). destruct H as [Hl Hx].
  split; [rewrite Hb; exact Hl|rewrite Hi; exact Hx].
Qed.

Lemma flush_buffer_buffer : keeps buffer_ok ublast_flush_buffer.
Proof.
  intros s u s' [Hl Hx] E. apply flush_buffer_Done in E.
  destruct E as (Hb & Hi & _).
  split; [rewrite Hb; exact Hl|rewrite Hi; unfold BUF_LEN; lia].
Qed.

Lemma queue_byte_buffer b : keeps buffer_ok (ublast_queue_byte b).
Proof.
  intros s u s' H E. apply queue_byte_Done in E; [|exact H].
  destruct E as (Hl & [(? & _ & ? & _)|(_ & ? & _)]);
    split; try exact Hl; destruct H as [_ Hx]; unfold BUF_LEN in *; lia.
Qed.

Lemma queue_bytes_buffer bytes n : keeps buffer_ok (ublast_queue_bytes bytes n).
Proof.
  intros s u s' H E. apply queue_bytes_Done in E; [|exact H].
  destruct E as (payload & Hp & _ & Hl & [(? & _ & ? & _)|(_ & ? & _)]);
    split; try exact Hl; destruct H as [_ Hx]; unfold BUF_LEN in *; lia.
Qed.
#[local] Hint Resolve buf_read_buffer buf_write_buffer flush_buffer_buffer
  queue_byte_buffer queue_bytes_buffer : buffer_inv.

Lemma clock_tms_buffer v : keeps buffer_ok (ublast_clock_tms v).
Proof. unfold ublast_clock_tms. buffer_inv. Qed.

Lemma idle_clock_buffer : keeps buffer_ok ublast_idle_clock.
Proof. unfold ublast_idle_clock. buffer_inv. Qed.

Lemma clock_tdi_buffer v t : keeps buffer_ok (ublast_clock_tdi v t).
Proof. unfold ublast_clock_tdi. buffer_inv. Qed.

Lemma clock_tdi_flip_tms_buffer v t : keeps buffer_ok (ublast_clock_tdi_flip_tms v t).
Proof. unfold ublast_clock_tdi_flip_tms. buffer_inv. Qed.
#[local] Hint Resolve clock_tms_buffer idle_clock_buffer clock_tdi_buffer
  clock_tdi_flip_tms_buffer : buffer_inv.

Lemma tms_seq_loop_buffer n bits : forall i, keeps buffer_ok (tms_seq_loop n bits i).
Proof. induction n as [|n IH]; intros i; simpl; buffer_inv. Qed.
#[local] Hint Resolve tms_seq_loop_buffer : buffer_inv.

Lemma tms_seq_buffer bits n : keeps buffer_ok (ublast_tms_seq bits n).
Proof. unfold ublast_tms_seq. buffer_inv. Qed.
#[local] Hint Resolve tms_seq_buffer : buffer_inv.

Lemma path_move_loop_buffer n cmd : forall i, keeps buffer_ok (path_move_loop n cmd i).
Proof. induction n as [|n IH]; intros i; simpl; unfold tap_get_state; buffer_inv. Qed.
#[local] Hint Resolve path_move_loop_buffer : buffer_inv.

Lemma path_move_buffer cmd : keeps buffer_ok (ublast_path_move cmd).
Proof. unfold ublast_path_move. buffer_inv. Qed.

Lemma state_move_buffer state : keeps buffer_ok (ublast_state_move state).
Proof. unfold ublast_state_move, tap_get_state. buffer_inv. Qed.
#[local] Hint Resolve path_move_buffer state_move_buffer : buffer_inv.

Lemma read_loop_buffer n : forall retv nb tdos off,
  keeps buffer_ok (read_loop n retv nb tdos off).
Proof.
  induction n as [|n IH]; intros retv nb tdos off; simpl;
    destruct ((retv =? ERROR_OK) && (nb >? 0)); buffer_inv.
Qed.
#[local] Hint Resolve read_loop_buffer : buffer_inv.

Lemma read_byteshifted_tdos_buffer tdos off n :
  keeps buffer_ok (ublast_read_byteshifted_tdos tdos off n).
Proof. unfold ublast_read_byteshifted_tdos. buffer_inv. Qed.

Lemma read_bitbang_tdos_buffer tdos off n :
  keeps buffer_ok (ublast_read_bitbang_tdos tdos off n).
Proof. unfold ublast_read_bitbang_tdos. buffer_inv. Qed.
#[local] Hint Resolve read_byteshifted_tdos_buffer read_bitbang_tdos_buffer : buffer_inv.

Lemma byteshift_burst_buffer bits rd i trans tdos :
  keeps buffer_ok (byteshift_burst bits rd i trans tdos).
Proof. unfold byteshift_burst. buffer_inv. Qed.
#[local] Hint Resolve byteshift_burst_buffer : buffer_inv.

Lemma byteshift_loop_buffer n bits rd nb8 : forall i tdos,
  keeps buffer_ok (byteshift_loop n bits rd nb8 i tdos).
Proof.
  induction n as [|n IH]; intros i tdos; simpl; destruct (i <? nb8); buffer_inv.
Qed.

Lemma bitbang_loop_buffer n bits scan ts nb8 nb1 : forall i,
  keeps buffer_ok (bitbang_loop n bits scan ts nb8 nb1 i).
Proof. induction n as [|n IH]; intros i; simpl; buffer_inv. Qed.
#[local] Hint Resolve byteshift_loop_buffer bitbang_loop_buffer : buffer_inv.

Lemma queue_tdi_buffer bits n scan ts : keeps buffer_ok (ublast_queue_tdi bits n scan ts).
Proof.
  unfold ublast_queue_tdi. destruct (tdi_split n) as [nb8 nb1]. buffer_inv.
Qed.
#[local] Hint Resolve queue_tdi_buffer : buffer_inv.

Lemma hexdump_buffer buf size : keeps buffer_ok (hexdump buf size).
Proof. intros s u s' H E. apply hexdump_Done in E. subst s'. exact H. Qed.
#[local] Hint Resolve hexdump_buffer : buffer_inv.

Lemma scan_buffer cmd : keeps buffer_ok (ublast_scan cmd).
Proof.
  unfold ublast_scan. destruct (jtag_build_buffer cmd) as [scan_bits b0].
  buffer_inv.
Qed.
#[local] Hint Resolve scan_buffer : buffer_inv.

Lemma execute_command_buffer cmd retv : keeps buffer_ok (execute_command cmd retv).
Proof.
  destruct cmd; simpl;
    unfold ublast_reset, ublast_runtest, ublast_stableclocks, ublast_tms,
           ublast_msleep; buffer_inv.
Qed.
#[local] Hint Resolve execute_command_buffer : buffer_inv.

Lemma execute_loop_buffer queue : forall retv, keeps buffer_ok (execute_loop queue retv).
Proof. induction queue as [|cmd rest IH]; intros retv; simpl; buffer_inv. Qed.
#[local] Hint Resolve execute_loop_buffer : buffer_inv.

(** Once the return code is an error the loop runs no further command. *)
Lemma execute_loop_stopped queue retv :
  retv <> ERROR_OK -> execute_loop queue retv = ret retv.
Proof.
  intros H. apply Z.eqb_neq in H. destruct queue; simpl; [reflexivity|].
  rewrite H. reflexivity.
Qed.

(** The loop over a queue is the loop over its first commands followed by
    the loop over the others. *)
Lemma execute_loop_app pre post : forall retv s,
  execute_loop (pre ++ post) retv s =
  (r <- execute_loop pre retv ;; execute_loop post r) s.
Proof.
  induction pre as [|cmd pre IH]; intros retv s; [reflexivity|].
  cbn [app execute_loop].
  destruct (retv =? ERROR_OK) eqn:C; zbool.
  - rewrite bind_assoc. unfold bind at 1 2.
    destruct (execute_command cmd retv s) as [r s1|f s1]; [|reflexivity].
    apply IH.
  - unfold bind, ret. rewrite execute_loop_stopped by exact C. reflexivity.
Qed.

(** The fill index of the write buffer is never left at 64.  Entered with
    the 64-byte buffer and a fill index in [0, 63], each of
    [ublast_queue_byte], [ublast_queue_bytes], [ublast_flush_buffer] and
    every command of the queue returns with the fill index in [0, 63]
    again: a buffer that fills up is flushed at once.  So in a run of
    [ublast_execute_queue] that returns, the loop has returned after each
    command of the queue with the fill index in [0, 63], and the flush at
    the end leaves it at 0. *)
Theorem execute_queue_buffer :
  (forall b s u s',
     buffer_ok s -> ublast_queue_byte b s = Done u s' -> buffer_ok s') /\
  (forall bytes n s u s',
     buffer_ok s -> ublast_queue_bytes bytes n s = Done u s' -> buffer_ok s') /\
  (forall s u s',
     buffer_ok s -> ublast_flush_buffer s = Done u s' ->
     buffer_ok s' /\ bufidx s' = 0) /\
  (forall cmd retv s r s',
     buffer_ok s -> execute_command cmd retv s = Done r s' -> buffer_ok s') /\
  (forall queue s r s',
     buffer_ok s -> ublast_execute_queue queue s = Done r s' ->
     (forall pre post, queue = pre ++ post ->
        exists r1 s1,
          execute_loop pre ERROR_OK s = Done r1 s1 /\ buffer_ok s1) /\
     buffer_ok s' /\ bufidx s' = 0).
Proof.
  split; [intros b s u s' H E; exact (queue_byte_buffer b s u s' H E)|].
  split; [intros bytes n s u s' H E; exact (queue_bytes_buffer bytes n s u s' H E)|].
  split.
  { intros s u s' H E. split; [exact (flush_buffer_buffer s u s' H E)|].
    apply flush_buffer_Done in E. apply E. }
  split; [intros cmd retv s r s' H E; exact (execute_command_buffer cmd retv s r s' H E)|].
  intros queue s r s' H E.
  unfold ublast_execute_queue in E.
  apply bind_Done in E. destruct E as (r1 & s1 & El & E).
  apply bind_Done in E. destruct E as (u & s2 & Ef & E).
  inversion E; subst r s2; clear E.
  pose proof (execute_loop_buffer queue ERROR_OK s r1 s1 H El) as H1.
  split; [|split; [exact (flush_buffer_buffer s1 u s' H1 Ef)|]].
  - intros pre post ->. rewrite execute_loop_app in El.
    apply bind_Done in El. destruct El as (r0 & s0 & Ep & _).
    exists r0, s0. split; [exact Ep|].
    exact (execute_loop_buffer pre ERROR_OK s r0 s0 H Ep).
  - apply flush_buffer_Done in Ef. apply Ef.
Qed.

(** Every burst of the byte loop of [ublast_queue_tdi] starts from a buffer
    that is not full: the loop keeps the invariant from turn to turn. *)
Lemma byteshift_loop_turn n bits rd nb8 i tdos s :
  i < nb8 ->
  byteshift_loop (S n) bits rd nb8 i tdos s =
  (tdos' <- byteshift_burst bits rd i (burst_len s nb8 i) tdos ;;
   byteshift_loop n bits rd nb8 (i + burst_len s nb8 i) tdos') s.
Proof.
  intros H. apply Z.ltb_lt in H. cbn [byteshift_loop]. rewrite H. reflexivity.
Qed.

(** ** What [ublast_execute_queue] returns

    [ublast_flush_buffer] has no result, and of the commands only a scan
    has one: the code [jtag_read_buffer] gave it. *)

Lemma execute_command_result cmd s r s' :
  (forall b c, jtag_read_buffer b c = ERROR_OK) ->
  execute_command cmd ERROR_OK s = Done r s' -> r = ERROR_OK.
Proof.
  intros Hrb H. destruct cmd; simpl in H;
    try (apply bind_Done in H; destruct H as (u & s1 & _ & H);
         inversion H; reflexivity).
  unfold ublast_scan in H. destruct (jtag_build_buffer scan) as [scan_bits b0].
  repeat (apply bind_Done in H; destruct H as (? & ? & _ & H)).
  inversion H. apply Hrb.
Qed.

Lemma execute_loop_result queue : forall s r s',
  (forall b c, jtag_read_buffer b c = ERROR_OK) ->
  execute_loop queue ERROR_OK s = Done r s' -> r = ERROR_OK.
Proof.
  induction queue as [|cmd rest IH]; intros s r s' Hrb H; simpl in H.
  - inversion H. reflexivity.
  - change (ERROR_OK =? ERROR_OK) with true in H. cbv iota in H.
    apply bind_Done in H. destruct H as (r1 & s1 & H1 & H).
    apply execute_command_result in H1; [|exact Hrb]. subst r1.
    eapply IH; eassumption.
Qed.

(** Whatever the low-level driver answers to the writes, the queue reports
    success as soon as the host's [jtag_read_buffer] does. *)
Lemma execute_queue_result queue s r s' :
  (forall b c, jtag_read_buffer b c = ERROR_OK) ->
  ublast_execute_queue queue s = Done r s' -> r = ERROR_OK.
Proof.
  intros Hrb H. unfold ublast_execute_queue in H.
  apply bind_Done in H. destruct H as (r1 & s1 & H1 & H).
  apply bind_Done in H. destruct H as (u & s2 & _ & H).
  inversion H; subst. eapply execute_loop_result; eassumption.
Qed.

(** ** The flush of the probe's FIFO in [ublast_init] *)

(** The loop steps [i] by [BUF_LEN] against the bound [128 / BUF_LEN = 2]:
    it writes one packet of zeros, for every driver. *)
Lemma init_flush_loop_once :
  init_flush_loop (Z.to_nat (Z.quot 128 BUF_LEN)) 0 =
  (ublast_buf_write byte0 BUF_LEN ;; ret tt).
Proof. reflexivity. Qed.

(** ** What a flush hands to the low-level driver *)

Lemma flush_loop_stop n r nb s :
  r <> ERROR_OK \/ nb <= 0 -> flush_loop n r nb s = Done tt s.
Proof.
  intros H.
  assert (C : (r =? ERROR_OK) && (nb >? 0) = false).
  { destruct H as [H|H].
    - apply Z.eqb_neq in H. rewrite H. reflexivity.
    - apply andb_false_iff. right. rewrite Z.gtb_ltb. apply Z.ltb_ge. exact H. }
  destruct n; simpl; rewrite C; reflexivity.
Qed.

Lemma buf_write_eq bytes size s d r k d' :
  drv s = Some d ->
  drv_write (firstn (Z.to_nat size) bytes) d = ((r, k), d') ->
  ublast_buf_write bytes size s =
  Done (r, k) (log_write (mk_write_call (firstn (Z.to_nat size) bytes) r k)
                         (set_drv (Some d') s)).
Proof. intros Hd Hw. unfold ublast_buf_write. rewrite Hd, Hw. reflexivity. Qed.

(** A flush whose first write fails, or is taken whole, makes that one write
    and empties the buffer: the return code of the write goes nowhere, and
    after a failure the bytes are gone. *)
Theorem flush_buffer_one_write s d r k d' :
  fuel <> O ->
  drv s = Some d ->
  0 < bufidx s ->
  drv_write (pending s) d = ((r, k), d') ->
  r <> ERROR_OK \/ to_int (bufidx s - to_u32 k) <= 0 ->
  ublast_flush_buffer s =
  Done tt (set_bufidx 0 (log_write (mk_write_call (pending s) r k)
                                   (set_drv (Some d') s))).
Proof.
  intros Hf Hd Hpos Hw Hstop. unfold ublast_flush_buffer.
  destruct fuel as [|n]; [contradiction|].
  unfold bind at 1. unfold get at 1.
  assert (C : (ERROR_OK =? ERROR_OK) && (bufidx s >? 0) = true).
  { rewrite Z.gtb_ltb. apply andb_true_intro. split; [reflexivity|].
    apply Z.ltb_lt. exact Hpos. }
  cbn [flush_loop]. rewrite C.
  unfold bind at 1. unfold bind at 1. unfold get at 1.
  unfold bind at 1.
  rewrite (buf_write_eq _ _ _ _ _ _ _ Hd Hw).
  rewrite flush_loop_stop by exact Hstop.
  reflexivity.
Qed.

(** A flush whose first write is taken in part offers the head of the
    buffer again, as many bytes as were left over, not the bytes that were
    left over. *)
Theorem flush_buffer_short_write s d k d1 u s' :
  drv s = Some d ->
  bufidx s <= BUF_LEN ->
  0 < k < bufidx s ->
  drv_write (pending s) d = ((ERROR_OK, k), d1) ->
  ublast_flush_buffer s = Done u s' ->
  exists r2 k2 more,
    wlog s' = wlog s ++
      mk_write_call (pending s) ERROR_OK k ::
      mk_write_call (firstn (Z.to_nat (bufidx s - k)) (buf s)) r2 k2 :: more.
Proof.
  intros Hd Hb Hk Hw H. unfold ublast_flush_buffer in H.
  apply bind_Done in H. destruct H as (s0 & s0' & Hg & H).
  inversion Hg; subst s0 s0'; clear Hg.
  apply bind_Done in H. destruct H as (u1 & s1 & Hl & H).
  inversion H; subst s' u; clear H. cbn [wlog set_bufidx].
  destruct fuel as [|n]; cbn [flush_loop] in Hl.
  { replace ((ERROR_OK =? ERROR_OK) && (bufidx s >? 0)) with true in Hl;
      [discriminate Hl|].
    symmetry. rewrite Z.gtb_ltb. apply andb_true_intro. split; [reflexivity|].
    apply Z.ltb_lt. lia. }
  replace ((ERROR_OK =? ERROR_OK) && (bufidx s >? 0)) with true in Hl.
  2:{ symmetry. rewrite Z.gtb_ltb. apply andb_true_intro. split; [reflexivity|].
      apply Z.ltb_lt. lia. }
  apply bind_Done in Hl. destruct Hl as (s0 & s0' & Hg & Hl).
  inversion Hg; subst s0 s0'; clear Hg.
  apply bind_Done in Hl. destruct Hl as ([r1 k1] & s2 & Hw1 & Hl).
  rewrite (buf_write_eq _ _ _ _ _ _ _ Hd Hw) in Hw1.
  inversion Hw1; subst r1 k1 s2; clear Hw1.
  assert (Hn : to_int (bufidx s - to_u32 k) = bufidx s - k).
  { unfold BUF_LEN in Hb. rewrite to_u32_small by lia. apply to_int_small. lia. }
  rewrite Hn in Hl.
  apply flush_loop_Done in Hl. destruct Hl as (_ & _ & _ & Hc).
  replace ((ERROR_OK =? ERROR_OK) && (bufidx s - k >? 0)) with true in Hc.
  2:{ symmetry. rewrite Z.gtb_ltb. apply andb_true_intro. split; [reflexivity|].
      apply Z.ltb_lt. lia. }
  destruct Hc as (r2 & k2 & more & Hc). exists r2, k2, more.
  rewrite Hc. cbn [wlog log_write set_drv buf]. rewrite <- app_assoc. reflexivity.
Qed.

(** ** The bytes of a session, in order

    With a low-level driver that takes every write whole, the bytes handed
    to the driver so far followed by the bytes still in the buffer are the
    bytes that were queued, in the order they were queued. *)

Definition sent (s : ublast_info) : list Z := concat (map w_bytes (wlog s)).

Definition stream (s : ublast_info) : list Z := sent s ++ pending s.

(** Every write returns [ERROR_OK] and reports all the bytes it was offered. *)
Definition accepting : Prop :=
  forall bytes d, fst (drv_write bytes d) = (ERROR_OK, Z.of_nat (length bytes)).

(** The output lines as the driver has them, and the recorded TAP state. *)
Definition lines (s : ublast_info) : Z * Z * Z * Z * tap_state :=
  (tms s, tdi s, pin6 s, pin8 s, tap s).

Definition same_lines (s s' : ublast_info) : Prop := lines s' = lines s.

Lemma same_lines_refl s : same_lines s s.
Proof. reflexivity. Qed.

Lemma same_lines_trans s1 s2 s3 : same_lines s1 s2 -> same_lines s2 s3 -> same_lines s1 s3.
Proof. unfold same_lines. congruence. Qed.

Create HintDb lines_frame.

Ltac lines_frame :=
  repeat first
    [ frame_step same_lines_refl same_lines_trans
    | solve [ auto with lines_frame ] ].

Lemma buf_read_lines size : preserves same_lines (ublast_buf_read size).
Proof.
  intros s. unfold ublast_buf_read. destruct (drv s) as [d|]; [|reflexivity].
  destruct (drv_read size d) as [r d']. reflexivity.
Qed.

Lemma buf_write_lines bytes size : preserves same_lines (ublast_buf_write bytes size).
Proof.
  intros s. unfold ublast_buf_write. destruct (drv s) as [d|]; [|reflexivity].
  destruct (drv_write _ d) as [[r n] d']. reflexivity.
Qed.
#[local] Hint Resolve buf_read_lines buf_write_lines : lines_frame.

Lemma flush_loop_lines n : forall retv nb, preserves same_lines (flush_loop n retv nb).
Proof.
  induction n as [|n IH]; intros retv nb; simpl;
    destruct ((retv =? ERROR_OK) && (nb >? 0)); lines_frame.
Qed.
#[local] Hint Resolve flush_loop_lines : lines_frame.

Lemma flush_buffer_lines : preserves same_lines ublast_flush_buffer.
Proof. unfold ublast_flush_buffer. lines_frame. Qed.
#[local] Hint Resolve flush_buffer_lines : lines_frame.

Lemma queue_byte_lines b : preserves same_lines (ublast_queue_byte b).
Proof. unfold ublast_queue_byte. lines_frame. Qed.

Lemma queue_bytes_lines bytes n : preserves same_lines (ublast_queue_bytes bytes n).
Proof. unfold ublast_queue_bytes. lines_frame. Qed.

Lemma read_loop_lines n : forall retv nb tdos off,
  preserves same_lines (read_loop n retv nb tdos off).
Proof.
  induction n as [|n IH]; intros retv nb tdos off; simpl;
    destruct ((retv =? ERROR_OK) && (nb >? 0)); lines_frame.
Qed.
#[local] Hint Resolve queue_byte_lines queue_bytes_lines read_loop_lines : lines_frame.

Lemma read_byteshifted_tdos_lines tdos off n :
  preserves same_lines (ublast_read_byteshifted_tdos tdos off n).
Proof. unfold ublast_read_byteshifted_tdos. lines_frame. Qed.

Lemma read_bitbang_tdos_lines tdos off n :
  preserves same_lines (ublast_read_bitbang_tdos tdos off n).
Proof. unfold ublast_read_bitbang_tdos. lines_frame. Qed.
#[local] Hint Resolve read_byteshifted_tdos_lines read_bitbang_tdos_lines : lines_frame.

Section Stream.

Hypothesis driver_accepts : accepting.

Lemma sent_log_write c s : sent (log_write c s) = sent s ++ w_bytes c.
Proof.
  unfold sent. cbn [wlog log_write]. rewrite map_app, concat_app. simpl.
  rewrite app_nil_r. reflexivity.
Qed.

(** A flush moves what is pending to the driver in one write. *)
Lemma flush_buffer_stream s u s' :
  (Z.to_nat (bufidx s) <= length (buf s))%nat -> 0 <= bufidx s <= BUF_LEN ->
  ublast_flush_buffer s = Done u s' ->
  sent s' = stream s /\ bufidx s' = 0 /\ buf s' = buf s.
Proof.
  intros Hlen Hidx H.
  pose proof (flush_buffer_Done _ _ _ H) as (Hb & Hi & _ & Hz).
  split; [|split; assumption].
  destruct (Z_le_gt_dec (bufidx s) 0) as [Z0|Pos].
  { unfold stream, sent, pending. rewrite (Hz Z0).
    replace (Z.to_nat (bufidx s)) with O by lia. simpl. rewrite app_nil_r. reflexivity. }
  unfold ublast_flush_buffer in H.
  apply bind_Done in H. destruct H as (s0 & s0' & Hg & H).
  inversion Hg; subst s0 s0'; clear Hg.
  apply bind_Done in H. destruct H as (u1 & s1 & Hl & H).
  inversion H; subst s' u; clear H.
  assert (C : (ERROR_OK =? ERROR_OK) && (bufidx s >? 0) = true).
  { rewrite Z.gtb_ltb. apply andb_true_intro. split; [reflexivity|].
    apply Z.ltb_lt. lia. }
  destruct fuel as [|n]; cbn [flush_loop] in Hl; rewrite C in Hl; [discriminate Hl|].
  apply bind_Done in Hl. destruct Hl as (s0 & s0' & Hg & Hl).
  inversion Hg; subst s0 s0'; clear Hg.
  apply bind_Done in Hl. destruct Hl as ([r k] & s2 & Hw & Hl).
  unfold ublast_buf_write in Hw. destruct (drv s) as [d|]; [|discriminate Hw].
  pose proof (driver_accepts (firstn (Z.to_nat (bufidx s)) (buf s)) d) as Ha.
  destruct (drv_write _ d) as [[r0 k0] d']. simpl in Ha.
  inversion Ha; subst r0 k0; clear Ha.
  inversion Hw; subst r k s2; clear Hw.
  rewrite length_firstn, Nat.min_l in Hl by exact Hlen.
  rewrite Z2Nat.id in Hl by lia.
  assert (E0 : to_int (bufidx s - to_u32 (bufidx s)) = 0).
  { unfold BUF_LEN in Hidx. rewrite to_u32_small by lia.
    rewrite Z.sub_diag. reflexivity. }
  rewrite E0, flush_loop_stop in Hl by (right; lia).
  inversion Hl; subst s1; clear Hl.
  unfold sent at 1. cbn [wlog log_write set_drv set_bufidx].
  rewrite map_app, concat_app. simpl. rewrite app_nil_r. reflexivity.
Qed.

Lemma stream_empty s : bufidx s = 0 -> stream s = sent s.
Proof.
  intros H. unfold stream, pending. rewrite H. simpl. apply app_nil_r.
Qed.

(** A byte that is queued goes to the end of the stream. *)
Lemma queue_byte_stream b s u s' :
  buffer_ok s -> ublast_queue_byte b s = Done u s' ->
  stream s' = stream s ++ [to_u8 b] /\ buffer_ok s' /\ lines s' = lines s.
Proof.
  intros Hok H.
  pose proof (preserves_Done _ _ _ _ _ (queue_byte_lines b) H) as Hln.
  pose proof (queue_byte_buffer b _ _ _ Hok H) as Hok'.
  split; [|split; assumption].
  destruct Hok as [Hlen Hidx]. unfold ublast_queue_byte in H.
  apply bind_Done in H. destruct H as (s0 & s0' & Hg & H).
  inversion Hg; subst s0 s0'; clear Hg.
  replace (nb_buf_remaining s <? 1) with false in H
    by (symmetry; apply Z.ltb_ge; unfold nb_buf_remaining; lia).
  apply bind_Done in H. destruct H as (u0 & s0 & Hr & H).
  inversion Hr; subst u0 s0; clear Hr.
  apply bind_Done in H. destruct H as (s0 & s0' & Hg & H).
  inversion Hg; subst s0 s0'; clear Hg.
  destruct (aset (buf s) (bufidx s) (to_u8 b)) as [b'|] eqn:Ea; [|discriminate H].
  apply aset_Some in Ea. destruct Ea as (_ & Hl' & Hf).
  apply bind_Done in H. destruct H as (u1 & s1 & Hm & H).
  inversion Hm; subst u1 s1; clear Hm.
  apply bind_Done in H. destruct H as (s0 & s0' & Hg & H).
  inversion Hg; subst s0 s0'; clear Hg.
  set (s2 := set_bufidx (bufidx s + 1) (set_buf b' s)) in *.
  assert (S2 : stream s2 = stream s ++ [to_u8 b]).
  { unfold stream, pending, sent. subst s2. proj_simpl.
    rewrite Hf, app_assoc. reflexivity. }
  destruct (nb_buf_remaining s2 =? 0) eqn:C.
  - apply flush_buffer_stream in H.
    + destruct H as (Hs & Hi & _). rewrite stream_empty by exact Hi. congruence.
    + subst s2. proj_simpl. rewrite Hl', Hlen. unfold BUF_LEN in *. lia.
    + subst s2. proj_simpl. unfold BUF_LEN in *. lia.
  - inversion H; subst s'. exact S2.
Qed.

(** ** Operations that append to the stream

    [appends m f g]: when [m] returns, the stream has grown by [f s], the
    buffer is in order, and the lines are the lines of [g s]. *)
Definition appends {A} (m : M ublast_info A) (f : ublast_info -> list Z)
           (g : ublast_info -> ublast_info) : Prop :=
  forall s a s', buffer_ok s -> m s = Done a s' ->
    stream s' = stream s ++ f s /\ buffer_ok s' /\ lines s' = lines (g s).

(** [f] looks at the lines only; [g] changes the lines by a rule that looks
    at the lines only. *)
Definition by_lines {B} (f : ublast_info -> B) : Prop :=
  forall s1 s2, lines s1 = lines s2 -> f s1 = f s2.

Definition on_lines (g : ublast_info -> ublast_info) : Prop :=
  forall s1 s2, lines s1 = lines s2 -> lines (g s1) = lines (g s2).

Lemma appends_ret {A} (a : A) : appends (ret a) (fun _ => []) (fun s => s).
Proof. intros s a' s' Hok H. inversion H; subst. rewrite app_nil_r. auto. Qed.

Lemma appends_stuck {A} f0 f g : appends (@stuck ublast_info A f0) f g.
Proof. intros s a s' _ H. discriminate H. Qed.

Lemma appends_modify (h : ublast_info -> ublast_info) :
  (forall s, buf (h s) = buf s /\ bufidx (h s) = bufidx s /\ wlog (h s) = wlog s) ->
  appends (modify h) (fun _ => []) h.
Proof.
  intros Hq s a s' Hok H. inversion H; subst. destruct (Hq s) as (Hb & Hi & Hw).
  rewrite app_nil_r. unfold stream, sent, pending, buffer_ok in *.
  rewrite Hb, Hi, Hw. auto.
Qed.

Lemma appends_bind {A B} (m : M ublast_info A) (k : A -> M ublast_info B) f1 g1 f2 g2 :
  appends m f1 g1 -> by_lines f2 -> on_lines g2 ->
  (forall a, appends (k a) f2 g2) ->
  appends (bind m k) (fun s => f1 s ++ f2 (g1 s)) (fun s => g2 (g1 s)).
Proof.
  intros Hm Hf2 Hg2 Hk s b s' Hok H.
  apply bind_Done in H. destruct H as (a & s1 & H1 & H2).
  destruct (Hm _ _ _ Hok H1) as (S1 & Hok1 & L1).
  destruct (Hk a _ _ _ Hok1 H2) as (S2 & Hok2 & L2).
  split; [|split; [exact Hok2|]].
  - rewrite S2, S1, <- app_assoc, (Hf2 _ _ L1). reflexivity.
  - rewrite L2. apply Hg2. exact L1.
Qed.

Lemma appends_gets_bind {A B} (h : ublast_info -> A) (k : A -> M ublast_info B) f g :
  (forall v, appends (k v) (f v) (g v)) ->
  appends (bind (gets h) k) (fun s => f (h s) s) (fun s => g (h s) s).
Proof.
  intros Hk s b s' Hok H.
  apply bind_Done in H. destruct H as (a & s1 & H1 & H2).
  inversion H1; subst a s1; clear H1.
  exact (Hk _ _ _ _ Hok H2).
Qed.

Lemma appends_ext {A} (m : M ublast_info A) f g f' g' :
  appends m f g -> (forall s, f s = f' s) -> (forall s, lines (g s) = lines (g' s)) ->
  appends m f' g'.
Proof.
  intros Hm Ef Eg s a s' Hok H. destruct (Hm _ _ _ Hok H) as (S1 & Hok1 & L1).
  rewrite <- Ef, <- Eg. auto.
Qed.

Lemma appends_queue_byte b :
  appends (ublast_queue_byte b) (fun _ => [to_u8 b]) (fun s => s).
Proof. intros s a s' Hok H. eapply queue_byte_stream; eassumption. Qed.

(** Goals of the form [by_lines _] and [on_lines _] over the setters. *)
Ltac lines_tac :=
  let s1 := fresh "s1" in let s2 := fresh "s2" in let H := fresh "H" in
  let E1 := fresh "E" in let E2 := fresh "E" in let E3 := fresh "E" in
  let E4 := fresh "E" in let E5 := fresh "E" in
  intros s1 s2 H; unfold lines in *; injection H as E1 E2 E3 E4 E5;
  cbn [tms tdi pin6 pin8 tap set_tms set_tdi tap_set_state];
  unfold ublast_build_out; cbn [tms tdi pin6 pin8 tap set_tms set_tdi tap_set_state];
  rewrite ?E1, ?E2, ?E3, ?E4, ?E5; reflexivity.

(** The byte [ublast_build_out] gives with TMS and TDI at the given values. *)
Definition pins_byte (type : scan_type) (tms_v tdi_v : Z) (s : ublast_info) : Z :=
  ublast_build_out type (set_tdi tdi_v (set_tms tms_v s)).

Lemma build_out_u8 type s : to_u8 (ublast_build_out type s) = ublast_build_out type s.
Proof.
  unfold ublast_build_out.
  destruct (tms s =? 0), (pin6 s =? 0), (pin8 s =? 0), (tdi s =? 0), type; reflexivity.
Qed.

Lemma build_out_tck_u8 type s :
  to_u8 (Z.lor (ublast_build_out type s) TCK) = Z.lor (ublast_build_out type s) TCK.
Proof.
  unfold ublast_build_out.
  destruct (tms s =? 0), (pin6 s =? 0), (pin8 s =? 0), (tdi s =? 0), type; reflexivity.
Qed.

(** [ublast_clock_tms]: TMS at its new value and TDI at 0, with TCK low and
    then high. *)
Definition clock_tms_bytes (v : Z) (s : ublast_info) : list Z :=
  [pins_byte SCAN_OUT (notnot v) 0 s; Z.lor (pins_byte SCAN_OUT (notnot v) 0 s) TCK].

Definition after_clock_tms (v : Z) (s : ublast_info) : ublast_info :=
  set_tdi 0 (set_tms (notnot v) s).

Lemma appends_clock_tms v :
  appends (ublast_clock_tms v) (clock_tms_bytes v) (after_clock_tms v).
Proof.
  unfold ublast_clock_tms.
  eapply appends_ext.
  - eapply (appends_bind _ _ _ _
              (fun s => [to_u8 (ublast_build_out SCAN_OUT (set_tdi 0 s));
                         to_u8 (Z.lor (ublast_build_out SCAN_OUT (set_tdi 0 s)) TCK)])
              (set_tdi 0)).
    + apply appends_modify. intros s. auto.
    + lines_tac.
    + lines_tac.
    + intros _.
      eapply appends_ext.
      * eapply (appends_bind _ _ _ _
                  (fun s => [to_u8 (ublast_build_out SCAN_OUT s);
                             to_u8 (Z.lor (ublast_build_out SCAN_OUT s) TCK)])
                  (fun s => s)).
        -- apply appends_modify. intros s. auto.
        -- lines_tac.
        -- lines_tac.
        -- intros _.
           apply (appends_gets_bind (ublast_build_out SCAN_OUT) _
                    (fun out _ => [to_u8 out; to_u8 (Z.lor out TCK)]) (fun _ s => s)).
           intros out.
           eapply appends_ext.
           ++ eapply (appends_bind _ _ _ _ (fun _ => [to_u8 (Z.lor out TCK)]) (fun s => s)).
              ** apply appends_queue_byte.
              ** intros s1 s2 _. reflexivity.
              ** intros s1 s2 E. exact E.
              ** intros _. apply appends_queue_byte.
           ++ intros s. reflexivity.
           ++ intros s. reflexivity.
      * intros s. reflexivity.
      * intros s. reflexivity.
  - intros s. simpl. unfold clock_tms_bytes, pins_byte.
    rewrite build_out_u8, build_out_tck_u8. reflexivity.
  - intros s. reflexivity.
Qed.

Lemma appends_idle_clock :
  appends ublast_idle_clock (fun s => [ublast_build_out SCAN_OUT s]) (fun s => s).
Proof.
  unfold ublast_idle_clock.
  eapply appends_ext.
  - apply (appends_gets_bind (ublast_build_out SCAN_OUT) _
             (fun out _ => [to_u8 out]) (fun _ s => s)).
    intros out. apply appends_queue_byte.
  - intros s. simpl. rewrite build_out_u8. reflexivity.
  - intros s. reflexivity.
Qed.

Lemma pins_byte_pins type a b s1 s2 :
  pin6 s1 = pin6 s2 -> pin8 s1 = pin8 s2 -> pins_byte type a b s1 = pins_byte type a b s2.
Proof.
  intros H6 H8. unfold pins_byte, ublast_build_out.
  cbn [tms tdi pin6 pin8 set_tms set_tdi]. rewrite H6, H8. reflexivity.
Qed.

Lemma build_out_pins_byte type s : ublast_build_out type s = pins_byte type (tms s) (tdi s) s.
Proof. reflexivity. Qed.

(** The bytes that clock the TMS values [bs], one after the other, and then
    put TCK low with the lines as they are. *)
Definition tms_wave (bs : list Z) (s : ublast_info) : list Z :=
  flat_map (fun b => clock_tms_bytes b s) bs ++
  [pins_byte SCAN_OUT (last (map notnot bs) (tms s))
             (match bs with [] => tdi s | _ => 0 end) s].

Lemma last_cons_default {A} (x : A) l d : last (x :: l) d = last l x.
Proof.
  revert x d. induction l as [|y l IH]; intros x d; [reflexivity|].
  change (last (x :: y :: l) d) with (last (y :: l) d). rewrite IH.
  symmetry. apply IH.
Qed.

Lemma tms_seq_loop_stream bits n : forall i s u s',
  buffer_ok s -> tms_seq_loop n bits i s = Done u s' ->
  exists bs,
    length bs = n /\
    (forall k, (k < n)%nat -> tms_bit bits (i + Z.of_nat k) = Some (nth k bs 0)) /\
    stream s' = stream s ++ flat_map (fun b => clock_tms_bytes b s) bs /\
    buffer_ok s' /\
    pin6 s' = pin6 s /\ pin8 s' = pin8 s /\ tap s' = tap s /\
    tms s' = last (map notnot bs) (tms s) /\
    tdi s' = match bs with [] => tdi s | _ => 0 end.
Proof.
  induction n as [|n IH]; intros i s u s' Hok H; simpl in H.
  - inversion H; subst. exists []. simpl. rewrite app_nil_r.
    split; [reflexivity|]. split; [intros k Hk; lia|].
    split; [reflexivity|]. split; [exact Hok|]. repeat split; reflexivity.
  - destruct (tms_bit bits i) as [b|] eqn:Eb; [|discriminate H].
    apply bind_Done in H. destruct H as (u1 & s1 & H1 & H).
    destruct (appends_clock_tms b _ _ _ Hok H1) as (S1 & Hok1 & L1).
    destruct (IH _ _ _ _ Hok1 H) as (bs & Hl & Hb & S2 & Hok2 & P6 & P8 & Tp & Tm & Td).
    unfold lines, after_clock_tms in L1. cbn [tms tdi pin6 pin8 tap set_tms set_tdi] in L1.
    injection L1 as E1 E2 E3 E4 E5.
    exists (b :: bs). split; [simpl; congruence|]. split; [|split; [|split; [exact Hok2|]]].
    + intros [|k] Hk; simpl.
      * rewrite Z.add_0_r. exact Eb.
      * rewrite <- (Hb k) by lia. f_equal. lia.
    + rewrite S2, S1, <- app_assoc. f_equal. cbn [flat_map]. f_equal.
      apply flat_map_ext. intros b'. unfold clock_tms_bytes.
      rewrite (pins_byte_pins SCAN_OUT _ _ s1 s) by assumption. reflexivity.
    + split; [congruence|]. split; [congruence|]. split; [congruence|].
      split.
      * rewrite Tm, E1. cbn [map]. rewrite last_cons_default. reflexivity.
      * rewrite Td, E2. destruct bs; reflexivity.
Qed.

(** The stream after [ublast_tms_seq]. *)
Lemma tms_seq_wave bits nb_bits s u s' :
  buffer_ok s -> ublast_tms_seq bits nb_bits s = Done u s' ->
  exists bs,
    length bs = Z.to_nat nb_bits /\
    (forall k, (k < Z.to_nat nb_bits)%nat -> tms_bit bits (Z.of_nat k) = Some (nth k bs 0)) /\
    stream s' = stream s ++ tms_wave bs s /\
    buffer_ok s' /\
    pin6 s' = pin6 s /\ pin8 s' = pin8 s /\ tap s' = tap s /\
    tms s' = last (map notnot bs) (tms s) /\
    tdi s' = match bs with [] => tdi s | _ => 0 end.
Proof.
  intros Hok H. unfold ublast_tms_seq in H.
  apply bind_Done in H. destruct H as (u1 & s1 & H1 & H).
  destruct (tms_seq_loop_stream _ _ _ _ _ _ Hok H1)
    as (bs & Hl & Hb & S1 & Hok1 & P6 & P8 & Tp & Tm & Td).
  destruct (appends_idle_clock _ _ _ Hok1 H) as (S2 & Hok2 & L2).
  unfold lines in L2. injection L2 as E1 E2 E3 E4 E5.
  exists bs. split; [exact Hl|]. split; [exact Hb|].
  split; [|split; [exact Hok2|repeat split; congruence]].
  rewrite S2, S1, <- app_assoc. unfold tms_wave. f_equal. f_equal.
  rewrite build_out_pins_byte, Tm, Td. f_equal. apply pins_byte_pins; assumption.
Qed.

End Stream.

(** ** TMS sequences on the wire *)

(** With a driver that takes every write whole, [ublast_tms_seq] adds to the
    stream, for each of the [nb_bits] TMS bits in turn, one byte with TCK
    low and one with TCK high, both with TMS at the bit and TDI at 0, and
    after them one byte that puts TCK low; nothing else is added and nothing
    that was queued before is lost or moved. *)
Theorem tms_seq_stream bits nb_bits s u s' :
  accepting -> buffer_ok s ->
  ublast_tms_seq bits nb_bits s = Done u s' ->
  exists bs,
    length bs = Z.to_nat nb_bits /\
    (forall k, (k < Z.to_nat nb_bits)%nat ->
       tms_bit bits (Z.of_nat k) = Some (nth k bs 0)) /\
    stream s' = stream s ++ tms_wave bs s /\
    tap s' = tap s.
Proof.
  intros Ha Hok H.
  destruct (tms_seq_wave Ha _ _ _ _ _ Hok H)
    as (bs & Hl & Hb & S1 & _ & _ & _ & Tp & _).
  exists bs. auto.
Qed.

Lemma tms_bit_single x k :
  0 <= k -> tms_bit [x] k = if k <? 8 then Some (Z.land (Z.shiftr x k) 1) else None.
Proof.
  intros Hk. unfold tms_bit, aget. cbn [length].
  destruct (k <? 8) eqn:C; zbool.
  - rewrite Z.quot_small, Z.rem_small by lia. reflexivity.
  - assert (Hq : 1 <= Z.quot k 8).
    { apply Z.quot_le_lower_bound; lia. }
    replace ((0 <=? Z.quot k 8) && (Z.quot k 8 <? Z.of_nat 1)) with false; [reflexivity|].
    symmetry. apply andb_false_iff. right. apply Z.ltb_ge. lia.
Qed.

(** [ublast_state_move] to the state the driver is in adds nothing; to
    another state it adds the wave of the first [tap_get_tms_path_len] bits
    of the path's byte, low bit first, and records the new state. *)
Theorem state_move_stream state s u s' :
  accepting -> buffer_ok s ->
  ublast_state_move state s = Done u s' ->
  tap s' = state /\
  if tap_eqb (tap s) state then stream s' = stream s
  else
    exists bs,
      length bs = Z.to_nat (tap_get_tms_path_len (tap s) state) /\
      (forall k, (k < length bs)%nat ->
         nth k bs 0 =
         Z.land (Z.shiftr (to_u8 (tap_get_tms_path (tap s) state)) (Z.of_nat k)) 1) /\
      stream s' = stream s ++ tms_wave bs s.
Proof.
  intros Ha Hok H. split; [eapply state_move_Done; exact H|].
  unfold ublast_state_move, tap_get_state in H.
  apply bind_Done in H. destruct H as (cur & s0 & Hg & H).
  inversion Hg; subst cur s0; clear Hg.
  destruct (tap_eqb (tap s) state).
  - inversion H; subst. reflexivity.
  - apply bind_Done in H. destruct H as (u1 & s1 & H1 & H).
    inversion H; subst s' u; clear H.
    destruct (tms_seq_wave Ha _ _ _ _ _ Hok H1)
      as (bs & Hl & Hb & S1 & _).
    exists bs. split; [exact Hl|]. split.
    + intros k Hk. rewrite Hl in Hk. specialize (Hb k Hk).
      rewrite tms_bit_single in Hb by lia.
      destruct (Z.of_nat k <? 8); [|discriminate Hb].
      inversion Hb. reflexivity.
    + unfold stream, sent, pending in *. cbn [wlog buf bufidx tap_set_state]. exact S1.
Qed.

(** The TMS values [ublast_path_move] clocks for one step of a path: 0 when
    the step is the TMS=0 successor of the state, 1 when it is the TMS=1
    successor, nothing when it is neither. *)
Definition step_bits (cur target : tap_state) : list Z :=
  (if tap_eqb (tap_state_transition cur false) target then [0] else []) ++
  (if tap_eqb (tap_state_transition cur true) target then [1] else []).

Fixpoint path_bits (cur : tap_state) (path : list tap_state) : list Z :=
  match path with
  | [] => []
  | target :: rest => step_bits cur target ++ path_bits target rest
  end.

Lemma skipn_cons_nth {A} (l : list A) k x :
  nth_error l k = Some x -> skipn k l = x :: skipn (S k) l.
Proof.
  revert k. induction l as [|h t IH]; intros [|k] H; simpl in *; try discriminate H.
  - inversion H; subst. reflexivity.
  - apply IH. exact H.
Qed.

Lemma last_app_default {A} (l1 l2 : list A) d :
  last (l1 ++ l2) d = last l2 (last l1 d).
Proof.
  revert d. induction l1 as [|x l1 IH]; intros d; [reflexivity|].
  rewrite <- app_comm_cons, !last_cons_default. apply IH.
Qed.

Lemma path_move_loop_stream (Ha : accepting) cmd n : forall i s u s',
  0 <= i -> buffer_ok s ->
  path_move_loop n cmd i s = Done u s' ->
  let bs := path_bits (tap s) (firstn n (skipn (Z.to_nat i) (path cmd))) in
  stream s' = stream s ++ flat_map (fun b => clock_tms_bytes b s) bs /\
  buffer_ok s' /\ pin6 s' = pin6 s /\ pin8 s' = pin8 s /\
  tms s' = last (map notnot bs) (tms s) /\
  tdi s' = match bs with [] => tdi s | _ => 0 end.
Proof.
  induction n as [|n IH]; intros i s u s' Hi Hok H; simpl in H.
  - inversion H; subst. simpl. rewrite app_nil_r.
    split; [reflexivity|]. split; [exact Hok|]. repeat split; reflexivity.
  - destruct (aget (path cmd) i) as [target|] eqn:Eg; [|discriminate H].
    unfold aget in Eg.
    destruct ((0 <=? i) && (i <? Z.of_nat (length (path cmd)))) eqn:C; [|discriminate Eg].
    rewrite (skipn_cons_nth _ _ _ Eg). cbn [firstn path_bits].
    replace (S (Z.to_nat i)) with (Z.to_nat (i + 1)) by lia.
    apply bind_Done in H. destruct H as (cur & s0 & Hg & H).
    inversion Hg; subst cur s0; clear Hg.
    apply bind_Done in H. destruct H as (u1 & s1 & H1 & H).
    apply bind_Done in H. destruct H as (cur & s0 & Hg & H).
    inversion Hg; subst cur s0; clear Hg.
    apply bind_Done in H. destruct H as (u2 & s2 & H2 & H).
    apply bind_Done in H. destruct H as (u3 & s3 & Hm & H).
    inversion Hm; subst u3 s3; clear Hm.
    assert (A1 : stream s1 = stream s ++
                   flat_map (fun b => clock_tms_bytes b s)
                     (if tap_eqb (tap_state_transition (tap s) false) target
                      then [0] else []) /\
                 buffer_ok s1 /\ pin6 s1 = pin6 s /\ pin8 s1 = pin8 s /\ tap s1 = tap s /\
                 tms s1 = last (map notnot (if tap_eqb (tap_state_transition (tap s) false)
                                                       target then [0] else [])) (tms s) /\
                 tdi s1 = (if tap_eqb (tap_state_transition (tap s) false) target
                           then 0 else tdi s)).
    { destruct (tap_eqb (tap_state_transition (tap s) false) target).
      - destruct (appends_clock_tms Ha 0 _ _ _ Hok H1) as (S1 & Hok1 & L1).
        unfold lines, after_clock_tms in L1.
        cbn [tms tdi pin6 pin8 tap set_tms set_tdi] in L1.
        injection L1 as E1 E2 E3 E4 E5. simpl. rewrite ?app_nil_r. auto 10.
      - inversion H1; subst. simpl. rewrite ?app_nil_r. auto 10. }
    destruct A1 as (S1 & Hok1 & P6 & P8 & Tp & Tm1 & Td1).
    rewrite Tp in H2.
    assert (A2 : stream s2 = stream s1 ++
                   flat_map (fun b => clock_tms_bytes b s)
                     (if tap_eqb (tap_state_transition (tap s) true) target
                      then [1] else []) /\
                 buffer_ok s2 /\ pin6 s2 = pin6 s /\ pin8 s2 = pin8 s /\
                 tms s2 = last (map notnot (if tap_eqb (tap_state_transition (tap s) true)
                                                       target then [1] else [])) (tms s1) /\
                 tdi s2 = (if tap_eqb (tap_state_transition (tap s) true) target
                           then 0 else tdi s1)).
    { destruct (tap_eqb (tap_state_transition (tap s) true) target).
      - destruct (appends_clock_tms Ha 1 _ _ _ Hok1 H2) as (S2 & Hok2 & L2).
        unfold lines, after_clock_tms in L2.
        cbn [tms tdi pin6 pin8 tap set_tms set_tdi] in L2.
        injection L2 as E1 E2 E3 E4 E5. simpl. rewrite ?app_nil_r.
        unfold clock_tms_bytes.
        rewrite (pins_byte_pins SCAN_OUT _ _ s s1) by congruence.
        split; [exact S2|]. split; [exact Hok2|]. repeat split; congruence.
      - inversion H2; subst. simpl. rewrite ?app_nil_r. auto 10. }
    destruct A2 as (S2 & Hok2 & Q6 & Q8 & Tm2 & Td2).
    set (s3 := tap_set_state target s2) in *.
    assert (Hok3 : buffer_ok s3) by exact Hok2.
    destruct (IH (i + 1) s3 u s' ltac:(lia) Hok3 H) as (S3 & Hok' & R6 & R8 & Tm3 & Td3).
    cbn [tap tap_set_state s3] in S3, Tm3, Td3. subst s3.
    cbn [tap tap_set_state pin6 pin8 tms tdi] in *.
    set (rest := path_bits target (firstn n (skipn (Z.to_nat (i + 1)) (path cmd)))) in *.
    unfold step_bits.
    set (b0 := if tap_eqb (tap_state_transition (tap s) false) target then [0] else []) in *.
    set (b1 := if tap_eqb (tap_state_transition (tap s) true) target then [1] else []) in *.
    assert (Es : stream (tap_set_state target s2) = stream s2) by reflexivity.
    split.
    { rewrite S3, Es, S2, S1, !flat_map_app, <- !app_assoc. do 3 f_equal.
      apply flat_map_ext. intros b. unfold clock_tms_bytes.
      rewrite (pins_byte_pins SCAN_OUT _ _ (tap_set_state target s2) s); [reflexivity| |];
        cbn [pin6 pin8 tap_set_state]; assumption. }
    split; [exact Hok'|]. split; [congruence|]. split; [congruence|].
    split.
    { rewrite Tm3, Tm2, Tm1, !map_app, !last_app_default. reflexivity. }
    { rewrite Td3, Td2, Td1. subst b0 b1.
      destruct rest;
        destruct (tap_eqb (tap_state_transition (tap s) false) target),
                 (tap_eqb (tap_state_transition (tap s) true) target); reflexivity. }
Qed.

(** [ublast_path_move] adds the wave of the TMS values of its steps: for a
    path whose every state is a successor of the one before, one clock per
    state with the TMS value that leads there; a step that is no successor
    gets no clock at all. *)
Theorem path_move_stream cmd s u s' :
  accepting -> buffer_ok s ->
  ublast_path_move cmd s = Done u s' ->
  stream s' =
  stream s ++
  tms_wave (path_bits (tap s) (firstn (Z.to_nat (num_states cmd)) (path cmd))) s.
Proof.
  intros Ha Hok H. unfold ublast_path_move in H.
  apply bind_Done in H. destruct H as (u1 & s1 & H1 & H).
  destruct (path_move_loop_stream Ha _ _ 0 _ _ _ (Z.le_refl 0) Hok H1)
    as (S1 & Hok1 & P6 & P8 & Tm & Td).
  change (skipn (Z.to_nat 0) (path cmd)) with (path cmd) in *.
  destruct (appends_idle_clock Ha _ _ _ Hok1 H) as (S2 & _).
  rewrite S2, S1, <- app_assoc. unfold tms_wave. f_equal. f_equal.
  rewrite build_out_pins_byte, Tm, Td. f_equal. apply pins_byte_pins; assumption.
Qed.

(** ** The bit-bang byte *)

(** [ublast_build_out] gives a byte whose bits are: TCK clear, TMS and TDI as
    the driver holds them, nCE and nCS as pin6 and pin8 are set, the LED bit
    always set, the read bit exactly for a scan that reads TDO, and bit 7
    clear, so that the byte is never taken for a byte-shift header. *)
Theorem build_out_bits type s :
  0 <= ublast_build_out type s < 128 /\
  Z.testbit (ublast_build_out type s) 0 = false /\
  Z.testbit (ublast_build_out type s) 1 = negb (tms s =? 0) /\
  Z.testbit (ublast_build_out type s) 2 = negb (pin6 s =? 0) /\
  Z.testbit (ublast_build_out type s) 3 = negb (pin8 s =? 0) /\
  Z.testbit (ublast_build_out type s) 4 = negb (tdi s =? 0) /\
  Z.testbit (ublast_build_out type s) 5 = true /\
  Z.testbit (ublast_build_out type s) 6 = reads_tdo type /\
  Z.land (ublast_build_out type s) SHMODE = 0.
Proof.
  unfold ublast_build_out.
  destruct (tms s =? 0), (pin6 s =? 0), (pin8 s =? 0), (tdi s =? 0), type;
    vm_compute; intuition discriminate.
Qed.

(** ** Unpacking TDO bits read in bit-bang mode *)

Lemma testbit_u8 x j : 0 <= j -> Z.testbit (to_u8 x) j = Z.testbit x j && (j <? 8).
Proof.
  intros Hj. unfold to_u8. change 255 with (Z.ones 8).
  rewrite Z.land_spec, Z.testbit_ones_nonneg by lia. reflexivity.
Qed.

Lemma testbit_one_shl i j : 0 <= i -> 0 <= j -> Z.testbit (Z.shiftl 1 i) j = (j =? i).
Proof.
  intros Hi Hj. rewrite Z.shiftl_spec by lia.
  destruct (j =? i) eqn:C; zbool.
  - subst j. rewrite Z.sub_diag. reflexivity.
  - destruct (Z_lt_le_dec j i) as [L|G].
    + apply Z.testbit_neg_r. lia.
    + change 1 with (Z.ones 1). rewrite Z.testbit_ones_nonneg by lia.
      apply Z.ltb_ge. lia.
Qed.

Lemma testbit_read_tdo t : Z.testbit t 0 = negb (Z.land t READ_TDO =? 0).
Proof.
  change READ_TDO with (Z.ones 1). rewrite Z.land_ones by lia.
  change (2 ^ 1) with 2. rewrite <- Z.bit0_mod.
  destruct (Z.testbit t 0); reflexivity.
Qed.

Lemma unpack_tdos_step n : forall i tmp b b',
  0 <= i -> i + Z.of_nat n <= 8 -> 0 <= b < 256 ->
  unpack_tdos n i tmp b = Some b' ->
  0 <= b' < 256 /\
  forall j, 0 <= j ->
    if (i <=? j) && (j <? i + Z.of_nat n)
    then exists t, aget tmp j = Some t /\ Z.testbit b' j = Z.testbit t 0
    else Z.testbit b' j = Z.testbit b j.
Proof.
  induction n as [|n IH]; intros i tmp b b' Hi Hn Hb H; simpl in H.
  - inversion H; subst b'; clear H. split; [exact Hb|]. intros j Hj.
    replace ((i <=? j) && (j <? i + Z.of_nat 0)) with false; [reflexivity|].
    symmetry. apply andb_false_iff.
    destruct (Z_lt_le_dec j i); [left; apply Z.leb_gt; lia|right; apply Z.ltb_ge; lia].
  - destruct (aget tmp i) as [t|] eqn:Et; [|discriminate H].
    set (b1 := if Z.land t READ_TDO =? 0
               then to_u8 (Z.land b (Z.lnot (Z.shiftl 1 i)))
               else to_u8 (Z.lor b (Z.shiftl 1 i))) in *.
    assert (Hb1 : 0 <= b1 < 256).
    { subst b1. destruct (Z.land t READ_TDO =? 0); apply to_u8_range. }
    assert (Bj : forall j, 0 <= j ->
              Z.testbit b1 j = if j =? i then Z.testbit t 0 else Z.testbit b j).
    { intros j Hj. subst b1. rewrite (testbit_read_tdo t).
      assert (B8 : 8 <= j -> Z.testbit b j = false).
      { intros G. destruct (Z.eq_dec b 0) as [->|NZ]; [apply Z.testbit_0_l|].
        apply Z.bits_above_log2; [lia|].
        apply Z.log2_lt_pow2; [lia|].
        apply Z.lt_le_trans with (2 ^ 8); [change (2 ^ 8) with 256; lia|].
        apply Z.pow_le_mono_r; lia. }
      destruct (Z.land t READ_TDO =? 0); rewrite testbit_u8 by lia; simpl negb.
      - rewrite Z.land_spec, Z.lnot_spec, testbit_one_shl by lia.
        destruct (j =? i) eqn:C; zbool.
        + simpl. rewrite andb_false_r. reflexivity.
        + simpl. rewrite andb_true_r.
          destruct (j <? 8) eqn:C8; zbool; [apply andb_true_r|].
          rewrite B8 by lia. reflexivity.
      - rewrite Z.lor_spec, testbit_one_shl by lia.
        destruct (j =? i) eqn:C; zbool.
        + subst j. rewrite orb_true_r.
          replace (i <? 8) with true by (symmetry; apply Z.ltb_lt; lia). reflexivity.
        + rewrite orb_false_r.
          destruct (j <? 8) eqn:C8; zbool; [apply andb_true_r|].
          rewrite B8 by lia. reflexivity. }
    destruct (IH (i + 1) tmp b1 b' ltac:(lia) ltac:(lia) Hb1 H) as [Hr Hbits].
    split; [exact Hr|]. intros j Hj. specialize (Hbits j Hj).
    rewrite Nat2Z.inj_succ.
    destruct (Z.eq_dec j i) as [->|NE].
    + replace ((i + 1 <=? i) && (i <? i + 1 + Z.of_nat n)) with false in Hbits
        by (symmetry; apply andb_false_iff; left; apply Z.leb_gt; lia).
      replace ((i <=? i) && (i <? i + Z.succ (Z.of_nat n))) with true
        by (symmetry; apply andb_true_intro; split;
            [apply Z.leb_le|apply Z.ltb_lt]; lia).
      exists t. split; [exact Et|]. rewrite Hbits, Bj, Z.eqb_refl by lia. reflexivity.
    + replace ((i <=? j) && (j <? i + Z.succ (Z.of_nat n)))
        with ((i + 1 <=? j) && (j <? i + 1 + Z.of_nat n)).
      2:{ destruct (Z_lt_le_dec j i).
          - replace (i + 1 <=? j) with false by (symmetry; apply Z.leb_gt; lia).
            replace (i <=? j) with false by (symmetry; apply Z.leb_gt; lia).
            reflexivity.
          - replace (i + 1 <=? j) with true by (symmetry; apply Z.leb_le; lia).
            replace (i <=? j) with true by (symmetry; apply Z.leb_le; lia).
            simpl. f_equal. lia. }
      destruct ((i + 1 <=? j) && (j <? i + 1 + Z.of_nat n)); [exact Hbits|].
      rewrite Hbits, Bj by lia.
      replace (j =? i) with false by (symmetry; apply Z.eqb_neq; lia). reflexivity.
Qed.

(** The unpacking loop of [ublast_read_bitbang_tdos] puts bit 0 of the
    [j]-th byte read into bit [j] of the byte it is given, for each of the
    [nb_bits] bits, and leaves the other bits of the byte as they were. *)
Theorem unpack_tdos_bits nb_bits tmp b b' :
  0 <= nb_bits <= 8 -> 0 <= b < 256 ->
  unpack_tdos (Z.to_nat nb_bits) 0 tmp b = Some b' ->
  0 <= b' < 256 /\
  (forall j, 0 <= j < nb_bits ->
     exists t, aget tmp j = Some t /\ Z.testbit b' j = Z.testbit t 0) /\
  (forall j, nb_bits <= j -> Z.testbit b' j = Z.testbit b j).
Proof.
  intros Hn Hb H.
  pose proof (unpack_tdos_step (Z.to_nat nb_bits) 0 tmp b b') as Hs.
  rewrite Z2Nat.id in Hs by lia.
  destruct (Hs ltac:(lia) ltac:(lia) Hb H) as [Hr Hbits]. clear Hs.
  split; [exact Hr|]. split; intros j Hj; specialize (Hbits j ltac:(lia)).
  - replace ((0 <=? j) && (j <? 0 + nb_bits)) with true in Hbits; [exact Hbits|].
    symmetry. apply andb_true_intro. split; [apply Z.leb_le|apply Z.ltb_lt]; lia.
  - replace ((0 <=? j) && (j <? 0 + nb_bits)) with false in Hbits; [exact Hbits|].
    symmetry. apply andb_false_iff. right. apply Z.ltb_ge. lia.
Qed.

(** ** Shifts on the wire *)

Section TdiStream.

Hypothesis driver_accepts : accepting.

Lemma aslice_inv {A} (l p : list A) (i n : Z) :
  aslice l i n = Some p ->
  0 <= i /\ 0 <= n /\ i + n <= Z.of_nat (length l) /\
  p = firstn (Z.to_nat n) (skipn (Z.to_nat i) l).
Proof.
  unfold aslice.
  destruct ((0 <=? i) && (0 <=? n) && (i + n <=? Z.of_nat (length l))) eqn:E; [|discriminate].
  apply andb_prop in E. destruct E as [E E3]. apply andb_prop in E. destruct E as [E1 E2].
  apply Z.leb_le in E1, E2, E3.
  intros H. inversion H. auto.
Qed.

Lemma queue_bytes_stream bytes n s u s' :
  buffer_ok s -> ublast_queue_bytes bytes n s = Done u s' ->
  exists payload,
    match bytes with
    | Some l => aslice l 0 n
    | None => aslice (repeat 0 (Z.to_nat n)) 0 n
    end = Some payload /\
    stream s' = stream s ++ payload /\ buffer_ok s' /\ lines s' = lines s.
Proof.
  intros Hok H.
  pose proof (preserves_Done _ _ _ _ _ (queue_bytes_lines bytes n) H) as Hln.
  pose proof (queue_bytes_buffer bytes n _ _ _ Hok H) as Hok'.
  destruct Hok as [Hlen Hidx]. unfold ublast_queue_bytes in H.
  apply bind_Done in H. destruct H as (s0 & s0' & Hg & H).
  inversion Hg; subst s0 s0'; clear Hg.
  destruct (bufidx s + n >? BUF_LEN) eqn:C; [discriminate H|]. zbool.
  destruct (match bytes with
            | Some l => aslice l 0 n
            | None => aslice (repeat 0 (Z.to_nat n)) 0 n
            end) as [payload|] eqn:Es; [|discriminate H].
  exists payload. split; [reflexivity|]. split; [|split; assumption].
  assert (Hp : 0 <= n /\ Z.of_nat (length payload) = n).
  { destruct bytes; eapply aslice_Some; exact Es. }
  destruct Hp as [Hn Hpl].
  destruct (acopy (buf s) (bufidx s) payload) as [b'|] eqn:Ea; [|discriminate H].
  apply acopy_Some in Ea; [|lia]. destruct Ea as (Hl' & Hf).
  apply bind_Done in H. destruct H as (u1 & s1 & Hm & H).
  inversion Hm; subst u1 s1; clear Hm.
  apply bind_Done in H. destruct H as (s0 & s0' & Hg & H).
  inversion Hg; subst s0 s0'; clear Hg.
  set (s2 := set_bufidx (bufidx s + n) (set_buf b' s)) in *.
  assert (S2 : stream s2 = stream s ++ payload).
  { unfold stream, pending, sent. subst s2. proj_simpl.
    rewrite <- Hpl at 1. rewrite Hf, app_assoc. reflexivity. }
  destruct (nb_buf_remaining s2 =? 0) eqn:C2.
  - apply (flush_buffer_stream driver_accepts) in H.
    + destruct H as (Hs & Hi & _). rewrite stream_empty by exact Hi. congruence.
    + subst s2. proj_simpl. rewrite Hl', Hlen. unfold BUF_LEN in *. lia.
    + subst s2. proj_simpl. unfold BUF_LEN in *. lia.
  - inversion H; subst s'. exact S2.
Qed.

Lemma read_queue_stream s s' : same_queue s s' -> stream s' = stream s.
Proof.
  intros (Hb & Hi & Hw). unfold stream, sent, pending. rewrite Hb, Hi, Hw. reflexivity.
Qed.

Lemma flush_keeps_stream s u s' :
  buffer_ok s -> ublast_flush_buffer s = Done u s' -> stream s' = stream s.
Proof.
  intros [Hl Hi] H. apply (flush_buffer_stream driver_accepts) in H.
  - destruct H as (Hs & Hz & _). rewrite stream_empty by exact Hz. exact Hs.
  - rewrite Hl. unfold BUF_LEN in *. lia.
  - unfold BUF_LEN in *. lia.
Qed.

Lemma read_byteshifted_tdos_stream tdos off n s r s' :
  buffer_ok s -> ublast_read_byteshifted_tdos tdos off n s = Done r s' ->
  stream s' = stream s /\ buffer_ok s' /\ lines s' = lines s.
Proof.
  intros Hok H.
  pose proof (preserves_Done _ _ _ _ _ (read_byteshifted_tdos_lines tdos off n) H) as Hln.
  pose proof (read_byteshifted_tdos_buffer tdos off n _ _ _ Hok H) as Hok'.
  split; [|split; assumption].
  unfold ublast_read_byteshifted_tdos in H.
  apply bind_Done in H. destruct H as (u & s1 & Hf & H).
  apply (flush_keeps_stream _ _ _ Hok) in Hf.
  pose proof (preserves_Done same_queue _ _ _ _ (read_loop_queue _ _ _ _ _) H) as Hq.
  rewrite (read_queue_stream _ _ Hq). exact Hf.
Qed.

Lemma read_bitbang_tdos_stream tdos off n s r s' :
  buffer_ok s -> ublast_read_bitbang_tdos tdos off n s = Done r s' ->
  stream s' = stream s /\ buffer_ok s' /\ lines s' = lines s.
Proof.
  intros Hok H.
  pose proof (preserves_Done _ _ _ _ _ (read_bitbang_tdos_lines tdos off n) H) as Hln.
  pose proof (read_bitbang_tdos_buffer tdos off n _ _ _ Hok H) as Hok'.
  split; [|split; assumption].
  unfold ublast_read_bitbang_tdos in H.
  apply bind_Done in H. destruct H as (u & s1 & Hf & H).
  apply (flush_keeps_stream _ _ _ Hok) in Hf.
  apply bind_Done in H. destruct H as ([rr data] & s2 & Hr & H).
  pose proof (preserves_Done same_queue _ _ _ _ (buf_read_queue _) Hr) as Hq.
  assert (E : s' = s2).
  { destruct (acopy (repeat 0 8%nat) 0 data); [|discriminate H].
    destruct (rr =? ERROR_OK); [|inversion H; reflexivity].
    destruct (aget tdos off).
    - destruct (unpack_tdos _ _ _ _); [|discriminate H].
      destruct (aset tdos off _); inversion H; reflexivity.
    - destruct (0 <? n); inversion H; reflexivity. }
  subst s'. rewrite (read_queue_stream _ _ Hq). exact Hf.
Qed.

(** The bytes of a list of bursts: each chunk of payload behind its header. *)
Definition burst_bytes (rd : bool) (chunks : list (list Z)) : list Z :=
  flat_map (fun c => shift_header rd (Z.of_nat (length c)) :: c) chunks.

(** What is shifted in byte-shift mode: the caller's bytes, or zeros. *)
Definition tdi_source (bits : option (list Z)) (nb8 : Z) : list Z :=
  match bits with Some l => l | None => repeat 0 (Z.to_nat nb8) end.

Lemma firstn_skipn_app {A} (l : list A) a b :
  firstn a l ++ firstn b (skipn a l) = firstn (a + b) l.
Proof.
  revert l. induction a as [|a IH]; intros l; [reflexivity|].
  destruct l as [|x l]; simpl.
  - rewrite firstn_nil. reflexivity.
  - f_equal. apply IH.
Qed.

Lemma skipn_repeat {A} (x : A) n k : skipn k (repeat x n) = repeat x (n - k).
Proof.
  revert n. induction k as [|k IH]; intros n.
  - rewrite Nat.sub_0_r. reflexivity.
  - destruct n as [|n]; [reflexivity|]. simpl. apply IH.
Qed.

Lemma firstn_repeat {A} (x : A) n k : (k <= n)%nat -> firstn k (repeat x n) = repeat x k.
Proof.
  revert n. induction k as [|k IH]; intros n Hk; [reflexivity|].
  destruct n as [|n]; [lia|]. simpl. f_equal. apply IH. lia.
Qed.

Lemma byteshift_burst_stream bits rd nb8 i tdos s tdos' s' :
  buffer_ok s -> 0 <= i < nb8 ->
  byteshift_burst bits rd i (burst_len s nb8 i) tdos s = Done tdos' s' ->
  0 <= burst_len s nb8 i <= 63 /\ burst_len s nb8 i <= nb8 - i /\
  (bufidx s <= 62 -> 1 <= burst_len s nb8 i) /\
  (bufidx s = 63 -> bufidx s' <= 62) /\
  stream s' = stream s ++
    shift_header rd (burst_len s nb8 i) ::
    firstn (Z.to_nat (burst_len s nb8 i)) (skipn (Z.to_nat i) (tdi_source bits nb8)) /\
  Z.of_nat (length (firstn (Z.to_nat (burst_len s nb8 i))
                       (skipn (Z.to_nat i) (tdi_source bits nb8)))) = burst_len s nb8 i /\
  buffer_ok s' /\ lines s' = lines s.
Proof.
  intros Hok Hi H.
  assert (HN : 0 <= burst_len s nb8 i <= 63 /\ burst_len s nb8 i <= nb8 - i /\
               (bufidx s <= 62 -> 1 <= burst_len s nb8 i)).
  { destruct Hok as [_ Hx]. unfold burst_len, nb_buf_remaining, BUF_LEN in *. lia. }
  destruct HN as (HN & HN2 & HN3).
  split; [exact HN|]. split; [exact HN2|]. split; [exact HN3|].
  set (N := burst_len s nb8 i) in *.
  destruct (shift_header_fields rd N HN) as (Hu8 & _).
  unfold byteshift_burst in H.
  apply bind_Done in H. destruct H as (u1 & s1 & H1 & H).
  apply bind_Done in H. destruct H as (u2 & s2 & H2 & H).
  pose proof (queue_byte_Done _ _ _ _ Hok H1) as Hq1.
  destruct (queue_byte_stream driver_accepts _ _ _ _ Hok H1) as (S1 & Hok1 & L1).
  rewrite Hu8 in S1.
  destruct (queue_bytes_stream _ _ _ _ _ Hok1 H2) as (payload & Hp & S2 & Hok2 & L2).
  assert (Hpay : payload =
                 firstn (Z.to_nat N) (skipn (Z.to_nat i) (tdi_source bits nb8))).
  { unfold tdi_source. destruct bits as [l|]; apply aslice_inv in Hp;
      destruct Hp as (_ & Hn0 & Hle & Hp); cbn [skipn Z.to_nat] in Hp; subst payload.
    - reflexivity.
    - unfold byte0 in *. rewrite repeat_length in Hle.
      rewrite skipn_repeat, !firstn_repeat by (unfold BUF_LEN in *; lia).
      reflexivity. }
  assert (Hlen : Z.of_nat (length payload) = N).
  { destruct (queue_bytes_Done _ _ _ _ _ Hok1 H2) as (p & Hpl & _).
    clear - Hp. destruct bits; apply aslice_Some in Hp; apply Hp. }
  rewrite Hpay in Hlen.
  subst payload.
  assert (Hfin : stream s2 = stream s ++ shift_header rd N ::
                   firstn (Z.to_nat N) (skipn (Z.to_nat i) (tdi_source bits nb8))).
  { rewrite S2, S1, <- app_assoc. reflexivity. }
  assert (Hidx : bufidx s = 63 -> bufidx s2 <= 62).
  { intros E63.
    destruct Hq1 as (_ & [(Hlt & _)|(_ & Hz & _)]); [unfold BUF_LEN in Hlt; lia|].
    assert (N0 : N = 0) by (subst N; unfold burst_len, nb_buf_remaining, BUF_LEN; lia).
    pose proof (queue_bytes_Done _ _ _ _ _ Hok1 H2) as (p & Hpl & _ & _ & Hc).
    destruct Hc as [(_ & _ & Hi2 & _)|(_ & Hi2 & _)]; lia. }
  destruct rd.
  - apply bind_Done in H. destruct H as ([rr t1] & s3 & Hr & H).
    inversion H; subst tdos' s3; clear H.
    destruct (read_byteshifted_tdos_stream _ _ _ _ _ _ Hok2 Hr) as (S3 & Hok3 & L3).
    pose proof (read_byteshifted_tdos_Done _ _ _ _ _ _ Hr) as (_ & Hz & _).
    split; [intros _; lia|].
    split; [rewrite S3; exact Hfin|]. split; [exact Hlen|].
    split; [exact Hok3|congruence].
  - inversion H; subst tdos' s2; clear H.
    split; [exact Hidx|]. split; [exact Hfin|]. split; [exact Hlen|].
    split; [exact Hok2|congruence].
Qed.

Lemma byteshift_loop_stream bits rd nb8 n : forall i tdos s tdos' s',
  buffer_ok s -> 0 <= i ->
  byteshift_loop n bits rd nb8 i tdos s = Done tdos' s' ->
  exists chunks,
    Forall (fun c => (length c <= 63)%nat) chunks /\
    concat chunks =
      firstn (Z.to_nat (nb8 - i)) (skipn (Z.to_nat i) (tdi_source bits nb8)) /\
    stream s' = stream s ++ burst_bytes rd chunks /\
    buffer_ok s' /\ lines s' = lines s.
Proof.
  induction n as [|n IH]; intros i tdos s tdos' s' Hok Hi H; simpl in H.
  - destruct (i <? nb8) eqn:C; [discriminate H|]. zbool.
    inversion H; subst. exists []. simpl. rewrite app_nil_r.
    replace (Z.to_nat (nb8 - i)) with O by lia.
    split; [constructor|]. auto.
  - destruct (i <? nb8) eqn:C; zbool.
    2:{ inversion H; subst. exists []. simpl. rewrite app_nil_r.
        replace (Z.to_nat (nb8 - i)) with O by lia.
        split; [constructor|]. auto. }
    apply bind_Done in H. destruct H as (s0 & s0' & Hg & H).
    inversion Hg; subst s0 s0'; clear Hg.
    apply bind_Done in H. destruct H as (t1 & s1 & Hb & H).
    destruct (byteshift_burst_stream bits rd nb8 i tdos s t1 s1 Hok (conj Hi C) Hb)
      as (HN & HN2 & _ & _ & S1 & Hlen & Hok1 & L1).
    set (N := burst_len s nb8 i) in *.
    assert (Hi' : 0 <= i + N) by lia.
    destruct (IH _ _ _ _ _ Hok1 Hi' H) as (chunks & Hf & Hc & S2 & Hok2 & L2).
    exists (firstn (Z.to_nat N) (skipn (Z.to_nat i) (tdi_source bits nb8)) :: chunks).
    split; [|split; [|split; [|split; [exact Hok2|congruence]]]].
    + constructor; [|exact Hf]. lia.
    + cbn [concat]. rewrite Hc.
      replace (Z.to_nat (i + N)) with (Z.to_nat N + Z.to_nat i)%nat by lia.
      rewrite <- skipn_skipn, firstn_skipn_app. f_equal. lia.
    + rewrite S2, S1, <- app_assoc. unfold burst_bytes. cbn [flat_map].
      rewrite Hlen. reflexivity.
Qed.


(** [ublast_clock_tdi]: TDI at its new value [v] (0 or 1) and TMS as it is,
    with TCK low and then high; the byte with TCK high asks for TDO when the
    scan reads. *)
Definition clock_tdi_bytes (type : scan_type) (v : Z) (s : ublast_info) : list Z :=
  [pins_byte SCAN_OUT (tms s) v s; Z.lor (pins_byte type (tms s) v s) TCK].

(** [ublast_clock_tdi_flip_tms]: the same with TMS inverted, and TCK low
    again afterwards. *)
Definition clock_tdi_flip_bytes (type : scan_type) (v : Z) (s : ublast_info) : list Z :=
  [pins_byte SCAN_OUT (lnot (tms s)) v s;
   Z.lor (pins_byte type (lnot (tms s)) v s) TCK;
   pins_byte SCAN_OUT (lnot (tms s)) v s].

Lemma set_tdi_ok v s : buffer_ok s -> buffer_ok (set_tdi v s).
Proof. intros H. exact H. Qed.

Lemma set_tms_ok v s : buffer_ok s -> buffer_ok (set_tms v s).
Proof. intros H. exact H. Qed.

Lemma appends_clock_tdi v type :
  appends (ublast_clock_tdi v type) (clock_tdi_bytes type (notnot v))
          (set_tdi (notnot v)).
Proof.
  intros s a s' Hok H. unfold ublast_clock_tdi in H.
  apply bind_Done in H. destruct H as (u0 & s0 & Hm & H).
  inversion Hm; subst u0 s0; clear Hm.
  apply bind_Done in H. destruct H as (out & s0 & Hg & H).
  inversion Hg; subst out s0; clear Hg.
  apply bind_Done in H. destruct H as (u1 & s1 & H1 & H).
  apply bind_Done in H. destruct H as (out & s0 & Hg & H).
  inversion Hg; subst out s0; clear Hg.
  destruct (queue_byte_stream driver_accepts _ _ _ _ (set_tdi_ok _ _ Hok) H1)
    as (S1 & Hok1 & L1).
  destruct (queue_byte_stream driver_accepts _ _ _ _ Hok1 H) as (S2 & Hok2 & L2).
  split; [|split; [exact Hok2|congruence]].
  rewrite S2, S1, <- app_assoc. rewrite build_out_u8, build_out_tck_u8.
  unfold clock_tdi_bytes, pins_byte.
  unfold lines in L1. injection L1 as E1 E2 E3 E4 E5.
  unfold ublast_build_out. rewrite E1, E2, E3, E4. reflexivity.
Qed.

Lemma appends_clock_tdi_flip_tms v type :
  appends (ublast_clock_tdi_flip_tms v type) (clock_tdi_flip_bytes type (notnot v))
          (fun s => set_tms (lnot (tms s)) (set_tdi (notnot v) s)).
Proof.
  intros s a s' Hok H. unfold ublast_clock_tdi_flip_tms in H.
  apply bind_Done in H. destruct H as (u0 & s0 & Hm & H).
  inversion Hm; subst u0 s0; clear Hm.
  apply bind_Done in H. destruct H as (u0 & s0 & Hm & H).
  inversion Hm; subst u0 s0; clear Hm.
  apply bind_Done in H. destruct H as (out & s0 & Hg & H).
  inversion Hg; subst out s0; clear Hg.
  apply bind_Done in H. destruct H as (u1 & s1 & H1 & H).
  apply bind_Done in H. destruct H as (out & s0 & Hg & H).
  inversion Hg; subst out s0; clear Hg.
  apply bind_Done in H. destruct H as (u2 & s2 & H2 & H).
  apply bind_Done in H. destruct H as (out & s0 & Hg & H).
  inversion Hg; subst out s0; clear Hg.
  destruct (queue_byte_stream driver_accepts _ _ _ _
              (set_tms_ok _ _ (set_tdi_ok _ _ Hok)) H1) as (S1 & Hok1 & L1).
  destruct (queue_byte_stream driver_accepts _ _ _ _ Hok1 H2) as (S2 & Hok2 & L2).
  destruct (queue_byte_stream driver_accepts _ _ _ _ Hok2 H) as (S3 & Hok3 & L3).
  split; [|split; [exact Hok3|congruence]].
  rewrite S3, S2, S1, <- !app_assoc. rewrite !build_out_u8, build_out_tck_u8.
  unfold clock_tdi_flip_bytes, pins_byte.
  rewrite L1 in L2.
  unfold lines in L1, L2. injection L1 as E1 E2 E3 E4 E5. injection L2 as F1 F2 F3 F4 F5.
  unfold ublast_build_out. rewrite E1, E2, E3, E4, F1, F2, F3, F4.
  proj_simpl. reflexivity.
Qed.

(** The TDI bits of the bit-bang part: bit [k] of [bits[nb8]] for
    [k = 0 .. nb1 - 1], or zeros when [bits] is NULL. *)
Definition tdi_bits (bits : option (list Z)) (nb8 : Z) (first n : nat) : list Z :=
  match bits with
  | Some l =>
      map (fun k => if Z.testbit (nth (Z.to_nat nb8) l 0) (Z.of_nat k) then 1 else 0)
          (seq first n)
  | None => repeat 0 n
  end.

(** The bytes of the bit-bang part: every bit is clocked with TMS as it was,
    but for the last one when [flip] is set. *)
Fixpoint bitbang_bytes (type : scan_type) (flip : bool) (vs : list Z)
         (s : ublast_info) : list Z :=
  match vs with
  | [] => []
  | v :: rest =>
      match rest with
      | [] => if flip then clock_tdi_flip_bytes type v s else clock_tdi_bytes type v s
      | _ => clock_tdi_bytes type v s ++ bitbang_bytes type flip rest s
      end
  end.

Lemma notnot_land_bit b k :
  0 <= k -> notnot (Z.land b (Z.shiftl 1 k)) = if Z.testbit b k then 1 else 0.
Proof.
  intros Hk. unfold notnot.
  destruct (Z.testbit b k) eqn:Eb.
  - destruct (Z.land b (Z.shiftl 1 k) =? 0) eqn:C; [|reflexivity]. zbool.
    assert (Ht : Z.testbit (Z.land b (Z.shiftl 1 k)) k = true).
    { rewrite Z.land_spec, Eb, testbit_one_shl by lia. rewrite Z.eqb_refl. reflexivity. }
    rewrite C, Z.bits_0 in Ht. discriminate Ht.
  - replace (Z.land b (Z.shiftl 1 k)) with 0; [reflexivity|].
    symmetry. apply Z.bits_inj'. intros j Hj.
    rewrite Z.land_spec, Z.bits_0, testbit_one_shl by lia.
    destruct (j =? k) eqn:C; zbool.
    + subst j. rewrite Eb. reflexivity.
    + apply andb_false_r.
Qed.

Lemma bitbang_bytes_pins type flip vs s1 s2 :
  tms s1 = tms s2 -> pin6 s1 = pin6 s2 -> pin8 s1 = pin8 s2 ->
  bitbang_bytes type flip vs s1 = bitbang_bytes type flip vs s2.
Proof.
  intros Ht H6 H8. induction vs as [|v rest IH]; [reflexivity|].
  cbn [bitbang_bytes]. rewrite IH.
  unfold clock_tdi_bytes, clock_tdi_flip_bytes. rewrite Ht.
  rewrite !(pins_byte_pins _ _ _ s1 s2) by assumption. reflexivity.
Qed.

Lemma tdi_bits_cons bits nb8 first n :
  tdi_bits bits nb8 first (S n) =
  match bits with
  | Some l => if Z.testbit (nth (Z.to_nat nb8) l 0) (Z.of_nat first) then 1 else 0
  | None => 0
  end :: tdi_bits bits nb8 (S first) n.
Proof. destruct bits; reflexivity. Qed.

Lemma bitbang_loop_stream bits scan tap_shift nb8 nb1 n : forall i s u s',
  buffer_ok s -> 0 <= i -> i + Z.of_nat n = nb1 -> nb1 <= 8 ->
  bitbang_loop n bits scan tap_shift nb8 nb1 i s = Done u s' ->
  let flip := negb (tap_shift =? 0) && is_some bits in
  let vs := tdi_bits bits nb8 (Z.to_nat i) n in
  stream s' = stream s ++ bitbang_bytes scan flip vs s /\
  buffer_ok s' /\ pin6 s' = pin6 s /\ pin8 s' = pin8 s /\ tap s' = tap s /\
  tms s' = (if flip && negb (Nat.eqb n 0) then lnot (tms s) else tms s) /\
  tdi s' = last vs (tdi s).
Proof.
  induction n as [|n IH]; intros i s u s' Hok Hi Hn H8 H; simpl in H.
  - inversion H; subst s'. cbn zeta. cbn [Nat.eqb negb]. rewrite andb_false_r.
    replace (tdi_bits bits nb8 (Z.to_nat i) 0) with (@nil Z)
      by (destruct bits; reflexivity).
    cbn [bitbang_bytes last]. rewrite app_nil_r. auto 10.
  - intros flip vs.
    apply bind_Done in H. destruct H as (tdi_v & s0 & Hv & H).
    assert (Ev : s0 = s /\
                 notnot tdi_v =
                 match bits with
                 | Some l => if Z.testbit (nth (Z.to_nat nb8) l 0) i then 1 else 0
                 | None => 0
                 end).
    { destruct bits as [l|].
      - rewrite Z.quot_small, Z.add_0_r in Hv by lia.
        unfold aget in Hv.
        destruct ((0 <=? nb8) && (nb8 <? Z.of_nat (length l))) eqn:C;
          [|discriminate Hv].
        destruct (nth_error l (Z.to_nat nb8)) as [b|] eqn:Eb; [|discriminate Hv].
        inversion Hv; subst tdi_v s0; clear Hv. split; [reflexivity|].
        rewrite (nth_error_nth _ _ 0 Eb). apply notnot_land_bit. exact Hi.
      - inversion Hv; subst. auto. }
    destruct Ev as [-> Ev].
    apply bind_Done in H. destruct H as (u1 & s1 & H1 & H).
    subst vs. rewrite tdi_bits_cons. rewrite Z2Nat.id by exact Hi. rewrite <- Ev.
    destruct n as [|n].
    + (* the last bit *)
      simpl in H. inversion H; subst s1 u; clear H.
      replace (i =? nb1 - 1) with true in H1 by (symmetry; apply Z.eqb_eq; lia).
      rewrite andb_true_r in H1. fold flip in H1.
      replace (tdi_bits bits nb8 (S (Z.to_nat i)) 0) with (@nil Z)
        by (destruct bits; reflexivity).
      cbn [bitbang_bytes last Nat.eqb negb]. rewrite andb_true_r.
      destruct flip.
      * destruct (appends_clock_tdi_flip_tms _ _ _ _ _ Hok H1) as (S1 & Hok1 & L1).
        unfold lines in L1. proj_simpl. injection L1 as E1 E2 E3 E4 E5. auto 10.
      * destruct (appends_clock_tdi _ _ _ _ _ Hok H1) as (S1 & Hok1 & L1).
        unfold lines in L1. proj_simpl. injection L1 as E1 E2 E3 E4 E5. auto 10.
    + replace (i =? nb1 - 1) with false in H1 by (symmetry; apply Z.eqb_neq; lia).
      rewrite andb_false_r in H1.
      destruct (appends_clock_tdi _ _ _ _ _ Hok H1) as (S1 & Hok1 & L1).
      unfold lines in L1. proj_simpl. injection L1 as E1 E2 E3 E4 E5.
      assert (Hi1 : 0 <= i + 1) by lia.
      assert (Hn1 : i + 1 + Z.of_nat (S n) = nb1) by lia.
      destruct (IH _ _ _ _ Hok1 Hi1 Hn1 H8 H) as (S2 & Hok2 & P6 & P8 & Tp & Tm & Td).
      replace (Z.to_nat (i + 1)) with (S (Z.to_nat i)) in * by lia.
      fold flip in S2, Tm.
      rewrite (bitbang_bytes_pins _ _ _ s1 s) in S2 by assumption.
      split; [|split; [exact Hok2|]].
      * rewrite S2, S1, <- app_assoc.
        rewrite (tdi_bits_cons bits nb8 (S (Z.to_nat i)) n) in *.
        cbn [bitbang_bytes]. reflexivity.
      * split; [congruence|]. split; [congruence|]. split; [congruence|].
        split.
        -- rewrite Tm, E1. destruct flip; reflexivity.
        -- rewrite Td. rewrite (tdi_bits_cons bits nb8 (S (Z.to_nat i)) n).
           rewrite !last_cons_default. reflexivity.
Qed.

End TdiStream.

Lemma tdi_split_nb1 nb_bits : snd (tdi_split nb_bits) <= 8.
Proof.
  clear. unfold tdi_split.
  destruct ((Z.quot nb_bits 8 >? 0) && (Z.rem nb_bits 8 =? 0)); cbn [snd]; [lia|].
  Z.to_euclidean_division_equations. lia.
Qed.

(** ** A shift on the wire

    With a driver that takes every write whole, [ublast_queue_tdi] adds to
    the stream, in this order and with nothing lost of what was queued
    before: byte-shift bursts, each a header with its length (at most 63)
    and that many payload bytes, whose payloads put end to end are the
    first [nb8] bytes of [bits] (zeros when [bits] is NULL); then for each
    of the [nb1] remaining bits, low bit of [bits[nb8]] first, one byte with
    TCK low and one with TCK high, TMS being inverted for the last bit only
    and only when [tap_shift] is set and [bits] is not NULL (a third byte
    then puts TCK low); then one byte that puts TCK low with the lines as
    they are left.  The recorded TAP state and the two pins are as before. *)
Theorem queue_tdi_stream bits nb_bits scan tap_shift s r s' :
  accepting -> buffer_ok s ->
  ublast_queue_tdi bits nb_bits scan tap_shift s = Done r s' ->
  let nb8 := fst (tdi_split nb_bits) in
  let nb1 := snd (tdi_split nb_bits) in
  let flip := negb (tap_shift =? 0) && is_some bits in
  exists chunks,
    Forall (fun c => (length c <= 63)%nat) chunks /\
    concat chunks = firstn (Z.to_nat nb8) (tdi_source bits nb8) /\
    stream s' = stream s ++ burst_bytes (reads_tdo scan) chunks ++
                bitbang_bytes scan flip (tdi_bits bits nb8 0 (Z.to_nat nb1)) s ++
                [ublast_build_out SCAN_OUT s'] /\
    tms s' = (if flip && (0 <? nb1) then lnot (tms s) else tms s) /\
    pin6 s' = pin6 s /\ pin8 s' = pin8 s /\ tap s' = tap s.
Proof.
  intros Ha Hok H nb8 nb1 flip. subst nb8 nb1.
  pose proof (tdi_split_nb1 nb_bits) as H8.
  unfold ublast_queue_tdi in H.
  destruct (tdi_split nb_bits) as [nb8 nb1] eqn:Es. cbn [fst snd] in *.
  apply bind_Done in H. destruct H as (tdos1 & s1 & H1 & H).
  destruct (byteshift_loop_stream Ha _ _ _ _ _ _ _ _ _ Hok (Z.le_refl 0) H1)
    as (chunks & Hf & Hc & S1 & Hok1 & L1).
  rewrite Z.sub_0_r in Hc. cbn [Z.to_nat skipn] in Hc.
  apply bind_Done in H. destruct H as (u2 & s2 & H2 & H).
  assert (B : stream s2 = stream s1 ++
                bitbang_bytes scan flip (tdi_bits bits nb8 0 (Z.to_nat nb1)) s1 /\
              buffer_ok s2 /\ pin6 s2 = pin6 s1 /\ pin8 s2 = pin8 s1 /\
              tap s2 = tap s1 /\
              tms s2 = (if flip && (0 <? nb1) then lnot (tms s1) else tms s1)).
  { destruct (0 <? nb1) eqn:C; zbool.
    - assert (Hn : 0 + Z.of_nat (Z.to_nat nb1) = nb1) by lia.
      destruct (bitbang_loop_stream Ha _ _ _ _ _ _ _ _ _ _ Hok1 (Z.le_refl 0) Hn H8 H2)
        as (S2 & Hok2 & P6 & P8 & Tp & Tm & _).
      cbn [Z.to_nat] in S2. fold flip in S2, Tm.
      replace (Z.to_nat nb1 =? 0)%nat with false in Tm
        by (symmetry; apply Nat.eqb_neq; lia).
      auto 10.
    - replace (Z.to_nat nb1) with O in * by lia. simpl in H2.
      inversion H2; subst s2. rewrite andb_false_r.
      replace (tdi_bits bits nb8 0 0) with (@nil Z) by (destruct bits; reflexivity).
      cbn [bitbang_bytes]. rewrite app_nil_r. auto 10. }
  destruct B as (S2 & Hok2 & P6 & P8 & Tp & Tm).
  apply bind_Done in H. destruct H as (tdos3 & s3 & H3 & H).
  assert (R : stream s3 = stream s2 /\ buffer_ok s3 /\ lines s3 = lines s2).
  { destruct (negb (nb1 =? 0) && reads_tdo scan).
    - apply bind_Done in H3. destruct H3 as ([rr t3] & s3' & Hr & H3).
      inversion H3; subst s3' tdos3; clear H3.
      eapply (read_bitbang_tdos_stream Ha); eassumption.
    - inversion H3; subst. auto. }
  destruct R as (S3 & Hok3 & L3).
  apply bind_Done in H. destruct H as (bits' & s4 & H4 & H).
  assert (E4 : s4 = s3).
  { destruct bits as [l|]; [|inversion H4; reflexivity].
    destruct (aslice tdos3 0 (DIV_ROUND_UP nb_bits 8)); [|discriminate H4].
    destruct (acopy l 0 l0); [|discriminate H4]. inversion H4; reflexivity. }
  subst s4.
  apply bind_Done in H. destruct H as (u5 & s5 & H5 & H).
  inversion H; subst s5 r; clear H.
  destruct (appends_idle_clock Ha _ _ _ Hok3 H5) as (S5 & Hok5 & L5).
  unfold lines in L1, L3, L5.
  injection L1 as A1 A2 A3 A4 A5. injection L3 as B1 B2 B3 B4 B5.
  injection L5 as C1 C2 C3 C4 C5.
  exists chunks. split; [exact Hf|]. split; [exact Hc|].
  split; [|split; [|repeat split; congruence]].
  - rewrite S5, S3, S2, S1, <- !app_assoc.
    rewrite (bitbang_bytes_pins _ _ _ s1 s) by congruence.
    do 3 f_equal. unfold ublast_build_out. rewrite C1, C2, C3, C4. reflexivity.
  - rewrite C1, B1, Tm, A1. reflexivity.
Qed.

(** ** The recorded TAP state after a command *)

Lemma path_move_loop_tap n cmd : forall i s u s',
  0 <= i ->
  path_move_loop n cmd i s = Done u s' ->
  tap s' = last (firstn n (skipn (Z.to_nat i) (path cmd))) (tap s).
Proof.
  induction n as [|n IH]; intros i s u s' Hi H; simpl in H.
  - inversion H; subst. reflexivity.
  - destruct (aget (path cmd) i) as [target|] eqn:Eg; [|discriminate H].
    apply bind_Done in H. destruct H as (cur & s1 & Hg & H).
    inversion Hg; subst cur s1; clear Hg.
    apply bind_Done in H. destruct H as (u1 & s1 & H1 & H).
    apply bind_Done in H. destruct H as (cur & s2 & Hg & H).
    inversion Hg; subst cur s2; clear Hg.
    apply bind_Done in H. destruct H as (u2 & s2 & H2 & H).
    apply bind_Done in H. destruct H as (u3 & s3 & H3 & H).
    inversion H3; subst u3 s3; clear H3.
    apply IH in H; [|lia]. rewrite H. cbn [tap tap_set_state].
    unfold aget in Eg.
    destruct ((0 <=? i) && (i <? Z.of_nat (length (path cmd)))) eqn:C; [|discriminate Eg].
    zbool.
    assert (Hs : skipn (Z.to_nat i) (path cmd) =
                 target :: skipn (Z.to_nat (i + 1)) (path cmd)).
    { replace (Z.to_nat (i + 1)) with (S (Z.to_nat i)) by lia.
      clear - Eg. revert Eg. generalize (Z.to_nat i) as k. generalize (path cmd) as l.
      induction l as [|h t IHl]; intros [|k] E; simpl in *; try discriminate E.
      - inversion E; subst. reflexivity.
      - apply IHl. exact E. }
    rewrite Hs. cbn [firstn].
    destruct (firstn n (skipn (Z.to_nat (i + 1)) (path cmd))) as [|x l] eqn:El;
      [reflexivity|].
    change (last (target :: x :: l) (tap s)) with (last (x :: l) (tap s)).
    clear. revert x. induction l as [|y l IHl]; intros x; [reflexivity|].
    change (last (x :: y :: l) target) with (last (y :: l) target).
    change (last (x :: y :: l) (tap s)) with (last (y :: l) (tap s)). apply IHl.
Qed.

Definition is_scan (cmd : jtag_command) : bool :=
  match cmd with JTAG_SCAN _ => true | _ => false end.

(** The TAP state the driver records after a command other than a scan: the
    end state of a state move and of a run-test, the last state of a path
    whether or not the path could be clocked, RESET after a reset that
    asserts TRST; a TMS command, stable clocks and a sleep leave the record
    as it was. *)
Theorem execute_command_recorded_state cmd retv s r s' :
  is_scan cmd = false ->
  execute_command cmd retv s = Done r s' ->
  r = retv /\
  tap s' = match cmd with
           | JTAG_TLR_RESET e => e
           | JTAG_RUNTEST _ e => e
           | JTAG_RESET trst _ => if trst =? 1 then TAP_RESET else tap s
           | JTAG_PATHMOVE p =>
               last (firstn (Z.to_nat (num_states p)) (path p)) (tap s)
           | _ => tap s
           end.
Proof.
  intros Hs H. destruct cmd; try discriminate Hs; simpl in H;
    apply bind_Done in H; destruct H as (u & s1 & H1 & H);
    inversion H; subst r s1; clear H; (split; [reflexivity|]).
  - eapply state_move_Done. exact H1.
  - unfold ublast_runtest in H1.
    apply bind_Done in H1. destruct H1 as (u1 & s1 & _ & H1).
    apply bind_Done in H1. destruct H1 as (u2 & s2 & _ & H1).
    eapply state_move_Done. exact H1.
  - unfold ublast_reset in H1. destruct (trst =? 1); inversion H1; subst; reflexivity.
  - unfold ublast_path_move in H1.
    apply bind_Done in H1. destruct H1 as (u1 & s1 & Hl & H1).
    apply path_move_loop_tap in Hl; [|lia].
    pose proof (preserves_Done _ _ _ _ _ idle_clock_tap H1) as Ht.
    unfold same_tap in Ht. rewrite Ht, Hl. reflexivity.
  - inversion H1; subst. reflexivity.
  - unfold ublast_stableclocks in H1.
    apply bind_Done in H1. destruct H1 as (u1 & s1 & Hq & H1).
    inversion H1; subst.
    exact (preserves_Done _ _ _ _ _ (queue_tdi_tap _ _ _ _) Hq).
  - unfold ublast_tms in H1.
    exact (preserves_Done _ _ _ _ _ (tms_seq_tap _ _) H1).
Qed.

(** ** Opening and closing the probe *)

(** The driver [ublast_init] goes on with: the registrar's answer for a
    configured name that is in the map; for a name that is not in the map,
    whatever [info.drv] held; with no name, what [info.drv] held or else
    the first registrar that answers. *)
Definition chosen_driver (s : ublast_info) : option ublast_lowlevel :=
  match lowlevel_name s with
  | Some name =>
      if String.eqb "ftdi" name then ublast_register_ftdi
      else if String.eqb "ftd2xx" name then ublast_register_ftd2xx
      else drv s
  | None =>
      match drv s, ublast_register_ftdi with
      | Some d, _ => Some d
      | None, Some d => Some d
      | None, None => ublast_register_ftd2xx
      end
  end.

Lemma select_driver_chosen s :
  select_driver s = Done (is_some (chosen_driver s)) (set_drv (chosen_driver s) s).
Proof.
  unfold select_driver, chosen_driver, bind, get.
  destruct s as [p6 p8 tm td b bi name d desc vid pid tp wl]; cbn [lowlevel_name drv].
  destruct name as [name|].
  - unfold lowlevel_drivers_map. cbn [find_driver].
    destruct (String.eqb "ftdi" name); [reflexivity|].
    destruct (String.eqb "ftd2xx" name); reflexivity.
  - unfold modify, ret, lowlevel_drivers_map. cbn [drv set_drv].
    destruct d as [d|]; [reflexivity|]. cbn [try_drivers].
    destruct ublast_register_ftdi; [reflexivity|].
    destruct ublast_register_ftd2xx; reflexivity.
Qed.

(** [ublast_init] without a driver, or with a driver that does not open:
    with no driver it returns [ERROR_JTAG_DEVICE_ERROR]; with a driver whose
    [open] fails it returns the code of [open], after handing it the
    configured vendor id, product id and description.  In both cases
    nothing is written to the probe and the recorded TAP state is kept. *)
Theorem ublast_init_failure s :
  match chosen_driver s with
  | None =>
      ublast_init s = Done ERROR_JTAG_DEVICE_ERROR (set_drv None s)
  | Some d =>
      forall r d',
        drv_open (mk_lowlevel (ublast_vid s) (ublast_pid s)
                              (ublast_device_desc s) (priv d)) = (r, d') ->
        r <> ERROR_OK ->
        ublast_init s = Done r (set_drv (Some d') s)
  end.
Proof.
  destruct (chosen_driver s) as [d|] eqn:Ec.
  - intros r d' Ho Hr. unfold ublast_init. unfold bind at 1.
    rewrite select_driver_chosen, Ec. cbn [is_some negb].
    unfold bind at 1. unfold get at 1.
    cbn [drv set_drv ublast_vid ublast_pid ublast_device_desc]. rewrite Ho.
    apply Z.eqb_neq in Hr. rewrite Hr. reflexivity.
  - unfold ublast_init. unfold bind at 1.
    rewrite select_driver_chosen, Ec. reflexivity.
Qed.

(** [ublast_quit] hands the probe one byte 0 in a write of its own, whose
    result it does not look at, and returns what the driver's [close]
    returns; bytes that wait in the buffer are not flushed. *)
Theorem ublast_quit_result s r s' :
  ublast_quit s = Done r s' ->
  exists d1 wr k d2,
    drv (final (ublast_buf_write [0] 1 s)) = Some d1 /\
    drv_close d1 = (r, d2) /\
    drv s' = Some d2 /\
    wlog s' = wlog s ++ [mk_write_call [0] wr k] /\
    buf s' = buf s /\ bufidx s' = bufidx s /\ tap s' = tap s.
Proof.
  unfold ublast_quit. intros H.
  apply bind_Done in H. destruct H as ([wr k] & s1 & Hw & H).
  rewrite Hw. cbn [final].
  pose proof (preserves_Done _ _ _ _ _ (buf_write_tap _ _) Hw) as Ht.
  apply buf_write_Done in Hw. destruct Hw as (Hb & Hi & Hl).
  destruct (drv s1) as [d1|] eqn:Ed; [|discriminate H].
  destruct (drv_close d1) as [rc d2] eqn:Ec. inversion H; subst r s'; clear H.
  exists d1, wr, k, d2. cbn [drv set_drv wlog buf bufidx tap].
  repeat split; try assumption.
Qed.

(** ** The configuration commands *)

(** [usb_blaster (pin6|pin8) (0|1)] with anything wrong in it changes
    nothing: another count of arguments than two, a state that is neither 0
    nor 1 and a pin name that is neither pin6 nor pin8 give
    [ERROR_COMMAND_SYNTAX_ERROR], and a state that does not parse gives the
    parser's code. *)
Theorem pin_command_rejects argv s :
  (length argv <> 2%nat ->
   ublast_handle_pin_command argv s = Done ERROR_COMMAND_SYNTAX_ERROR s) /\
  (forall pin_name a1,
     argv = [pin_name; a1] ->
     fst (parse_uint a1 0) <> ERROR_OK ->
     ublast_handle_pin_command argv s = Done (fst (parse_uint a1 0)) s) /\
  (forall pin_name a1,
     argv = [pin_name; a1] ->
     fst (parse_uint a1 0) = ERROR_OK ->
     (snd (parse_uint a1 0) <> 0 /\ snd (parse_uint a1 0) <> 1) \/
     (pin_name <> "pin6"%string /\ pin_name <> "pin8"%string) ->
     ublast_handle_pin_command argv s = Done ERROR_COMMAND_SYNTAX_ERROR s).
Proof.
  split; [|split].
  - intros Hl. destruct argv as [|a [|b [|c rest]]]; try reflexivity.
    exfalso. apply Hl. reflexivity.
  - intros pin_name a1 -> Hr. unfold ublast_handle_pin_command.
    destruct (parse_uint a1 0) as [r v]. simpl in *.
    apply Z.eqb_neq in Hr. rewrite Hr. reflexivity.
  - intros pin_name a1 -> Hr Hbad. unfold ublast_handle_pin_command.
    destruct (parse_uint a1 0) as [r v]. simpl in *. subst r.
    change (ERROR_OK =? ERROR_OK) with true. cbn [negb].
    destruct (negb (v =? 0) && negb (v =? 1)) eqn:Cv; [reflexivity|].
    destruct Hbad as [[H0 H1]|[H6 H8]].
    + apply Z.eqb_neq in H0, H1. rewrite H0, H1 in Cv. discriminate Cv.
    + apply String.eqb_neq in H6, H8. rewrite H6, H8. reflexivity.
Qed.

Lemma queue_pins_flushed s0 s :
  buffer_ok s -> is_some (drv s) = true ->
  forall r s',
    (s1 <- get ;;
     (if is_some (drv s1) then
        out_value <- gets (ublast_build_out SCAN_OUT) ;;
        ublast_queue_byte out_value ;;
        ublast_flush_buffer
      else ret tt) ;;
     ret ERROR_OK) s = Done r s' ->
    lines s = lines s0 ->
    r = ERROR_OK /\ bufidx s' = 0 /\
    flushed_as (pending s ++ [ublast_build_out SCAN_OUT s0]) s s'.
Proof.
  intros Hok Hd r s' H Hl.
  apply bind_Done in H. destruct H as (s1 & s1' & Hg & H).
  inversion Hg; subst s1 s1'; clear Hg. rewrite Hd in H.
  apply bind_Done in H. destruct H as (u & s2 & H & Hr).
  inversion Hr; subst r s2; clear Hr. split; [reflexivity|].
  apply bind_Done in H. destruct H as (out & s1 & Hg & H).
  inversion Hg; subst out s1; clear Hg.
  apply bind_Done in H. destruct H as (u1 & s1 & Hq & Hf).
  assert (Eb : to_u8 (ublast_build_out SCAN_OUT s) = ublast_build_out SCAN_OUT s0).
  { unfold ublast_build_out. unfold lines in Hl. injection Hl as E1 E2 E3 E4 E5.
    rewrite E1, E3, E4, E2.
    destruct (tms s0 =? 0), (pin6 s0 =? 0), (pin8 s0 =? 0), (tdi s0 =? 0); reflexivity. }
  apply queue_byte_Done in Hq; [|exact Hok]. rewrite Eb in Hq.
  apply flush_buffer_Done in Hf. destruct Hf as (_ & Hi & Hpos & Hz).
  split; [exact Hi|].
  destruct Hq as (_ & [(Hlt & Hw & Hi1 & Hp)|(Heq & Hi1 & Hfl)]).
  - destruct Hok as [_ Hidx]. specialize (Hpos ltac:(lia)).
    rewrite Hp in Hpos. destruct Hpos as (r & k & more & Hpos).
    exists r, k, more. rewrite Hpos, Hw. reflexivity.
  - specialize (Hz ltac:(lia)). destruct Hfl as (r & k & more & Hfl).
    exists r, k, more. rewrite Hz. exact Hfl.
Qed.

(** [usb_blaster pin6 v] and [usb_blaster pin8 v] with [v] 0 or 1 record the
    pin; before the probe is opened nothing else happens, and on an open
    probe the bytes that were waiting and one bit-bang byte that carries the
    new pin levels are handed to the driver at once. *)
Theorem pin_command_sets pin_name a1 v s r s' :
  parse_uint a1 0 = (ERROR_OK, v) -> v = 0 \/ v = 1 ->
  pin_name = "pin6"%string \/ pin_name = "pin8"%string ->
  buffer_ok s ->
  ublast_handle_pin_command [pin_name; a1] s = Done r s' ->
  let s1 := if String.eqb pin_name "pin6" then set_pin6 v s else set_pin8 v s in
  r = ERROR_OK /\
  match drv s with
  | None => s' = s1
  | Some _ =>
      lines s' = lines s1 /\ bufidx s' = 0 /\
      flushed_as (pending s ++ [ublast_build_out SCAN_OUT s1]) s s'
  end.
Proof.
  intros Hp Hv Hn Hok H. unfold ublast_handle_pin_command in H. rewrite Hp in H.
  change (ERROR_OK =? ERROR_OK) with true in H. cbn [negb] in H.
  replace (negb (v =? 0) && negb (v =? 1)) with false in H
    by (destruct Hv; subst v; reflexivity).
  assert (G : forall (set : Z -> ublast_info -> ublast_info),
            (forall x s, buf (set x s) = buf s /\ bufidx (set x s) = bufidx s /\
                         wlog (set x s) = wlog s /\ drv (set x s) = drv s) ->
            (modify (set v) ;;
             (s1 <- get ;;
              (if is_some (drv s1) then
                 out_value <- gets (ublast_build_out SCAN_OUT) ;;
                 ublast_queue_byte out_value ;;
                 ublast_flush_buffer
               else ret tt) ;;
              ret ERROR_OK)) s = Done r s' ->
            r = ERROR_OK /\
            match drv s with
            | None => s' = set v s
            | Some _ =>
                lines s' = lines (set v s) /\ bufidx s' = 0 /\
                flushed_as (pending s ++ [ublast_build_out SCAN_OUT (set v s)]) s s'
            end).
  { intros set Hset E. destruct (Hset v s) as (Sb & Si & Sw & Sd).
    apply bind_Done in E. destruct E as (u & s2 & Hm & E).
    inversion Hm; subst u s2; clear Hm.
    destruct (drv s) as [d|] eqn:Ed.
    - assert (Hok2 : buffer_ok (set v s)).
      { unfold buffer_ok. rewrite Sb, Si. exact Hok. }
      assert (Hl : lines s' = lines (set v s)).
      { apply bind_Done in E. destruct E as (s3 & s3' & Hg & E).
        inversion Hg; subst s3 s3'; clear Hg. rewrite Sd in E. cbn [is_some] in E.
        apply bind_Done in E. destruct E as (u & s3 & E & Hr).
        inversion Hr; subst s3; clear Hr.
        apply bind_Done in E. destruct E as (out & s4 & Hg & E).
        inversion Hg; subst out s4; clear Hg.
        apply bind_Done in E. destruct E as (u1 & s4 & Hq & Hf).
        pose proof (preserves_Done _ _ _ _ _ (queue_byte_lines _) Hq) as L1.
        pose proof (preserves_Done _ _ _ _ _ flush_buffer_lines Hf) as L2.
        unfold same_lines in *. congruence. }
      destruct (queue_pins_flushed (set v s) (set v s) Hok2
                  ltac:(rewrite Sd; reflexivity) r s' E eq_refl) as (Hr & Hi & Hfl).
      split; [exact Hr|]. split; [exact Hl|]. split; [exact Hi|].
      destruct Hfl as (r0 & k & more & Hfl). exists r0, k, more.
      unfold pending in *. rewrite Sb, Si, Sw in Hfl. exact Hfl.
    - apply bind_Done in E. destruct E as (s3 & s3' & Hg & E).
      inversion Hg; subst s3 s3'; clear Hg. rewrite Sd in E.
      inversion E; subst. auto. }
  destruct Hn as [-> | ->]; cbn [String.eqb Ascii.eqb Bool.eqb] in *.
  - apply (G set_pin6); [|exact H]. intros x s0. auto.
  - apply (G set_pin8); [|exact H]. intros x s0. auto.
Qed.

(** The commands that set the description, the low-level driver and the
    USB ids never fail on the count of their arguments: the first two
    return [ERROR_OK] with nothing changed unless they are given exactly one
    argument, and the ids command returns [ERROR_OK] with nothing changed
    when given fewer than two and ignores what follows the first two. *)
Theorem config_commands_arity argv s :
  (length argv <> 1%nat ->
   ublast_handle_device_desc_command argv s = Done ERROR_OK s /\
   ublast_handle_lowlevel_drv_command argv s = Done ERROR_OK s) /\
  (forall a, argv = [a] ->
     ublast_handle_device_desc_command argv s =
       Done ERROR_OK (set_ublast_device_desc (Some a) s) /\
     ublast_handle_lowlevel_drv_command argv s =
       Done ERROR_OK (set_lowlevel_name (Some a) s)) /\
  ((length argv < 2)%nat ->
   ublast_handle_vid_pid_command argv s = Done ERROR_OK s) /\
  (forall a0 a1 rest, argv = a0 :: a1 :: rest ->
     ublast_handle_vid_pid_command argv s =
     ublast_handle_vid_pid_command [a0; a1] s).
Proof.
  split; [|split; [|split]].
  - intros Hl. destruct argv as [|a [|b rest]]; try (split; reflexivity).
    exfalso. apply Hl. reflexivity.
  - intros a ->. split; reflexivity.
  - intros Hl. destruct argv as [|a [|b rest]]; try reflexivity. simpl in Hl. lia.
  - intros a0 a1 rest ->. unfold ublast_handle_vid_pid_command.
    replace (if Z.of_nat (length (a0 :: a1 :: rest)) >? 2 then 2
             else Z.of_nat (length (a0 :: a1 :: rest))) with 2.
    + reflexivity.
    + destruct (Z.of_nat (length (a0 :: a1 :: rest)) >? 2) eqn:C; [reflexivity|].
      zbool. simpl length in *. lia.
Qed.

(** The ids command stores the vendor id before it parses the product id: a
    product id that does not parse leaves the new vendor id in place, and
    the command returns the parser's code. *)
Theorem vid_pid_command_result a0 a1 s r s' :
  ublast_handle_vid_pid_command [a0; a1] s = Done r s' ->
  ublast_vid s' = snd (parse_u16 a0 (ublast_vid s)) /\
  (fst (parse_u16 a0 (ublast_vid s)) <> ERROR_OK ->
   r = fst (parse_u16 a0 (ublast_vid s)) /\ ublast_pid s' = ublast_pid s) /\
  (fst (parse_u16 a0 (ublast_vid s)) = ERROR_OK ->
   r = fst (parse_u16 a1 (ublast_pid s)) /\
   ublast_pid s' = snd (parse_u16 a1 (ublast_pid s))).
Proof.
  intros H. unfold ublast_handle_vid_pid_command in H.
  change (Z.of_nat (length [a0; a1])) with 2 in H.
  change (2 >? 2) with false in H. cbv iota in H.
  change (2 =? 2) with true in H. cbv iota in H.
  apply bind_Done in H. destruct H as (s0 & s0' & Hg & H).
  inversion Hg; subst s0 s0'; clear Hg.
  destruct (parse_u16 a0 (ublast_vid s)) as [r0 v]. cbn [fst snd].
  apply bind_Done in H. destruct H as (u & s1 & Hm & H).
  inversion Hm; subst u s1; clear Hm.
  destruct (r0 =? ERROR_OK) eqn:C0; zbool; cbn [negb] in H.
  - apply bind_Done in H. destruct H as (s0 & s0' & Hg & H).
    inversion Hg; subst s0 s0'; clear Hg.
    cbn [ublast_pid set_ublast_vid] in H.
    destruct (parse_u16 a1 (ublast_pid s)) as [r1 p]. cbn [fst snd].
    apply bind_Done in H. destruct H as (u & s1 & Hm & H).
    inversion Hm; subst u s1; clear Hm.
    assert (Hs : s' = set_ublast_pid p (set_ublast_vid v s) /\ r = r1).
    { destruct (r1 =? ERROR_OK) eqn:C1; zbool; cbn [negb] in H;
        inversion H; split; congruence. }
    destruct Hs as [-> ->]. cbn. split; [reflexivity|].
    split; [intros N; contradiction|auto].
  - inversion H; subst r s'; clear H. cbn.
    split; [reflexivity|]. split; [auto|intros N; contradiction].
Qed.

(** A low-level driver that is configured by name and cannot be had makes
    [ublast_init] fail without a look at the other driver: a name of the
    map whose registrar answers NULL, or a name that is not in the map when
    no driver is held yet. *)
Theorem named_driver_not_registered name s :
  (name = "ftdi"%string /\ ublast_register_ftdi = None) \/
  (name = "ftd2xx"%string /\ ublast_register_ftd2xx = None) \/
  (name <> "ftdi"%string /\ name <> "ftd2xx"%string /\ drv s = None) ->
  (ublast_handle_lowlevel_drv_command [name] ;; ublast_init) s =
  Done ERROR_JTAG_DEVICE_ERROR (set_drv None (set_lowlevel_name (Some name) s)).
Proof.
  intros H.
  assert (Ec : chosen_driver (set_lowlevel_name (Some name) s) = None).
  { unfold chosen_driver. cbn [lowlevel_name drv set_lowlevel_name].
    destruct H as [[-> E]|[[-> E]|(N1 & N2 & E)]].
    - exact E.
    - exact E.
    - apply not_eq_sym in N1, N2. apply String.eqb_neq in N1, N2.
      rewrite N1, N2. exact E. }
  unfold bind at 1. cbn [ublast_handle_lowlevel_drv_command].
  unfold bind at 1. unfold modify at 1. unfold ret at 1.
  unfold ublast_init. unfold bind at 1.
  rewrite select_driver_chosen, Ec. reflexivity.
Qed.

End Driver.

(** ** A bench probe

    A low-level driver with no state of its own that takes every write
    whole and answers every read with as many zero bytes as were asked
    for, the TAP of IEEE 1149.1, and scan commands that carry their
    direction, bit count and buffer. *)

Definition bench_drv : Type := ublast_lowlevel unit.

Definition bench_write (bytes : list Z) (d : bench_drv) : (Z * Z) * bench_drv :=
  ((ERROR_OK, Z.of_nat (length bytes)), d).

Definition bench_read (size : Z) (d : bench_drv) : (Z * list Z) * bench_drv :=
  ((ERROR_OK, repeat 0 (Z.to_nat size)), d).

Definition bench_open (d : bench_drv) : Z * bench_drv := (ERROR_OK, d).

(** A driver whose writes all fail. *)
Definition broken_write (bytes : list Z) (d : bench_drv) : (Z * Z) * bench_drv :=
  ((ERROR_JTAG_DEVICE_ERROR, 0), d).

Definition bench_probe : option bench_drv := Some (mk_lowlevel unit 0 0 None tt).

Definition ieee_transition (s : tap_state) (tms_v : bool) : tap_state :=
  match s, tms_v with
  | TAP_RESET, true => TAP_RESET        | TAP_RESET, false => TAP_IDLE
  | TAP_IDLE, true => TAP_DRSELECT      | TAP_IDLE, false => TAP_IDLE
  | TAP_DRSELECT, true => TAP_IRSELECT  | TAP_DRSELECT, false => TAP_DRCAPTURE
  | TAP_DRCAPTURE, true => TAP_DREXIT1  | TAP_DRCAPTURE, false => TAP_DRSHIFT
  | TAP_DRSHIFT, true => TAP_DREXIT1    | TAP_DRSHIFT, false => TAP_DRSHIFT
  | TAP_DREXIT1, true => TAP_DRUPDATE   | TAP_DREXIT1, false => TAP_DRPAUSE
  | TAP_DRPAUSE, true => TAP_DREXIT2    | TAP_DRPAUSE, false => TAP_DRPAUSE
  | TAP_DREXIT2, true => TAP_DRUPDATE   | TAP_DREXIT2, false => TAP_DRSHIFT
  | TAP_DRUPDATE, true => TAP_DRSELECT  | TAP_DRUPDATE, false => TAP_IDLE
  | TAP_IRSELECT, true => TAP_RESET     | TAP_IRSELECT, false => TAP_IRCAPTURE
  | TAP_IRCAPTURE, true => TAP_IREXIT1  | TAP_IRCAPTURE, false => TAP_IRSHIFT
  | TAP_IRSHIFT, true => TAP_IREXIT1    | TAP_IRSHIFT, false => TAP_IRSHIFT
  | TAP_IREXIT1, true => TAP_IRUPDATE   | TAP_IREXIT1, false => TAP_IRPAUSE
  | TAP_IRPAUSE, true => TAP_IREXIT2    | TAP_IRPAUSE, false => TAP_IRPAUSE
  | TAP_IREXIT2, true => TAP_IRUPDATE   | TAP_IREXIT2, false => TAP_IRSHIFT
  | TAP_IRUPDATE, true => TAP_DRSELECT  | TAP_IRUPDATE, false => TAP_IDLE
  end.

(** A shortest TMS path of at most [n] bits, as (bits, length), first bit
    in bit 0. *)
Fixpoint tms_path_search (n : nat) (from to : tap_state) : option (Z * Z) :=
  if tap_eqb from to then Some (0, 0)
  else
    match n with
    | O => None
    | S n' =>
        let via0 := tms_path_search n' (ieee_transition from false) to in
        let via1 := tms_path_search n' (ieee_transition from true) to in
        match via0, via1 with
        | Some (b0, l0), Some (b1, l1) =>
            if l0 <=? l1 then Some (2 * b0, l0 + 1) else Some (2 * b1 + 1, l1 + 1)
        | Some (b0, l0), None => Some (2 * b0, l0 + 1)
        | None, Some (b1, l1) => Some (2 * b1 + 1, l1 + 1)
        | None, None => None
        end
    end.

Definition bench_tms_path (from to : tap_state) : Z :=
  match tms_path_search 8 from to with Some (b, _) => b | None => 0 end.

Definition bench_tms_path_len (from to : tap_state) : Z :=
  match tms_path_search 8 from to with Some (_, l) => l | None => 0 end.

(** The scan fields of the bench: direction, bit count, buffer. *)
Definition bench_fields : Type := (scan_type * Z * option (list Z))%type.
Definition bench_scan : Type := scan_command bench_fields.

Definition bench_scan_type (cmd : bench_scan) : scan_type := fst (fst (fields _ cmd)).
Definition bench_build_buffer (cmd : bench_scan) : Z * option (list Z) :=
  (snd (fst (fields _ cmd)), snd (fields _ cmd)).
Definition bench_read_buffer (b : option (list Z)) (cmd : bench_scan) : Z := ERROR_OK.

(** The session before [ublast_init], and the session once the bench probe
    is attached, in Run-Test/Idle with an empty buffer. *)
Definition info0 : ublast_info unit :=
  mk_info unit 0 0 0 0 (repeat 0 (Z.to_nat BUF_LEN)) 0 None None None 2555 24577
          TAP_RESET [].

Definition bench_info : ublast_info unit :=
  mk_info unit 0 0 0 0 (repeat 0 (Z.to_nat BUF_LEN)) 0 None bench_probe None 2555 24577
          TAP_IDLE [].

Definition bench_fuel : nat := 100.

Abbreviation bench_queue_tdi :=
  (ublast_queue_tdi unit bench_write bench_read bench_fuel).

Abbreviation bench_run_scan :=
  (ublast_scan unit bench_write bench_read bench_tms_path bench_tms_path_len
              bench_fields bench_scan_type bench_build_buffer bench_read_buffer
              bench_fuel).

Abbreviation bench_execute_queue :=
  (ublast_execute_queue unit bench_write bench_read ieee_transition
                       bench_tms_path bench_tms_path_len
                       bench_fields bench_scan_type bench_build_buffer
                       bench_read_buffer bench_fuel).

(** The same queue run on the driver whose writes fail. *)
Abbreviation broken_execute_queue :=
  (ublast_execute_queue unit broken_write bench_read ieee_transition
                       bench_tms_path bench_tms_path_len
                       bench_fields bench_scan_type bench_build_buffer
                       bench_read_buffer bench_fuel).

Abbreviation bench_init :=
  (ublast_init unit bench_write bench_open bench_probe None bench_fuel).

(** The bytes offered to the driver, write by write. *)
Definition packets (s : ublast_info unit) : list (list Z) :=
  map w_bytes (wlog unit s).

(** C1 as stated fails: 31 TMS clocks and the idle byte leave 63 bytes in the
    buffer; the 16 stable clocks that follow start a byte-shift burst whose
    header is queued as byte 63 of the packet with [N = 0] in its low six
    bits, and no payload. *)
Lemma queue_tdi_burst_of_zero_bytes :
  exists r s' packet rest,
    bench_execute_queue
      [JTAG_TMS _ (mk_tms_command 31 [255; 255; 255; 255]);
       JTAG_STABLECLOCKS _ 16] bench_info = Done r s' /\
    packets s' = packet :: rest /\
    length packet = 64%nat /\
    nth 63 packet 0 = shift_header false 0 /\
    Z.land (nth 63 packet 0) SHMODE = SHMODE /\
    Z.land (nth 63 packet 0) 63 = 0 /\
    ~ (1 <= Z.land (nth 63 packet 0) 63).
Proof.
  do 4 eexists. split; [vm_compute; reflexivity|].
  split; [vm_compute; reflexivity|].
  split; [reflexivity|].
  split; [reflexivity|].
  split; [reflexivity|].
  split; [reflexivity|].
  vm_compute. intros H. apply H. reflexivity.
Qed.

Lemma byteshift_burst_packet_witness :
  exists payload,
    1 <= burst_len unit bench_info 3 0 <= 63 /\
    Z.of_nat (length payload) = burst_len unit bench_info 3 0 /\
    pending unit
      (final (byteshift_burst unit bench_write bench_read bench_fuel
                (Some [1; 2; 3]) false 0 (burst_len unit bench_info 3 0) []
                bench_info)) =
    pending unit bench_info ++
      shift_header false (burst_len unit bench_info 3 0) :: payload.
Proof.
  destruct (byteshift_burst unit bench_write bench_read bench_fuel
              (Some [1; 2; 3]) false 0 (burst_len unit bench_info 3 0) []
              bench_info) as [t s'|f s'] eqn:E;
    [|vm_compute in E; discriminate E].
  assert (Hok : buffer_ok unit bench_info).
  { split; [reflexivity|]. vm_compute. split; intros C; discriminate C. }
  assert (Hi : 0 < 3) by reflexivity.
  destruct (byteshift_burst_packet unit bench_write bench_read bench_fuel
              (Some [1; 2; 3]) false 3 0 [] bench_info t s' Hok Hi E)
    as (payload & _ & H63 & H1 & _ & _ & Hlen & _ & Hq & _).
  exists payload. split; [|split; [exact Hlen|]].
  - split; [|apply H63]. apply H1. vm_compute. intros C; discriminate C.
  - destruct Hq as [[_ Hp]|[Hz _]]; [exact Hp|].
    exfalso. vm_compute in E. inversion E; subst s'. vm_compute in Hz. discriminate Hz.
Defined.

(** C2 as stated fails: for 8 bits with no exit requested
    ([NO_TAP_SHIFT]) the borrow is made all the same, and the byte goes out
    as 8 bit-bang clocks with no byte-shift header. *)
Lemma tdi_split_borrows_without_exit :
  tdi_split 8 = (0, 8) /\
  tdi_split_on_exit 8 NO_TAP_SHIFT = (1, 0) /\
  pending unit (final (bench_queue_tdi (Some [165]) 8 SCAN_OUT NO_TAP_SHIFT bench_info)) =
    [48; 49; 32; 33; 48; 49; 32; 33; 32; 33; 48; 49; 32; 33; 48; 49; 48].
Proof.
  split; [vm_compute; reflexivity|].
  split; vm_compute; reflexivity.
Qed.

(** C3 as stated fails: after an IR scan whose end state is DRSHIFT the
    recorded TAP state is IRSHIFT. *)
Lemma ir_scan_ending_in_drshift_records_irshift :
  exists r s',
    bench_run_scan (mk_scan bench_fields true (SCAN_OUT, 4, Some [11]) TAP_DRSHIFT)
                   bench_info = Done r s' /\
    tap unit s' = TAP_IRSHIFT /\ tap unit s' <> TAP_DRSHIFT.
Proof.
  do 2 eexists. split; [vm_compute; reflexivity|].
  split; [reflexivity|]. intros C; discriminate C.
Qed.

Lemma ublast_scan_recorded_state_witness :
  tap unit (final (bench_run_scan
                     (mk_scan bench_fields true (SCAN_IO, 4, Some [11]) TAP_IRPAUSE)
                     bench_info)) = TAP_IRPAUSE /\
  tap unit (final (bench_run_scan
                     (mk_scan bench_fields false (SCAN_IO, 12, Some [11; 2]) TAP_DRSHIFT)
                     bench_info)) = TAP_DRSHIFT.
Proof.
  split.
  - destruct (bench_run_scan
                (mk_scan bench_fields true (SCAN_IO, 4, Some [11]) TAP_IRPAUSE)
                bench_info) as [r s'|f s'] eqn:E;
      [|vm_compute in E; discriminate E].
    pose proof (ublast_scan_recorded_state unit bench_write bench_read bench_tms_path
                  bench_tms_path_len bench_fields bench_scan_type bench_build_buffer
                  bench_read_buffer bench_fuel _ bench_info r s' E) as [H _].
    apply H. intros C; discriminate C.
  - destruct (bench_run_scan
                (mk_scan bench_fields false (SCAN_IO, 12, Some [11; 2]) TAP_DRSHIFT)
                bench_info) as [r s'|f s'] eqn:E;
      [|vm_compute in E; discriminate E].
    pose proof (ublast_scan_recorded_state unit bench_write bench_read bench_tms_path
                  bench_tms_path_len bench_fields bench_scan_type bench_build_buffer
                  bench_read_buffer bench_fuel _ bench_info r s' E) as [_ H].
    apply H. reflexivity.
Defined.

(** C7 on the code: opening the bench probe hands the driver one packet of
    64 zero bytes, not two; the five TMS=1 clocks and the idle byte wait in
    the buffer and the recorded state is RESET. *)
Theorem ublast_init_writes_one_packet :
  exists s',
    bench_init info0 = Done ERROR_OK s' /\
    packets s' = [repeat 0 64%nat] /\
    pending unit s' = [34; 35; 34; 35; 34; 35; 34; 35; 34; 35; 34] /\
    tap unit s' = TAP_RESET.
Proof.
  eexists. split; [vm_compute; reflexivity|].
  split; [vm_compute; reflexivity|].
  split; [vm_compute; reflexivity|reflexivity].
Qed.

(** C10 on the code: every write of the driver fails with
    [ERROR_JTAG_DEVICE_ERROR], the one flush of the queue included, and the
    queue still returns [ERROR_OK]. *)
Theorem execute_queue_swallows_write_error :
  exists s' bytes,
    broken_execute_queue
      [JTAG_TLR_RESET _ TAP_RESET;
       JTAG_SCAN _ (mk_scan bench_fields false (SCAN_OUT, 16, Some [1; 2]) TAP_IDLE)]
      bench_info = Done ERROR_OK s' /\
    wlog unit s' = [mk_write_call bytes ERROR_JTAG_DEVICE_ERROR 0] /\
    length bytes = 45%nat.
Proof.
  do 2 eexists. split; [vm_compute; reflexivity|].
  split; [vm_compute; reflexivity|reflexivity].
Qed.

(** The queue of commands used on the bench: a reset, a 16-bit DR scan that
    reads TDO back, 70 idle clocks and a pause. *)
Definition bench_queue : list (jtag_command bench_fields) :=
  [ JTAG_TLR_RESET _ TAP_RESET;
    JTAG_SCAN _ (mk_scan bench_fields false (SCAN_IO, 16, Some [1; 2]) TAP_IDLE);
    JTAG_RUNTEST _ 70 TAP_IDLE;
    JTAG_SLEEP _ 1000 ].

Lemma execute_queue_buffer_witness :
  exists r s',
    bench_execute_queue bench_queue bench_info = Done r s' /\
    (exists r1 s1,
       execute_loop unit bench_write bench_read ieee_transition bench_tms_path
                    bench_tms_path_len bench_fields bench_scan_type
                    bench_build_buffer bench_read_buffer bench_fuel
                    (firstn 2 bench_queue) ERROR_OK bench_info = Done r1 s1 /\
       buffer_ok unit s1) /\
    buffer_ok unit s' /\ bufidx unit s' = 0.
Proof.
  destruct (bench_execute_queue bench_queue bench_info) as [r s'|f s'] eqn:E;
    [|vm_compute in E; discriminate E].
  exists r, s'. split; [reflexivity|].
  assert (Hok : buffer_ok unit bench_info).
  { split; [reflexivity|]. vm_compute. split; intros C; discriminate C. }
  destruct (execute_queue_buffer unit bench_write bench_read ieee_transition
              bench_tms_path bench_tms_path_len bench_fields bench_scan_type
              bench_build_buffer bench_read_buffer bench_fuel)
    as (_ & _ & _ & _ & Hq).
  destruct (Hq bench_queue bench_info r s' Hok E) as (Hpre & Hb & Hz).
  split; [|split; [exact Hb|exact Hz]].
  exact (Hpre (firstn 2 bench_queue) (skipn 2 bench_queue) eq_refl).
Defined.

Lemma execute_queue_result_witness :
  exists s', broken_execute_queue bench_queue bench_info = Done ERROR_OK s'.
Proof.
  destruct (broken_execute_queue bench_queue bench_info) as [r s'|f s'] eqn:E;
    [|vm_compute in E; discriminate E].
  exists s'. f_equal.
  exact (execute_queue_result unit broken_write bench_read ieee_transition
           bench_tms_path bench_tms_path_len bench_fields bench_scan_type
           bench_build_buffer bench_read_buffer bench_fuel
           bench_queue bench_info r s' (fun _ _ => eq_refl) E).
Defined.

(** ** More of the bench: drivers that take writes in part, and a parser *)

(** A driver that takes at most two bytes of a write. *)
Definition short_write (bytes : list Z) (d : bench_drv) : (Z * Z) * bench_drv :=
  ((ERROR_OK, Z.min 2 (Z.of_nat (length bytes))), d).

Definition bench_close (d : bench_drv) : Z * bench_drv := (ERROR_OK, d).

(** A driver that does not open. *)
Definition locked_open (d : bench_drv) : Z * bench_drv := (ERROR_FAIL, d).

(** The bench session with [bytes] waiting in the buffer. *)
Definition bench_pending (bytes : list Z) : ublast_info unit :=
  mk_info unit 0 0 0 0 (bytes ++ repeat 0 (Z.to_nat BUF_LEN - length bytes)) 
          (Z.of_nat (length bytes)) None bench_probe None 2555 24577 TAP_IDLE [].

(** Decimal numbers; anything else is a syntax error that leaves the
    number as it was. *)
Definition digit_of (c : Ascii.ascii) : option Z :=
  let n := Z.of_N (Ascii.N_of_ascii c) - 48 in
  if (0 <=? n) && (n <=? 9) then Some n else None.

Fixpoint parse_dec (str : String.string) (acc : Z) : option Z :=
  match str with
  | String.EmptyString => Some acc
  | String.String c rest =>
      match digit_of c with
      | Some d => parse_dec rest (10 * acc + d)
      | None => None
      end
  end.

Definition bench_parse (limit : Z) (str : String.string) (old : Z) : Z * Z :=
  match str with
  | String.EmptyString => (ERROR_COMMAND_SYNTAX_ERROR, old)
  | _ =>
      match parse_dec str 0 with
      | Some v => if v <=? limit then (ERROR_OK, v) else (ERROR_COMMAND_SYNTAX_ERROR, old)
      | None => (ERROR_COMMAND_SYNTAX_ERROR, old)
      end
  end.

Definition bench_parse_u16 : String.string -> Z -> Z * Z := bench_parse 65535.
Definition bench_parse_uint : String.string -> Z -> Z * Z := bench_parse 4294967295.

Abbreviation bench_pin_command :=
  (ublast_handle_pin_command unit bench_write bench_fuel bench_parse_uint).

Abbreviation bench_vid_pid_command :=
  (ublast_handle_vid_pid_command unit bench_parse_u16).

Lemma flush_buffer_one_write_witness :
  ublast_flush_buffer unit broken_write bench_fuel (bench_pending [34; 35; 34]) =
  Done tt (set_bufidx unit 0
             (log_write unit (mk_write_call [34; 35; 34] ERROR_JTAG_DEVICE_ERROR 0)
                        (bench_pending [34; 35; 34]))).
Proof.
  apply (flush_buffer_one_write unit broken_write bench_fuel
           (bench_pending [34; 35; 34]) (mk_lowlevel unit 0 0 None tt)
           ERROR_JTAG_DEVICE_ERROR 0 (mk_lowlevel unit 0 0 None tt)).
  - discriminate.
  - reflexivity.
  - reflexivity.
  - reflexivity.
  - left. discriminate.
Defined.

Lemma flush_buffer_short_write_witness :
  exists r2 k2 more,
    wlog unit (final (ublast_flush_buffer unit short_write bench_fuel
                        (bench_pending [34; 35; 32; 33; 48]))) =
    mk_write_call [34; 35; 32; 33; 48] ERROR_OK 2 ::
    mk_write_call [34; 35; 32] r2 k2 :: more.
Proof.
  destruct (ublast_flush_buffer unit short_write bench_fuel
              (bench_pending [34; 35; 32; 33; 48])) as [u s'|f s'] eqn:E;
    [|vm_compute in E; discriminate E].
  destruct (flush_buffer_short_write unit short_write bench_fuel
              (bench_pending [34; 35; 32; 33; 48]) (mk_lowlevel unit 0 0 None tt)
              2 (mk_lowlevel unit 0 0 None tt) u s')
    as (r2 & k2 & more & H).
  - reflexivity.
  - vm_compute. intros C; discriminate C.
  - split; reflexivity.
  - reflexivity.
  - exact E.
  - exists r2, k2, more. exact H.
Defined.

Lemma unpack_tdos_bits_witness :
  exists b',
    unpack_tdos 3 0 [1; 0; 1; 0; 0; 0; 0; 0] 0 = Some b' /\
    Z.testbit b' 0 = true /\ Z.testbit b' 1 = false /\ Z.testbit b' 2 = true.
Proof.
  destruct (unpack_tdos 3 0 [1; 0; 1; 0; 0; 0; 0; 0] 0) as [b'|] eqn:E;
    [|vm_compute in E; discriminate E].
  exists b'. split; [reflexivity|].
  destruct (unpack_tdos_bits 3 [1; 0; 1; 0; 0; 0; 0; 0] 0 b') as (_ & Hb & _).
  - split; intros C; discriminate C.
  - split; [intros C; discriminate C|reflexivity].
  - exact E.
  - destruct (Hb 0 ltac:(lia)) as (t0 & E0 & H0).
    destruct (Hb 1 ltac:(lia)) as (t1 & E1 & H1).
    destruct (Hb 2 ltac:(lia)) as (t2 & E2 & H2).
    vm_compute in E0, E1, E2. inversion E0; inversion E1; inversion E2; subst.
    auto.
Defined.

Lemma execute_command_recorded_state_witness :
  tap unit
      (final (execute_command unit bench_write bench_read ieee_transition
                bench_tms_path bench_tms_path_len bench_fields bench_scan_type
                bench_build_buffer bench_read_buffer bench_fuel
                (JTAG_PATHMOVE _ (mk_pathmove 3 [TAP_DRSELECT; TAP_DRCAPTURE; TAP_DRSHIFT]))
                ERROR_OK bench_info)) = TAP_DRSHIFT.
Proof.
  destruct (execute_command unit bench_write bench_read ieee_transition
              bench_tms_path bench_tms_path_len bench_fields bench_scan_type
              bench_build_buffer bench_read_buffer bench_fuel
              (JTAG_PATHMOVE _ (mk_pathmove 3 [TAP_DRSELECT; TAP_DRCAPTURE; TAP_DRSHIFT]))
              ERROR_OK bench_info) as [r s'|f s'] eqn:E;
    [|vm_compute in E; discriminate E].
  destruct (execute_command_recorded_state unit bench_write bench_read ieee_transition
              bench_tms_path bench_tms_path_len bench_fields bench_scan_type
              bench_build_buffer bench_read_buffer bench_fuel
              (JTAG_PATHMOVE _ (mk_pathmove 3 [TAP_DRSELECT; TAP_DRCAPTURE; TAP_DRSHIFT]))
              ERROR_OK bench_info r s' eq_refl E)
    as [_ H].
  exact H.
Defined.

Lemma ublast_quit_result_witness :
  exists wr k,
    wlog unit (final (ublast_quit unit bench_write bench_close
                        (bench_pending [34; 35; 34]))) =
    [mk_write_call [0] wr k] /\
    bufidx unit (final (ublast_quit unit bench_write bench_close
                          (bench_pending [34; 35; 34]))) = 3.
Proof.
  destruct (ublast_quit unit bench_write bench_close (bench_pending [34; 35; 34]))
    as [r s'|f s'] eqn:E; [|vm_compute in E; discriminate E].
  destruct (ublast_quit_result unit bench_write bench_close _ _ _ E)
    as (d1 & wr & k & d2 & _ & _ & _ & Hw & _ & Hi & _).
  exists wr, k. split; [exact Hw|exact Hi].
Defined.

Lemma pin_command_sets_witness :
  exists s',
    bench_pin_command ["pin6"; "1"]%string (bench_pending [34; 35; 34]) =
      Done ERROR_OK s' /\
    pin6 unit s' = 1 /\ bufidx unit s' = 0 /\
    flushed_as unit [34; 35; 34; 36] (bench_pending [34; 35; 34]) s'.
Proof.
  destruct (bench_pin_command ["pin6"; "1"]%string (bench_pending [34; 35; 34]))
    as [r s'|f s'] eqn:E; [|vm_compute in E; discriminate E].
  assert (Hok : buffer_ok unit (bench_pending [34; 35; 34])).
  { split; [reflexivity|]. vm_compute. split; intros C; discriminate C. }
  destruct (pin_command_sets unit bench_write bench_fuel bench_parse_uint
              "pin6"%string "1"%string 1 (bench_pending [34; 35; 34]) r s'
              eq_refl (or_intror eq_refl) (or_introl eq_refl) Hok E)
    as (Hr & Hl & Hi & Hf).
  exists s'. subst r. split; [reflexivity|].
  split; [|split; [exact Hi|exact Hf]].
  unfold lines in Hl. injection Hl as _ _ H6 _ _. exact H6.
Defined.

Lemma vid_pid_command_result_witness :
  exists r s',
    bench_vid_pid_command ["2555"; "pid"]%string bench_info = Done r s' /\
    r = ERROR_COMMAND_SYNTAX_ERROR /\
    ublast_vid unit s' = 2555 /\ ublast_pid unit s' = 24577.
Proof.
  destruct (bench_vid_pid_command ["2555"; "pid"]%string bench_info)
    as [r s'|f s'] eqn:E; [|vm_compute in E; discriminate E].
  destruct (vid_pid_command_result unit bench_parse_u16 _ _ _ _ _ E)
    as (Hv & _ & Hp).
  exists r, s'. split; [reflexivity|].
  destruct (Hp eq_refl) as [Hr Hpid]. auto.
Defined.

Lemma named_driver_not_registered_witness :
  (ublast_handle_lowlevel_drv_command unit ["ftd2xx"%string] ;;
   ublast_init unit bench_write bench_open bench_probe None bench_fuel) info0 =
  Done ERROR_JTAG_DEVICE_ERROR
       (set_drv unit None (set_lowlevel_name unit (Some "ftd2xx"%string) info0)).
Proof.
  apply (named_driver_not_registered unit bench_write bench_open bench_probe None
           bench_fuel "ftd2xx"%string info0).
  right. left. split; reflexivity.
Defined.

(** The bench driver takes every write whole. *)
Lemma bench_accepting : accepting unit bench_write.
Proof. intros bytes d. reflexivity. Qed.

Lemma bench_pending_ok : buffer_ok unit (bench_pending [34; 35; 34]).
Proof. split; [reflexivity|]. vm_compute. split; intros C; discriminate C. Qed.

Lemma tms_seq_stream_witness :
  exists bs,
    length bs = 3%nat /\
    stream unit (final (ublast_tms_seq unit bench_write bench_fuel [5] 3
                          (bench_pending [34; 35; 34]))) =
    [34; 35; 34] ++ tms_wave unit bs (bench_pending [34; 35; 34]).
Proof.
  destruct (ublast_tms_seq unit bench_write bench_fuel [5] 3 (bench_pending [34; 35; 34]))
    as [u s'|f s'] eqn:E; [|vm_compute in E; discriminate E].
  destruct (tms_seq_stream unit bench_write bench_fuel [5] 3
              (bench_pending [34; 35; 34]) u s' bench_accepting bench_pending_ok E)
    as (bs & Hl & _ & S & _).
  exists bs. split; [exact Hl|exact S].
Defined.

Lemma state_move_stream_witness :
  tap unit (final (ublast_state_move unit bench_write bench_tms_path bench_tms_path_len
                     bench_fuel TAP_DRSHIFT (bench_pending [34; 35; 34]))) = TAP_DRSHIFT /\
  exists bs,
    length bs = Z.to_nat (bench_tms_path_len TAP_IDLE TAP_DRSHIFT) /\
    stream unit (final (ublast_state_move unit bench_write bench_tms_path
                          bench_tms_path_len bench_fuel TAP_DRSHIFT
                          (bench_pending [34; 35; 34]))) =
    [34; 35; 34] ++ tms_wave unit bs (bench_pending [34; 35; 34]).
Proof.
  destruct (ublast_state_move unit bench_write bench_tms_path bench_tms_path_len
              bench_fuel TAP_DRSHIFT (bench_pending [34; 35; 34]))
    as [u s'|f s'] eqn:E; [|vm_compute in E; discriminate E].
  destruct (state_move_stream unit bench_write bench_tms_path bench_tms_path_len
              bench_fuel TAP_DRSHIFT (bench_pending [34; 35; 34]) u s'
              bench_accepting bench_pending_ok E) as [Ht Hs].
  split; [exact Ht|].
  change (exists bs,
            length bs = Z.to_nat (bench_tms_path_len TAP_IDLE TAP_DRSHIFT) /\
            (forall k, (k < length bs)%nat ->
               nth k bs 0 =
               Z.land (Z.shiftr (to_u8 (bench_tms_path TAP_IDLE TAP_DRSHIFT))
                                (Z.of_nat k)) 1) /\
            stream unit s' =
            stream unit (bench_pending [34; 35; 34]) ++
            tms_wave unit bs (bench_pending [34; 35; 34])) in Hs.
  destruct Hs as (bs & Hl & _ & S). exists bs. split; [exact Hl|exact S].
Defined.

Lemma path_move_stream_witness :
  stream unit (final (ublast_path_move unit bench_write ieee_transition bench_fuel
                        (mk_pathmove 3 [TAP_DRSELECT; TAP_DRCAPTURE; TAP_DRSHIFT])
                        (bench_pending [34; 35; 34]))) =
  [34; 35; 34] ++ tms_wave unit [1; 0; 0] (bench_pending [34; 35; 34]).
Proof.
  destruct (ublast_path_move unit bench_write ieee_transition bench_fuel
              (mk_pathmove 3 [TAP_DRSELECT; TAP_DRCAPTURE; TAP_DRSHIFT])
              (bench_pending [34; 35; 34]))
    as [u s'|f s'] eqn:E; [|vm_compute in E; discriminate E].
  exact (path_move_stream unit bench_write ieee_transition bench_fuel
           (mk_pathmove 3 [TAP_DRSELECT; TAP_DRCAPTURE; TAP_DRSHIFT])
           (bench_pending [34; 35; 34]) u s' bench_accepting bench_pending_ok E).
Defined.

Lemma queue_tdi_stream_witness :
  exists chunks,
    concat chunks = [165] /\
    stream unit (final (bench_queue_tdi (Some [165; 3]) 12 SCAN_OUT TAP_SHIFT
                          (bench_pending [34; 35; 34]))) =
    [34; 35; 34] ++ burst_bytes false chunks ++
    bitbang_bytes unit SCAN_OUT true [1; 1; 0; 0] (bench_pending [34; 35; 34]) ++
    [ublast_build_out unit SCAN_OUT
       (final (bench_queue_tdi (Some [165; 3]) 12 SCAN_OUT TAP_SHIFT
                 (bench_pending [34; 35; 34])))] /\
    tms unit (final (bench_queue_tdi (Some [165; 3]) 12 SCAN_OUT TAP_SHIFT
                       (bench_pending [34; 35; 34]))) = 1.
Proof.
  destruct (bench_queue_tdi (Some [165; 3]) 12 SCAN_OUT TAP_SHIFT
              (bench_pending [34; 35; 34]))
    as [r s'|f s'] eqn:E; [|vm_compute in E; discriminate E].
  destruct (queue_tdi_stream unit bench_write bench_read bench_fuel
              (Some [165; 3]) 12 SCAN_OUT TAP_SHIFT (bench_pending [34; 35; 34]) r s'
              bench_accepting bench_pending_ok E)
    as (chunks & _ & Hc & S & Tm & _).
  exists chunks. split; [exact Hc|]. split; [exact S|exact Tm].
Defined.

End UBlast.

(** * The MIPS32 EJTAG PrAcc engine ([mips32.h], [mips32_pracc.c]) *)

Module Pracc.

(** ** Instruction encoders ([mips32.h]) *)

Definition MIPS32NUMCOREREGS : Z := 38.

Definition MIPS32_OP_BEQ : Z := 0x04.
Definition MIPS32_OP_BNE : Z := 0x05.
Definition MIPS32_OP_ADDI : Z := 0x08.
Definition MIPS32_OP_AND : Z := 0x24.
Definition MIPS32_OP_COP0 : Z := 0x10.
Definition MIPS32_OP_JR : Z := 0x08.
Definition MIPS32_OP_LUI : Z := 0x0F.
Definition MIPS32_OP_LW : Z := 0x23.
Definition MIPS32_OP_LBU : Z := 0x24.
Definition MIPS32_OP_LHU : Z := 0x25.
Definition MIPS32_OP_MFHI : Z := 0x10.
Definition MIPS32_OP_MTHI : Z := 0x11.
Definition MIPS32_OP_MFLO : Z := 0x12.
Definition MIPS32_OP_MTLO : Z := 0x13.
Definition MIPS32_OP_SB : Z := 0x28.
Definition MIPS32_OP_SH : Z := 0x29.
Definition MIPS32_OP_SW : Z := 0x2B.
Definition MIPS32_OP_ORI : Z := 0x0D.
Definition MIPS32_OP_XOR : Z := 0x26.
Definition MIPS32_OP_SRL : Z := 0x03.

Definition MIPS32_COP0_MF : Z := 0x00.
Definition MIPS32_COP0_MT : Z := 0x04.

(** The words are stored in [uint32_t] arrays. *)
Definition MIPS32_R_INST (opcode rs rt rd shamt funct : Z) : Z :=
  to_u32 (Z.lor (Z.lor (Z.lor (Z.lor (Z.lor (Z.shiftl opcode 26) (Z.shiftl rs 21))
                                     (Z.shiftl rt 16))
                              (Z.shiftl rd 11))
                       (Z.shiftl shamt 6))
                funct).

Definition MIPS32_I_INST (opcode rs rt immd : Z) : Z :=
  to_u32 (Z.lor (Z.lor (Z.lor (Z.shiftl opcode 26) (Z.shiftl rs 21)) (Z.shiftl rt 16)) immd).

Definition MIPS32_J_INST (opcode addr : Z) : Z :=
  to_u32 (Z.lor (Z.shiftl opcode 26) addr).

Definition MIPS32_NOP : Z := 0.
Definition MIPS32_ADDI (tar src val : Z) : Z := MIPS32_I_INST MIPS32_OP_ADDI src tar val.
Definition MIPS32_AND (reg off val : Z) : Z := MIPS32_R_INST 0 off val reg 0 MIPS32_OP_AND.
Definition MIPS32_BEQ (src tar off : Z) : Z := MIPS32_I_INST MIPS32_OP_BEQ src tar off.
Definition MIPS32_B (off : Z) : Z := MIPS32_BEQ 0 0 off.
Definition MIPS32_BNE (src tar off : Z) : Z := MIPS32_I_INST MIPS32_OP_BNE src tar off.
Definition MIPS32_JR (reg : Z) : Z := MIPS32_R_INST 0 reg 0 0 0 MIPS32_OP_JR.
Definition MIPS32_MFC0 (gpr cpr sel : Z) : Z :=
  MIPS32_R_INST MIPS32_OP_COP0 MIPS32_COP0_MF gpr cpr 0 sel.
Definition MIPS32_MTC0 (gpr cpr sel : Z) : Z :=
  MIPS32_R_INST MIPS32_OP_COP0 MIPS32_COP0_MT gpr cpr 0 sel.
Definition MIPS32_LBU (reg off base : Z) : Z := MIPS32_I_INST MIPS32_OP_LBU base reg off.
Definition MIPS32_LHU (reg off base : Z) : Z := MIPS32_I_INST MIPS32_OP_LHU base reg off.
Definition MIPS32_LUI (reg val : Z) : Z := MIPS32_I_INST MIPS32_OP_LUI 0 reg val.
Definition MIPS32_LW (reg off base : Z) : Z := MIPS32_I_INST MIPS32_OP_LW base reg off.
Definition MIPS32_MFLO (reg : Z) : Z := MIPS32_R_INST 0 0 0 reg 0 MIPS32_OP_MFLO.
Definition MIPS32_MFHI (reg : Z) : Z := MIPS32_R_INST 0 0 0 reg 0 MIPS32_OP_MFHI.
Definition MIPS32_MTLO (reg : Z) : Z := MIPS32_R_INST 0 reg 0 0 0 MIPS32_OP_MTLO.
Definition MIPS32_MTHI (reg : Z) : Z := MIPS32_R_INST 0 reg 0 0 0 MIPS32_OP_MTHI.
Definition MIPS32_ORI (tar src val : Z) : Z := MIPS32_I_INST MIPS32_OP_ORI src tar val.
Definition MIPS32_SB (reg off base : Z) : Z := MIPS32_I_INST MIPS32_OP_SB base reg off.
Definition MIPS32_SH (reg off base : Z) : Z := MIPS32_I_INST MIPS32_OP_SH base reg off.
Definition MIPS32_SW (reg off base : Z) : Z := MIPS32_I_INST MIPS32_OP_SW base reg off.
Definition MIPS32_XOR (reg val1 val2 : Z) : Z := MIPS32_R_INST 0 val1 val2 reg 0 MIPS32_OP_XOR.
Definition MIPS32_SRL (reg src off : Z) : Z := MIPS32_R_INST 0 0 src reg off MIPS32_OP_SRL.

Definition MIPS32_DRET : Z := 0x4200001F.
Definition MIPS32_SDBBP : Z := 0x7000003F.
Definition MIPS16_SDBBP : Z := 0xE801.

Section Engine.

(** The addresses of the debug memory segment and the 16-bit helpers of
    [mips32_pracc.h], which the surrounding MIPS environment supplies. *)
Variable MIPS32_PRACC_TEXT : Z.
Variable MIPS32_PRACC_STACK : Z.
Variable MIPS32_PRACC_PARAM_IN : Z.
Variable MIPS32_PRACC_PARAM_OUT : Z.
Variable MIPS32_PRACC_FASTDATA_AREA : Z.
Variable MIPS32_FASTDATA_HANDLER_SIZE : Z.
Variable UPPER16 : Z -> Z.
Variable LOWER16 : Z -> Z.
Variable NEG16 : Z -> Z.

(** ** The instruction stubs ([static const uint32_t code[]] of each primitive) *)

Definition read_mem32_code : list Z :=
  [ MIPS32_MTC0 15 31 0;
    MIPS32_LUI 15 (UPPER16 MIPS32_PRACC_STACK);
    MIPS32_ORI 15 15 (LOWER16 MIPS32_PRACC_STACK);
    MIPS32_SW 8 0 15;
    MIPS32_SW 9 0 15;
    MIPS32_SW 10 0 15;
    MIPS32_SW 11 0 15;
    MIPS32_LUI 8 (UPPER16 MIPS32_PRACC_PARAM_IN);
    MIPS32_ORI 8 8 (LOWER16 MIPS32_PRACC_PARAM_IN);
    MIPS32_LW 9 0 8;
    MIPS32_LW 10 4 8;
    MIPS32_LUI 11 (UPPER16 MIPS32_PRACC_PARAM_OUT);
    MIPS32_ORI 11 11 (LOWER16 MIPS32_PRACC_PARAM_OUT);
    MIPS32_BEQ 0 10 8;
    MIPS32_NOP;
    MIPS32_LW 8 0 9;
    MIPS32_SW 8 0 11;
    MIPS32_ADDI 10 10 (NEG16 1);
    MIPS32_ADDI 9 9 4;
    MIPS32_ADDI 11 11 4;
    MIPS32_B (NEG16 8);
    MIPS32_NOP;
    MIPS32_LW 11 0 15;
    MIPS32_LW 10 0 15;
    MIPS32_LW 9 0 15;
    MIPS32_LW 8 0 15;
    MIPS32_B (NEG16 27);
    MIPS32_MFC0 15 31 0 ].

Definition read_u32_code : list Z :=
  [ MIPS32_MTC0 15 31 0;
    MIPS32_LUI 15 (UPPER16 MIPS32_PRACC_STACK);
    MIPS32_ORI 15 15 (LOWER16 MIPS32_PRACC_STACK);
    MIPS32_SW 8 0 15;
    MIPS32_LW 8 (NEG16 (MIPS32_PRACC_STACK - MIPS32_PRACC_PARAM_IN)) 15;
    MIPS32_LW 8 0 8;
    MIPS32_SW 8 (NEG16 (MIPS32_PRACC_STACK - MIPS32_PRACC_PARAM_OUT)) 15;
    MIPS32_LW 8 0 15;
    MIPS32_B (NEG16 9);
    MIPS32_MFC0 15 31 0 ].

Definition read_mem16_code : list Z :=
  [ MIPS32_MTC0 15 31 0;
    MIPS32_LUI 15 (UPPER16 MIPS32_PRACC_STACK);
    MIPS32_ORI 15 15 (LOWER16 MIPS32_PRACC_STACK);
    MIPS32_SW 8 0 15;
    MIPS32_SW 9 0 15;
    MIPS32_SW 10 0 15;
    MIPS32_SW 11 0 15;
    MIPS32_LUI 8 (UPPER16 MIPS32_PRACC_PARAM_IN);
    MIPS32_ORI 8 8 (LOWER16 MIPS32_PRACC_PARAM_IN);
    MIPS32_LW 9 0 8;
    MIPS32_LW 10 4 8;
    MIPS32_LUI 11 (UPPER16 MIPS32_PRACC_PARAM_OUT);
    MIPS32_ORI 11 11 (LOWER16 MIPS32_PRACC_PARAM_OUT);
    MIPS32_BEQ 0 10 8;
    MIPS32_NOP;
    MIPS32_LHU 8 0 9;
    MIPS32_SW 8 0 11;
    MIPS32_ADDI 10 10 (NEG16 1);
    MIPS32_ADDI 9 9 2;
    MIPS32_ADDI 11 11 4;
    MIPS32_B (NEG16 8);
    MIPS32_NOP;
    MIPS32_LW 11 0 15;
    MIPS32_LW 10 0 15;
    MIPS32_LW 9 0 15;
    MIPS32_LW 8 0 15;
    MIPS32_B (NEG16 27);
    MIPS32_MFC0 15 30 0 ].

Definition read_mem8_code : list Z :=
  [ MIPS32_MTC0 15 31 0;
    MIPS32_LUI 15 (UPPER16 MIPS32_PRACC_STACK);
    MIPS32_ORI 15 15 (LOWER16 MIPS32_PRACC_STACK);
    MIPS32_SW 8 0 15;
    MIPS32_SW 9 0 15;
    MIPS32_SW 10 0 15;
    MIPS32_SW 11 0 15;
    MIPS32_LUI 8 (UPPER16 MIPS32_PRACC_PARAM_IN);
    MIPS32_ORI 8 8 (LOWER16 MIPS32_PRACC_PARAM_IN);
    MIPS32_LW 9 0 8;
    MIPS32_LW 10 4 8;
    MIPS32_LUI 11 (UPPER16 MIPS32_PRACC_PARAM_OUT);
    MIPS32_ORI 11 11 (LOWER16 MIPS32_PRACC_PARAM_OUT);
    MIPS32_BEQ 0 10 8;
    MIPS32_NOP;
    MIPS32_LBU 8 0 9;
    MIPS32_SW 8 0 11;
    MIPS32_ADDI 10 10 (NEG16 1);
    MIPS32_ADDI 9 9 1;
    MIPS32_ADDI 11 11 4;
    MIPS32_B (NEG16 8);
    MIPS32_NOP;
    MIPS32_LW 11 0 15;
    MIPS32_LW 10 0 15;
    MIPS32_LW 9 0 15;
    MIPS32_LW 8 0 15;
    MIPS32_B (NEG16 27);
    MIPS32_MFC0 15 31 0 ].

Definition write_mem32_code : list Z :=
  [ MIPS32_MTC0 15 31 0;
    MIPS32_LUI 15 (UPPER16 MIPS32_PRACC_STACK);
    MIPS32_ORI 15 15 (LOWER16 MIPS32_PRACC_STACK);
    MIPS32_SW 8 0 15;
    MIPS32_SW 9 0 15;
    MIPS32_SW 10 0 15;
    MIPS32_SW 11 0 15;
    MIPS32_ADDI 8 15 (NEG16 (MIPS32_PRACC_STACK - MIPS32_PRACC_PARAM_IN));
    MIPS32_LW 9 0 8;
    MIPS32_LW 10 4 8;
    MIPS32_ADDI 8 8 8;
    MIPS32_LW 11 0 8;
    MIPS32_SW 11 0 9;
    MIPS32_ADDI 9 9 4;
    MIPS32_BNE 10 9 (NEG16 4);
    MIPS32_ADDI 8 8 4;
    MIPS32_LW 11 0 15;
    MIPS32_LW 10 0 15;
    MIPS32_LW 9 0 15;
    MIPS32_LW 8 0 15;
    MIPS32_B (NEG16 21);
    MIPS32_MFC0 15 31 0 ].

Definition write_u32_code : list Z :=
  [ MIPS32_MTC0 15 31 0;
    MIPS32_LUI 15 (UPPER16 MIPS32_PRACC_STACK);
    MIPS32_ORI 15 15 (LOWER16 MIPS32_PRACC_STACK);
    MIPS32_SW 8 0 15;
    MIPS32_SW 9 0 15;
    MIPS32_LW 8 (NEG16 ((MIPS32_PRACC_STACK - MIPS32_PRACC_PARAM_IN) - 4)) 15;
    MIPS32_LW 9 (NEG16 (MIPS32_PRACC_STACK - MIPS32_PRACC_PARAM_IN)) 15;
    MIPS32_SW 8 0 9;
    MIPS32_LW 9 0 15;
    MIPS32_LW 8 0 15;
    MIPS32_B (NEG16 11);
    MIPS32_MFC0 15 31 0 ].

Definition write_mem16_code : list Z :=
  [ MIPS32_MTC0 15 31 0;
    MIPS32_LUI 15 (UPPER16 MIPS32_PRACC_STACK);
    MIPS32_ORI 15 15 (LOWER16 MIPS32_PRACC_STACK);
    MIPS32_SW 8 0 15;
    MIPS32_SW 9 0 15;
    MIPS32_SW 10 0 15;
    MIPS32_SW 11 0 15;
    MIPS32_LUI 8 (UPPER16 MIPS32_PRACC_PARAM_IN);
    MIPS32_ORI 8 8 (LOWER16 MIPS32_PRACC_PARAM_IN);
    MIPS32_LW 9 0 8;
    MIPS32_LW 10 4 8;
    MIPS32_ADDI 8 8 8;
    MIPS32_BEQ 0 10 8;
    MIPS32_NOP;
    MIPS32_LW 11 0 8;
    MIPS32_SH 11 0 9;
    MIPS32_ADDI 10 10 (NEG16 1);
    MIPS32_ADDI 9 9 2;
    MIPS32_ADDI 8 8 4;
    MIPS32_B (NEG16 8);
    MIPS32_NOP;
    MIPS32_LW 11 0 15;
    MIPS32_LW 10 0 15;
    MIPS32_LW 9 0 15;
    MIPS32_LW 8 0 15;
    MIPS32_B (NEG16 26);
    MIPS32_MFC0 15 31 0 ].

Definition write_mem8_code : list Z :=
  [ MIPS32_MTC0 15 31 0;
    MIPS32_LUI 15 (UPPER16 MIPS32_PRACC_STACK);
    MIPS32_ORI 15 15 (LOWER16 MIPS32_PRACC_STACK);
    MIPS32_SW 8 0 15;
    MIPS32_SW 9 0 15;
    MIPS32_SW 10 0 15;
    MIPS32_SW 11 0 15;
    MIPS32_LUI 8 (UPPER16 MIPS32_PRACC_PARAM_IN);
    MIPS32_ORI 8 8 (LOWER16 MIPS32_PRACC_PARAM_IN);
    MIPS32_LW 9 0 8;
    MIPS32_LW 10 4 8;
    MIPS32_ADDI 8 8 8;
    MIPS32_BEQ 0 10 8;
    MIPS32_NOP;
    MIPS32_LW 11 0 8;
    MIPS32_SB 11 0 9;
    MIPS32_ADDI 10 10 (NEG16 1);
    MIPS32_ADDI 9 9 1;
    MIPS32_ADDI 8 8 4;
    MIPS32_B (NEG16 8);
    MIPS32_NOP;
    MIPS32_LW 11 0 15;
    MIPS32_LW 10 0 15;
    MIPS32_LW 9 0 15;
    MIPS32_LW 8 0 15;
    MIPS32_B (NEG16 26);
    MIPS32_MFC0 15 31 0 ].

Definition write_regs_code : list Z :=
  [ MIPS32_LUI 2 (UPPER16 MIPS32_PRACC_PARAM_IN);
    MIPS32_ORI 2 2 (LOWER16 MIPS32_PRACC_PARAM_IN);
    MIPS32_LW 1 (1 * 4) 2;
    MIPS32_LW 15 (15 * 4) 2;
    MIPS32_MTC0 15 31 0;
    MIPS32_LUI 15 (UPPER16 MIPS32_PRACC_STACK);
    MIPS32_ORI 15 15 (LOWER16 MIPS32_PRACC_STACK);
    MIPS32_SW 1 0 15;
    MIPS32_LUI 1 (UPPER16 MIPS32_PRACC_PARAM_IN);
    MIPS32_ORI 1 1 (LOWER16 MIPS32_PRACC_PARAM_IN);
    MIPS32_LW 3 (3 * 4) 1;
    MIPS32_LW 4 (4 * 4) 1;
    MIPS32_LW 5 (5 * 4) 1;
    MIPS32_LW 6 (6 * 4) 1;
    MIPS32_LW 7 (7 * 4) 1;
    MIPS32_LW 8 (8 * 4) 1;
    MIPS32_LW 9 (9 * 4) 1;
    MIPS32_LW 10 (10 * 4) 1;
    MIPS32_LW 11 (11 * 4) 1;
    MIPS32_LW 12 (12 * 4) 1;
    MIPS32_LW 13 (13 * 4) 1;
    MIPS32_LW 14 (14 * 4) 1;
    MIPS32_LW 16 (16 * 4) 1;
    MIPS32_LW 17 (17 * 4) 1;
    MIPS32_LW 18 (18 * 4) 1;
    MIPS32_LW 19 (19 * 4) 1;
    MIPS32_LW 20 (20 * 4) 1;
    MIPS32_LW 21 (21 * 4) 1;
    MIPS32_LW 22 (22 * 4) 1;
    MIPS32_LW 23 (23 * 4) 1;
    MIPS32_LW 24 (24 * 4) 1;
    MIPS32_LW 25 (25 * 4) 1;
    MIPS32_LW 26 (26 * 4) 1;
    MIPS32_LW 27 (27 * 4) 1;
    MIPS32_LW 28 (28 * 4) 1;
    MIPS32_LW 29 (29 * 4) 1;
    MIPS32_LW 30 (30 * 4) 1;
    MIPS32_LW 31 (31 * 4) 1;
    MIPS32_LW 2 (32 * 4) 1;
    MIPS32_MTC0 2 12 0;
    MIPS32_LW 2 (33 * 4) 1;
    MIPS32_MTLO 2;
    MIPS32_LW 2 (34 * 4) 1;
    MIPS32_MTHI 2;
    MIPS32_LW 2 (35 * 4) 1;
    MIPS32_MTC0 2 8 0;
    MIPS32_LW 2 (36 * 4) 1;
    MIPS32_MTC0 2 13 0;
    MIPS32_LW 2 (37 * 4) 1;
    MIPS32_MTC0 2 24 0;
    MIPS32_LW 2 (2 * 4) 1;
    MIPS32_LW 1 0 15;
    MIPS32_B (NEG16 53);
    MIPS32_MFC0 15 31 0 ].

Definition read_regs_code : list Z :=
  [ MIPS32_MTC0 2 31 0;
    MIPS32_LUI 2 (UPPER16 MIPS32_PRACC_PARAM_OUT);
    MIPS32_ORI 2 2 (LOWER16 MIPS32_PRACC_PARAM_OUT);
    MIPS32_SW 0 (0 * 4) 2;
    MIPS32_SW 1 (1 * 4) 2;
    MIPS32_SW 15 (15 * 4) 2;
    MIPS32_MFC0 2 31 0;
    MIPS32_MTC0 15 31 0;
    MIPS32_LUI 15 (UPPER16 MIPS32_PRACC_STACK);
    MIPS32_ORI 15 15 (LOWER16 MIPS32_PRACC_STACK);
    MIPS32_SW 1 0 15;
    MIPS32_SW 2 0 15;
    MIPS32_LUI 1 (UPPER16 MIPS32_PRACC_PARAM_OUT);
    MIPS32_ORI 1 1 (LOWER16 MIPS32_PRACC_PARAM_OUT);
    MIPS32_SW 2 (2 * 4) 1;
    MIPS32_SW 3 (3 * 4) 1;
    MIPS32_SW 4 (4 * 4) 1;
    MIPS32_SW 5 (5 * 4) 1;
    MIPS32_SW 6 (6 * 4) 1;
    MIPS32_SW 7 (7 * 4) 1;
    MIPS32_SW 8 (8 * 4) 1;
    MIPS32_SW 9 (9 * 4) 1;
    MIPS32_SW 10 (10 * 4) 1;
    MIPS32_SW 11 (11 * 4) 1;
    MIPS32_SW 12 (12 * 4) 1;
    MIPS32_SW 13 (13 * 4) 1;
    MIPS32_SW 14 (14 * 4) 1;
    MIPS32_SW 16 (16 * 4) 1;
    MIPS32_SW 17 (17 * 4) 1;
    MIPS32_SW 18 (18 * 4) 1;
    MIPS32_SW 19 (19 * 4) 1;
    MIPS32_SW 20 (20 * 4) 1;
    MIPS32_SW 21 (21 * 4) 1;
    MIPS32_SW 22 (22 * 4) 1;
    MIPS32_SW 23 (23 * 4) 1;
    MIPS32_SW 24 (24 * 4) 1;
    MIPS32_SW 25 (25 * 4) 1;
    MIPS32_SW 26 (26 * 4) 1;
    MIPS32_SW 27 (27 * 4) 1;
    MIPS32_SW 28 (28 * 4) 1;
    MIPS32_SW 29 (29 * 4) 1;
    MIPS32_SW 30 (30 * 4) 1;
    MIPS32_SW 31 (31 * 4) 1;
    MIPS32_MFC0 2 12 0;
    MIPS32_SW 2 (32 * 4) 1;
    MIPS32_MFLO 2;
    MIPS32_SW 2 (33 * 4) 1;
    MIPS32_MFHI 2;
    MIPS32_SW 2 (34 * 4) 1;
    MIPS32_MFC0 2 8 0;
    MIPS32_SW 2 (35 * 4) 1;
    MIPS32_MFC0 2 13 0;
    MIPS32_SW 2 (36 * 4) 1;
    MIPS32_MFC0 2 24 0;
    MIPS32_SW 2 (37 * 4) 1;
    MIPS32_LW 2 0 15;
    MIPS32_LW 1 0 15;
    MIPS32_B (NEG16 58);
    MIPS32_MFC0 15 31 0 ].

(** [handler_code] of [mips32_pracc_fastdata_xfer] once slots 8 and 9 are
    patched for the direction. *)
Definition handler_code (write_t : Z) : list Z :=
  [ MIPS32_SW 8 (MIPS32_FASTDATA_HANDLER_SIZE - 4) 15;
    MIPS32_SW 9 (MIPS32_FASTDATA_HANDLER_SIZE - 8) 15;
    MIPS32_SW 10 (MIPS32_FASTDATA_HANDLER_SIZE - 12) 15;
    MIPS32_SW 11 (MIPS32_FASTDATA_HANDLER_SIZE - 16) 15;
    MIPS32_LUI 8 (UPPER16 MIPS32_PRACC_FASTDATA_AREA);
    MIPS32_ORI 8 8 (LOWER16 MIPS32_PRACC_FASTDATA_AREA);
    MIPS32_LW 9 0 8;
    MIPS32_LW 10 0 8;
    (if write_t =? 0 then MIPS32_LW 11 0 9 else MIPS32_LW 11 0 8);
    (if write_t =? 0 then MIPS32_SW 11 0 8 else MIPS32_SW 11 0 9);
    MIPS32_BNE 10 9 (NEG16 3);
    MIPS32_ADDI 9 9 4;
    MIPS32_LW 8 (MIPS32_FASTDATA_HANDLER_SIZE - 4) 15;
    MIPS32_LW 9 (MIPS32_FASTDATA_HANDLER_SIZE - 8) 15;
    MIPS32_LW 10 (MIPS32_FASTDATA_HANDLER_SIZE - 12) 15;
    MIPS32_LW 11 (MIPS32_FASTDATA_HANDLER_SIZE - 16) 15;
    MIPS32_LUI 15 (UPPER16 MIPS32_PRACC_TEXT);
    MIPS32_ORI 15 15 (LOWER16 MIPS32_PRACC_TEXT);
    MIPS32_JR 15;
    MIPS32_MFC0 15 31 0 ].

(** [jmp_code] once the address of the work area is or-ed into slots 1 and 2. *)
Definition jmp_code (source_address : Z) : list Z :=
  [ MIPS32_MTC0 15 31 0;
    to_u32 (Z.lor (MIPS32_LUI 15 0) (UPPER16 source_address));
    to_u32 (Z.lor (MIPS32_ORI 15 15 0) (LOWER16 source_address));
    MIPS32_JR 15;
    MIPS32_NOP ].

(** ** The EJTAG link *)

(** The instruction codes and control bits of [mips_ejtag.h]. *)
Variable EJTAG_INST_ADDRESS : Z.
Variable EJTAG_INST_DATA : Z.
Variable EJTAG_INST_CONTROL : Z.
Variable EJTAG_INST_FASTDATA : Z.
Variable EJTAG_CTRL_PRACC : Z.
Variable EJTAG_CTRL_PRNW : Z.

(** The TAP, the probe, the target behind them and the host's clock. *)
Variable W : Type.

(** The link's operations ([mips_ejtag.c], [jtag/core.c], [time_support.c]):
    [mips_ejtag_drscan_32] shifts the word it is given and answers with its
    return code and the word shifted out; [mips_ejtag_fastdata_scan] is
    given the direction and the word. *)
Variable mips_ejtag_set_instr : Z -> W -> W.
Variable mips_ejtag_drscan_32 : Z -> W -> (Z * Z) * W.
Variable mips_ejtag_drscan_32_out : Z -> W -> W.
Variable mips_ejtag_fastdata_scan : Z -> Z -> W -> (Z * Z) * W.
Variable jtag_execute_queue : W -> Z * W.
Variable timeval_ms : W -> Z * W.

(** The budget of iterations given to a loop whose end depends on the target. *)
Variable fuel : nat.

(** What the executor did, in order (ghost: nothing reads it): a call of
    [mips32_pracc_exec] with its sizes and input parameters, an access of
    the target that its loop saw, and the end of the handler that served
    the access. *)
Inductive event : Type :=
| Exec (code_len num_param_in num_param_out cycle : Z) (param_in : option (list Z))
| Access (write : bool) (address : Z)
| Served (write : bool) (address : Z).

(** The link, the two fields of [struct mips_ejtag] that this file reads or
    writes, and the trace. *)
Record pracc_state : Type := mk_state {
  world : W;
  ejtag_ctrl : Z;
  fast_access_save : Z;
  log : list event
}.

Definition set_world (w : W) (s : pracc_state) : pracc_state :=
  mk_state w (ejtag_ctrl s) (fast_access_save s) (log s).
Definition set_fast_access_save (v : Z) (s : pracc_state) : pracc_state :=
  mk_state (world s) (ejtag_ctrl s) v (log s).
Definition record (e : event) (s : pracc_state) : pracc_state :=
  mk_state (world s) (ejtag_ctrl s) (fast_access_save s) (log s ++ [e]).

Definition set_instr (instr : Z) : M pracc_state unit :=
  modify (fun s => set_world (mips_ejtag_set_instr instr (world s)) s).

(** The word shifted out lands in a [uint32_t]. *)
Definition drscan_32 (data : Z) : M pracc_state (Z * Z) :=
  fun s => let '((r, d), w) := mips_ejtag_drscan_32 data (world s) in
           Done (r, to_u32 d) (set_world w s).

Definition drscan_32_out (data : Z) : M pracc_state unit :=
  modify (fun s => set_world (mips_ejtag_drscan_32_out data (world s)) s).

Definition fastdata_scan (write_t data : Z) : M pracc_state (Z * Z) :=
  fun s => let '((r, d), w) := mips_ejtag_fastdata_scan write_t data (world s) in
           Done (r, to_u32 d) (set_world w s).

Definition execute_queue : M pracc_state Z :=
  fun s => let '(r, w) := jtag_execute_queue (world s) in Done r (set_world w s).

Definition now_ms : M pracc_state Z :=
  fun s => let '(t, w) := timeval_ms (world s) in Done t (set_world w s).

(** ** Waiting for the target's access *)

(** The polling loop of [wait_for_pracc_rw]; each scan shifts in the word
    the scan before shifted out. *)
Fixpoint wait_loop (n : nat) (then_ms ctrl : Z) : M pracc_state (Z * Z) :=
  match n with
  | O => stuck OutOfFuel
  | S n' =>
      '(retval, ctrl) <- drscan_32 ctrl ;;
      if negb (retval =? ERROR_OK) then ret (retval, ctrl)
      else if negb (Z.land ctrl EJTAG_CTRL_PRACC =? 0) then ret (ERROR_OK, ctrl)
      else
        t <- now_ms ;;
        if to_int (t - then_ms) >? 1000 then ret (ERROR_JTAG_DEVICE_ERROR, ctrl)
        else wait_loop n' then_ms ctrl
  end.

(** [wait_for_pracc_rw(ejtag_info, &ctrl)]: the return code and, when it is
    [ERROR_OK], the control word stored through [ctrl]. *)
Definition wait_for_pracc_rw : M pracc_state (Z * Z) :=
  then_ms <- now_ms ;;
  set_instr EJTAG_INST_CONTROL ;;
  ctrl <- gets ejtag_ctrl ;;
  retval <- execute_queue ;;
  if negb (retval =? ERROR_OK) then ret (retval, ctrl)
  else wait_loop fuel then_ms ctrl.

(** ** The executor *)

(** A pointer to words: NULL, or an array and the index in it that the
    pointer stands at. *)
Definition ptr : Type := option (list Z * Z).

Definition load (p : ptr) (k : Z) : M pracc_state Z :=
  match p with
  | None => stuck NullPointer
  | Some (a, base) =>
      match aget a (base + k) with
      | Some v => ret v
      | None => stuck (OutOfBounds (base + k))
      end
  end.

Definition store (p : ptr) (k v : Z) : M pracc_state ptr :=
  match p with
  | None => stuck NullPointer
  | Some (a, base) =>
      match aset a (base + k) v with
      | Some a' => ret (Some (a', base))
      | None => stuck (OutOfBounds (base + k))
      end
  end.

(** [struct mips32_pracc_context] ([ejtag_info] is in the state). *)
Record mips32_pracc_context : Type := mk_ctx {
  local_iparam : ptr;
  num_iparam : Z;
  local_oparam : ptr;
  num_oparam : Z;
  code : list Z;
  code_len : Z;
  stack : list Z;
  stack_offset : Z
}.

Definition set_local_iparam (p : ptr) (c : mips32_pracc_context) :=
  mk_ctx p (num_iparam c) (local_oparam c) (num_oparam c) (code c) (code_len c)
         (stack c) (stack_offset c).
Definition set_local_oparam (p : ptr) (c : mips32_pracc_context) :=
  mk_ctx (local_iparam c) (num_iparam c) p (num_oparam c) (code c) (code_len c)
         (stack c) (stack_offset c).
Definition set_stack (st : list Z) (c : mips32_pracc_context) :=
  mk_ctx (local_iparam c) (num_iparam c) (local_oparam c) (num_oparam c) (code c)
         (code_len c) st (stack_offset c).
Definition set_stack_offset (o : Z) (c : mips32_pracc_context) :=
  mk_ctx (local_iparam c) (num_iparam c) (local_oparam c) (num_oparam c) (code c)
         (code_len c) (stack c) o.

(** [base <= address <= base + n * 4] on [uint32_t]. *)
Definition in_area (address base n : Z) : bool :=
  (address >=? base) && (address <=? to_u32 (base + n * 4)).

Definition area_offset (address base : Z) : Z := Z.quot (to_u32 (address - base)) 4.

(** The tail of [mips32_pracc_exec_read]: the word goes out and the access
    is let go. *)
Definition send_data (data : Z) : M pracc_state Z :=
  set_instr EJTAG_INST_DATA ;;
  drscan_32_out data ;;
  ctrl <- gets ejtag_ctrl ;;
  let ctrl := Z.land ctrl (to_u32 (Z.lnot EJTAG_CTRL_PRACC)) in
  set_instr EJTAG_INST_CONTROL ;;
  drscan_32_out ctrl ;;
  execute_queue.

Definition mips32_pracc_exec_read (ctx : mips32_pracc_context) (address : Z)
  : M pracc_state (Z * mips32_pracc_context) :=
  if in_area address MIPS32_PRACC_PARAM_IN (num_iparam ctx) then
    data <- load (local_iparam ctx) (area_offset address MIPS32_PRACC_PARAM_IN) ;;
    r <- send_data data ;; ret (r, ctx)
  else if in_area address MIPS32_PRACC_PARAM_OUT (num_oparam ctx) then
    data <- load (local_oparam ctx) (area_offset address MIPS32_PRACC_PARAM_OUT) ;;
    r <- send_data data ;; ret (r, ctx)
  else if in_area address MIPS32_PRACC_TEXT (code_len ctx) then
    data <- load (Some (code ctx, 0)) (area_offset address MIPS32_PRACC_TEXT) ;;
    r <- send_data data ;; ret (r, ctx)
  else if address =? MIPS32_PRACC_STACK then
    let ctx := set_stack_offset (stack_offset ctx - 1) ctx in
    match aget (stack ctx) (stack_offset ctx) with
    | None => stuck (BadStackIndex (stack_offset ctx))
    | Some data => r <- send_data data ;; ret (r, ctx)
    end
  else ret (ERROR_JTAG_DEVICE_ERROR, ctx).

(** The data scan shifts in the uninitialised [data] of C, taken as 0. *)
Definition mips32_pracc_exec_write (ctx : mips32_pracc_context) (address : Z)
  : M pracc_state (Z * mips32_pracc_context) :=
  set_instr EJTAG_INST_DATA ;;
  '(retval, data) <- drscan_32 0 ;;
  if negb (retval =? ERROR_OK) then ret (retval, ctx)
  else
    ctrl <- gets ejtag_ctrl ;;
    let ctrl := Z.land ctrl (to_u32 (Z.lnot EJTAG_CTRL_PRACC)) in
    set_instr EJTAG_INST_CONTROL ;;
    drscan_32_out ctrl ;;
    retval <- execute_queue ;;
    if negb (retval =? ERROR_OK) then ret (retval, ctx)
    else if in_area address MIPS32_PRACC_PARAM_IN (num_iparam ctx) then
      p <- store (local_iparam ctx) (area_offset address MIPS32_PRACC_PARAM_IN) data ;;
      ret (ERROR_OK, set_local_iparam p ctx)
    else if in_area address MIPS32_PRACC_PARAM_OUT (num_oparam ctx) then
      p <- store (local_oparam ctx) (area_offset address MIPS32_PRACC_PARAM_OUT) data ;;
      ret (ERROR_OK, set_local_oparam p ctx)
    else if address =? MIPS32_PRACC_STACK then
      match aset (stack ctx) (stack_offset ctx) data with
      | None => stuck (BadStackIndex (stack_offset ctx))
      | Some st =>
          ret (ERROR_OK, set_stack_offset (stack_offset ctx + 1) (set_stack st ctx))
      end
    else ret (ERROR_JTAG_DEVICE_ERROR, ctx).

(** How a turn of the loop of [mips32_pracc_exec] ends. *)
Inductive turn : Type :=
| Next (ctx : mips32_pracc_context) (pass : Z)   (* go round again *)
| Break (ctx : mips32_pracc_context)             (* [break] *)
| Return (retval : Z) (ctx : mips32_pracc_context).

(** One turn of the loop of [mips32_pracc_exec]. *)
Definition pracc_turn (cycle : Z) (ctx : mips32_pracc_context) (pass : Z)
  : M pracc_state turn :=
  '(retval, ctrl) <- wait_for_pracc_rw ;;
  if negb (retval =? ERROR_OK) then ret (Return retval ctx)
  else
    set_instr EJTAG_INST_ADDRESS ;;
    '(retval, address) <- drscan_32 0 ;;
    if negb (retval =? ERROR_OK) then ret (Return retval ctx)
    else
      let write := negb (Z.land ctrl EJTAG_CTRL_PRNW =? 0) in
      modify (record (Access write address)) ;;
      if write then
        '(retval, ctx) <- mips32_pracc_exec_write ctx address ;;
        if negb (retval =? ERROR_OK) then ret (Return retval ctx)
        else
          modify (record (Served true address)) ;;
          if cycle =? 0 then ret (Break ctx) else ret (Next ctx pass)
      else if (address =? MIPS32_PRACC_TEXT) && negb (pass =? 0) then ret (Break ctx)
      else
        let pass := if address =? MIPS32_PRACC_TEXT then pass + 1 else pass in
        '(retval, ctx) <- mips32_pracc_exec_read ctx address ;;
        if negb (retval =? ERROR_OK) then ret (Return retval ctx)
        else
          modify (record (Served false address)) ;;
          if cycle =? 0 then ret (Break ctx) else ret (Next ctx pass).

Fixpoint pracc_loop (n : nat) (cycle : Z) (ctx : mips32_pracc_context) (pass : Z)
  : M pracc_state (Z * mips32_pracc_context) :=
  match n with
  | O => stuck OutOfFuel
  | S n' =>
      t <- pracc_turn cycle ctx pass ;;
      match t with
      | Next ctx pass => pracc_loop n' cycle ctx pass
      | Break ctx => ret (ERROR_OK, ctx)
      | Return retval ctx => ret (retval, ctx)
      end
  end.

(** The 32 slots of [ctx.stack], which C leaves uninitialised; a slot is
    read only after it was written as long as pops follow pushes. *)
Definition fresh_stack : list Z := repeat 0 32%nat.

(** The array a pointer points into, for the trace. *)
Definition param_snapshot (p : ptr) : option (list Z) :=
  match p with Some (a, _) => Some a | None => None end.

(** [mips32_pracc_exec] with the context it ends with. *)
Definition pracc_exec_ctx (code_len : Z) (code : list Z)
           (num_param_in : Z) (param_in : ptr)
           (num_param_out : Z) (param_out : ptr) (cycle : Z)
  : M pracc_state (Z * mips32_pracc_context) :=
  modify (record (Exec code_len num_param_in num_param_out cycle
                       (param_snapshot param_in))) ;;
  let ctx := mk_ctx param_in num_param_in param_out num_param_out code code_len
                    fresh_stack 0 in
  pracc_loop fuel cycle ctx 0.

(** [mips32_pracc_exec]: the return code and the parameter arrays as the
    target's stores left them. *)
Definition mips32_pracc_exec (code_len : Z) (code : list Z)
           (num_param_in : Z) (param_in : ptr)
           (num_param_out : Z) (param_out : ptr) (cycle : Z)
  : M pracc_state (Z * ptr * ptr) :=
  '(retval, ctx) <- pracc_exec_ctx code_len code num_param_in param_in
                                   num_param_out param_out cycle ;;
  ret (retval, local_iparam ctx, local_oparam ctx).

(** ** Memory and register primitives *)

Definition ARRAY_SIZE (a : list Z) : Z := Z.of_nat (length a).

Definition ptr_array (p : ptr) (default : list Z) : list Z :=
  match p with Some (a, _) => a | None => default end.

(** The loop of [mips32_pracc_read_mem32]. *)
Fixpoint read_mem32_loop (n : nat) (addr count : Z) (buf : list Z)
         (bytesread retval : Z) : M pracc_state (Z * list Z) :=
  if count >? 0 then
    match n with
    | O => stuck OutOfFuel
    | S n' =>
        let blocksize := if count >? 0x400 then 0x400 else count in
        let param_in := [to_u32 addr; to_u32 blocksize] in
        '(retval, _, pout) <-
          mips32_pracc_exec (ARRAY_SIZE read_mem32_code) read_mem32_code
                            (ARRAY_SIZE param_in) (Some (param_in, 0))
                            blocksize (Some (buf, bytesread)) 1 ;;
        let buf := ptr_array pout buf in
        if negb (retval =? ERROR_OK) then ret (retval, buf)
        else read_mem32_loop n' (to_u32 (addr + blocksize)) (count - blocksize) buf
                             (bytesread + blocksize) retval
    end
  else ret (retval, buf).

(** Each turn takes at least one word off [count]: [count] turns are enough. *)
Definition mips32_pracc_read_mem32 (addr count : Z) (buf : list Z)
  : M pracc_state (Z * list Z) :=
  read_mem32_loop (Z.to_nat count) addr count buf 0 ERROR_OK.

Definition mips32_pracc_read_u32 (addr : Z) (buf : list Z) : M pracc_state (Z * list Z) :=
  let param_in := [to_u32 addr] in
  '(retval, _, pout) <-
    mips32_pracc_exec (ARRAY_SIZE read_u32_code) read_u32_code
                      (ARRAY_SIZE param_in) (Some (param_in, 0)) 1 (Some (buf, 0)) 1 ;;
  ret (retval, ptr_array pout buf).

(** [for (i = 0; i < count; i++) buf[i] = param_out[i];] into elements of
    [width] bits. *)
Fixpoint narrow_copy (n : nat) (i width : Z) (param_out buf : list Z)
  : M pracc_state (list Z) :=
  match n with
  | O => ret buf
  | S n' =>
      match aget param_out i with
      | None => stuck (OutOfBounds i)
      | Some v =>
          match aset buf i (v mod 2 ^ width) with
          | None => stuck (OutOfBounds i)
          | Some buf' => narrow_copy n' (i + 1) width param_out buf'
          end
      end
  end.

(** The body shared by [mips32_pracc_read_mem16] and [mips32_pracc_read_mem8]:
    [param_out] is a fresh array of [count] words (its content before the run
    is indeterminate in C, 0 here). *)
Definition read_narrow (stub : list Z) (width addr count : Z) (buf : list Z)
  : M pracc_state (Z * list Z) :=
  let param_out := repeat 0 (Z.to_nat count) in
  let blocksize := if count >? 0x400 then 0x400 else count in
  let param_in := [to_u32 addr; to_u32 blocksize] in
  '(retval, _, pout) <-
    mips32_pracc_exec (ARRAY_SIZE stub) stub
                      (ARRAY_SIZE param_in) (Some (param_in, 0))
                      count (Some (param_out, 0)) 1 ;;
  buf' <- narrow_copy (Z.to_nat count) 0 width (ptr_array pout param_out) buf ;;
  ret (retval, buf').

Definition mips32_pracc_read_mem16 (addr count : Z) (buf : list Z)
  : M pracc_state (Z * list Z) :=
  read_narrow read_mem16_code 16 addr count buf.

Definition mips32_pracc_read_mem8 (addr count : Z) (buf : list Z)
  : M pracc_state (Z * list Z) :=
  read_narrow read_mem8_code 8 addr count buf.

Definition mips32_pracc_read_mem (addr size count : Z) (buf : list Z)
  : M pracc_state (Z * list Z) :=
  if size =? 1 then mips32_pracc_read_mem8 addr count buf
  else if size =? 2 then mips32_pracc_read_mem16 addr count buf
  else if size =? 4 then
    if count =? 1 then mips32_pracc_read_u32 addr buf
    else mips32_pracc_read_mem32 addr count buf
  else ret (ERROR_OK, buf).

Definition mips32_pracc_write_mem32 (addr count : Z) (buf : list Z) : M pracc_state Z :=
  match aslice buf 0 count with
  | None => stuck (OutOfBounds count)
  | Some data =>
      let param_in := to_u32 addr :: to_u32 (addr + count * 4) :: data in
      '(retval, _, _) <-
        mips32_pracc_exec (ARRAY_SIZE write_mem32_code) write_mem32_code
                          (count + 2) (Some (param_in, 0)) 0 None 1 ;;
      ret retval
  end.

Definition mips32_pracc_write_u32 (addr : Z) (buf : list Z) : M pracc_state Z :=
  match aget buf 0 with
  | None => stuck (OutOfBounds 0)
  | Some v =>
      let param_in := [to_u32 addr; v] in
      '(retval, _, _) <-
        mips32_pracc_exec (ARRAY_SIZE write_u32_code) write_u32_code
                          (ARRAY_SIZE param_in) (Some (param_in, 0)) 0 None 1 ;;
      ret retval
  end.

(** The body shared by [mips32_pracc_write_mem16] and [mips32_pracc_write_mem8]. *)
Definition write_narrow (stub : list Z) (addr count : Z) (buf : list Z)
  : M pracc_state Z :=
  match aslice buf 0 count with
  | None => stuck (OutOfBounds count)
  | Some data =>
      let param_in := to_u32 addr :: to_u32 count :: data in
      '(retval, _, _) <-
        mips32_pracc_exec (ARRAY_SIZE stub) stub
                          (count + 2) (Some (param_in, 0)) 0 None 1 ;;
      ret retval
  end.

Definition mips32_pracc_write_mem16 (addr count : Z) (buf : list Z) : M pracc_state Z :=
  write_narrow write_mem16_code addr count buf.

Definition mips32_pracc_write_mem8 (addr count : Z) (buf : list Z) : M pracc_state Z :=
  write_narrow write_mem8_code addr count buf.

Definition mips32_pracc_write_mem (addr size count : Z) (buf : list Z) : M pracc_state Z :=
  if size =? 1 then mips32_pracc_write_mem8 addr count buf
  else if size =? 2 then mips32_pracc_write_mem16 addr count buf
  else if size =? 4 then
    if count =? 1 then mips32_pracc_write_u32 addr buf
    else mips32_pracc_write_mem32 addr count buf
  else ret ERROR_OK.

Definition mips32_pracc_write_regs (regs : list Z) : M pracc_state Z :=
  '(retval, _, _) <-
    mips32_pracc_exec (ARRAY_SIZE write_regs_code) write_regs_code
                      MIPS32NUMCOREREGS (Some (regs, 0)) 0 None 1 ;;
  ret retval.

Definition mips32_pracc_read_regs (regs : list Z) : M pracc_state (Z * list Z) :=
  '(retval, _, pout) <-
    mips32_pracc_exec (ARRAY_SIZE read_regs_code) read_regs_code
                      0 None MIPS32NUMCOREREGS (Some (regs, 0)) 1 ;;
  ret (retval, ptr_array pout regs).

(** ** The FASTDATA transfer *)

(** The loop that feeds [jmp_code] to the target, one word per access; it
    answers [ERROR_OK] when the five words are gone, else the code to return. *)
Fixpoint send_jmp_code (words : list Z) : M pracc_state Z :=
  match words with
  | [] => ret ERROR_OK
  | word :: rest =>
      '(retval, _) <- wait_for_pracc_rw ;;
      if negb (retval =? ERROR_OK) then ret retval
      else
        set_instr EJTAG_INST_DATA ;;
        drscan_32_out word ;;
        ctrl <- gets ejtag_ctrl ;;
        let ctrl := Z.land ctrl (to_u32 (Z.lnot EJTAG_CTRL_PRACC)) in
        set_instr EJTAG_INST_CONTROL ;;
        drscan_32_out ctrl ;;
        send_jmp_code rest
  end.

(** [for (i = 0; i < count; i++) mips_ejtag_fastdata_scan(ejtag_info, write_t, buf++)] *)
Fixpoint fastdata_loop (n : nat) (i write_t : Z) (buf : list Z)
  : M pracc_state (Z * list Z) :=
  match n with
  | O => ret (ERROR_OK, buf)
  | S n' =>
      match aget buf i with
      | None => stuck (OutOfBounds i)
      | Some v =>
          '(retval, v') <- fastdata_scan write_t v ;;
          match aset buf i v' with
          | None => stuck (OutOfBounds i)
          | Some buf' =>
              if negb (retval =? ERROR_OK) then ret (retval, buf')
              else fastdata_loop n' (i + 1) write_t buf'
          end
      end
  end.

(** [mips32_pracc_fastdata_xfer(ejtag_info, source, write_t, addr, count, buf)]
    with [source->address] and [source->size] of the work area. *)
Definition mips32_pracc_fastdata_xfer (source_address source_size : Z)
           (write_t addr count : Z) (buf : list Z) : M pracc_state (Z * list Z) :=
  if source_size <? MIPS32_FASTDATA_HANDLER_SIZE
  then ret (ERROR_TARGET_RESOURCE_NOT_AVAILABLE, buf)
  else
    let handler := handler_code write_t in
    saved <- gets fast_access_save ;;
    (if negb (write_t =? saved) then
       mips32_pracc_write_mem32 source_address (ARRAY_SIZE handler) handler ;;
       modify (set_fast_access_save write_t)
     else ret tt) ;;
    retval <- send_jmp_code (jmp_code source_address) ;;
    if negb (retval =? ERROR_OK) then ret (retval, buf)
    else
      '(retval, _) <- wait_for_pracc_rw ;;
      if negb (retval =? ERROR_OK) then ret (retval, buf)
      else
        set_instr EJTAG_INST_ADDRESS ;;
        '(retval, address) <- drscan_32 0 ;;
        if negb (retval =? ERROR_OK) then ret (retval, buf)
        else if negb (address =? MIPS32_PRACC_FASTDATA_AREA) then ret (ERROR_FAIL, buf)
        else
          '(retval, _) <- wait_for_pracc_rw ;;
          if negb (retval =? ERROR_OK) then ret (retval, buf)
          else
            set_instr EJTAG_INST_FASTDATA ;;
            fastdata_scan 1 (to_u32 addr) ;;
            fastdata_scan 1 (to_u32 (addr + (count - 1) * 4)) ;;
            '(retval, buf) <- fastdata_loop (Z.to_nat count) 0 write_t buf ;;
            if negb (retval =? ERROR_OK) then ret (retval, buf)
            else
              retval <- execute_queue ;;
              if negb (retval =? ERROR_OK) then ret (retval, buf)
              else
                '(retval, _) <- wait_for_pracc_rw ;;
                if negb (retval =? ERROR_OK) then ret (retval, buf)
                else
                  set_instr EJTAG_INST_ADDRESS ;;
                  '(retval, address) <- drscan_32 0 ;;
                  ret (retval, buf).

(** ** The trace is written by the executor's loop alone *)

Definition same_log (s s' : pracc_state) : Prop := log s' = log s.

Lemma same_log_refl s : same_log s s.
Proof. reflexivity. Qed.

Lemma same_log_trans s1 s2 s3 : same_log s1 s2 -> same_log s2 s3 -> same_log s1 s3.
Proof. unfold same_log. congruence. Qed.

Create HintDb log_frame.

Ltac log_frame :=
  repeat first
    [ frame_step same_log_refl same_log_trans
    | solve [ auto with log_frame ] ].

Lemma set_instr_log i : preserves same_log (set_instr i).
Proof. intros s. reflexivity. Qed.

Lemma drscan_32_log d : preserves same_log (drscan_32 d).
Proof.
  intros s. unfold drscan_32.
  destruct (mips_ejtag_drscan_32 d (world s)) as [[r v] w]. reflexivity.
Qed.

Lemma drscan_32_out_log d : preserves same_log (drscan_32_out d).
Proof. intros s. reflexivity. Qed.

Lemma fastdata_scan_log t d : preserves same_log (fastdata_scan t d).
Proof.
  intros s. unfold fastdata_scan.
  destruct (mips_ejtag_fastdata_scan t d (world s)) as [[r v] w]. reflexivity.
Qed.

Lemma execute_queue_log : preserves same_log execute_queue.
Proof.
  intros s. unfold execute_queue.
  destruct (jtag_execute_queue (world s)) as [r w]. reflexivity.
Qed.

Lemma now_ms_log : preserves same_log now_ms.
Proof.
  intros s. unfold now_ms. destruct (timeval_ms (world s)) as [t w]. reflexivity.
Qed.
#[local] Hint Resolve set_instr_log drscan_32_log drscan_32_out_log fastdata_scan_log
  execute_queue_log now_ms_log : log_frame.

Lemma wait_loop_log n : forall then_ms ctrl, preserves same_log (wait_loop n then_ms ctrl).
Proof. induction n as [|n IH]; intros then_ms ctrl; simpl; log_frame. Qed.
#[local] Hint Resolve wait_loop_log : log_frame.

Lemma wait_for_pracc_rw_log : preserves same_log wait_for_pracc_rw.
Proof. unfold wait_for_pracc_rw. log_frame. Qed.

Lemma load_log p k : preserves same_log (load p k).
Proof. unfold load. log_frame. Qed.

Lemma store_log p k v : preserves same_log (store p k v).
Proof. unfold store. log_frame. Qed.
#[local] Hint Resolve wait_for_pracc_rw_log load_log store_log : log_frame.

Lemma send_data_log d : preserves same_log (send_data d).
Proof. unfold send_data. log_frame. Qed.
#[local] Hint Resolve send_data_log : log_frame.

Lemma exec_read_log ctx a : preserves same_log (mips32_pracc_exec_read ctx a).
Proof. unfold mips32_pracc_exec_read. log_frame. Qed.

Lemma exec_write_log ctx a : preserves same_log (mips32_pracc_exec_write ctx a).
Proof. unfold mips32_pracc_exec_write. log_frame. Qed.
#[local] Hint Resolve exec_read_log exec_write_log : log_frame.

(** ** One turn of the executor's loop *)

Definition is_text_read (w : bool) (a : Z) : bool :=
  negb w && (a =? MIPS32_PRACC_TEXT).

(** The turn ends the run with an error or outside defined behaviour. *)
Definition failing (o : outcome pracc_state turn) : Prop :=
  match o with
  | Done (Return r _) _ => r <> ERROR_OK
  | Done _ _ => False
  | Stuck _ _ => True
  end.

(** What a turn entered with [pass] in state [s] can come to: no access
    seen and the run over; the exit on a read at the start of the text with
    [pass] not 0; an access seen whose service ends the run; an access
    served, after which the loop stops ([cycle == 0]) or goes round again. *)
Inductive turn_result (cycle pass : Z) (s : pracc_state)
  : outcome pracc_state turn -> Prop :=
| TurnBlind o :
    log (final o) = log s -> failing o -> turn_result cycle pass s o
| TurnExit ctx s' :
    log s' = log s ++ [Access false MIPS32_PRACC_TEXT] -> pass <> 0 ->
    turn_result cycle pass s (Done (Break ctx) s')
| TurnFailed w a o :
    log (final o) = log s ++ [Access w a] ->
    (is_text_read w a = true -> pass = 0) -> failing o ->
    turn_result cycle pass s o
| TurnLast w a ctx s' :
    cycle = 0 -> log s' = log s ++ [Access w a; Served w a] ->
    (is_text_read w a = true -> pass = 0) ->
    turn_result cycle pass s (Done (Break ctx) s')
| TurnNext w a ctx s' :
    cycle <> 0 -> log s' = log s ++ [Access w a; Served w a] ->
    (is_text_read w a = true -> pass = 0) ->
    turn_result cycle pass s
      (Done (Next ctx (if is_text_read w a then pass + 1 else pass)) s').

Lemma served_turn cycle pass s w a ctx s1 :
  log s1 = log s ++ [Access w a] ->
  (is_text_read w a = true -> pass = 0) ->
  turn_result cycle pass s
    ((modify (record (Served w a)) ;;
      if cycle =? 0 then ret (Break ctx)
      else ret (Next ctx (if is_text_read w a then pass + 1 else pass))) s1).
Proof.
  intros Hl Hp. unfold bind, modify, ret.
  assert (E : log (record (Served w a) s1) = log s ++ [Access w a; Served w a]).
  { simpl. rewrite Hl, <- app_assoc. reflexivity. }
  destruct (cycle =? 0) eqn:C; zbool.
  - eapply TurnLast; eassumption.
  - eapply TurnNext; eassumption.
Qed.

Lemma handled_turn cycle pass s w a s1
      (h : M pracc_state (Z * mips32_pracc_context)) :
  preserves same_log h ->
  log s1 = log s ++ [Access w a] ->
  (is_text_read w a = true -> pass = 0) ->
  turn_result cycle pass s
    (('(retval, ctx) <- h ;;
      if negb (retval =? ERROR_OK) then ret (Return retval ctx)
      else
        modify (record (Served w a)) ;;
        if cycle =? 0 then ret (Break ctx)
        else ret (Next ctx (if is_text_read w a then pass + 1 else pass))) s1).
Proof.
  intros Hh Hl Hp. unfold bind at 1. specialize (Hh s1). unfold same_log in Hh.
  destruct (h s1) as [[r ctx] s2|f s2]; simpl in Hh.
  - destruct (r =? ERROR_OK) eqn:C; zbool; cbn [negb]; cbv iota.
    + apply served_turn; [congruence|exact Hp].
    + eapply TurnFailed with (w := w) (a := a); simpl; [congruence|exact Hp|exact C].
  - eapply TurnFailed with (w := w) (a := a); simpl; [congruence|exact Hp|exact I].
Qed.

Lemma pracc_turn_result cycle ctx pass s :
  turn_result cycle pass s (pracc_turn cycle ctx pass s).
Proof.
  unfold pracc_turn. unfold bind at 1.
  pose proof (wait_for_pracc_rw_log s) as Hw. unfold same_log in Hw.
  destruct (wait_for_pracc_rw s) as [[r ctrl] s1|f s1]; simpl in Hw;
    [|apply TurnBlind; [exact Hw|exact I]].
  destruct (r =? ERROR_OK) eqn:C; zbool; cbn [negb]; cbv iota;
    [|apply TurnBlind; [exact Hw|exact C]].
  unfold bind at 1. unfold set_instr at 1, modify at 1.
  unfold bind at 1. unfold drscan_32 at 1. cbn [world set_world].
  destruct (mips_ejtag_drscan_32 0 (mips_ejtag_set_instr EJTAG_INST_ADDRESS (world s1)))
    as [[r2 a0] w2].
  set (a := to_u32 a0).
  set (s3 := set_world w2 (set_world _ s1)).
  assert (H3 : log s3 = log s) by (subst s3; simpl; exact Hw).
  destruct (r2 =? ERROR_OK) eqn:C2; zbool; cbn [negb]; cbv iota;
    [|apply TurnBlind; [exact H3|exact C2]].
  set (wr := negb (Z.land ctrl EJTAG_CTRL_PRNW =? 0)).
  unfold bind at 1. unfold modify at 1.
  set (s4 := record (Access wr a) s3).
  assert (H4 : log s4 = log s ++ [Access wr a]) by (subst s4; simpl; congruence).
  destruct wr eqn:Ewr.
  - replace pass with (if is_text_read true a then pass + 1 else pass) at 2
      by reflexivity.
    apply handled_turn; [apply exec_write_log|exact H4|].
    intros Ht. discriminate Ht.
  - destruct ((a =? MIPS32_PRACC_TEXT) && negb (pass =? 0)) eqn:Cx.
    + apply andb_prop in Cx. destruct Cx as [Ca Cp]. zbool. rewrite Ca in H4.
      apply TurnExit; [exact H4|].
      destruct (pass =? 0) eqn:Cp0; [discriminate Cp|zbool; exact Cp0].
    + change (if a =? MIPS32_PRACC_TEXT then pass + 1 else pass)
        with (if is_text_read false a then pass + 1 else pass).
      apply handled_turn; [apply exec_read_log|exact H4|].
      unfold is_text_read. simpl. intros Ht. rewrite Ht in Cx. simpl in Cx.
      destruct (pass =? 0) eqn:Cp0; [zbool; exact Cp0|discriminate Cx].
Qed.

(** ** The run of the executor's loop *)

(** The trace of a list of accesses (write?, address), each served. *)
Definition served_trace (l : list (bool * Z)) : list event :=
  flat_map (fun wa => [Access (fst wa) (snd wa); Served (fst wa) (snd wa)]) l.

(** How many of the accesses are reads at the start of the text. *)
Definition text_reads (l : list (bool * Z)) : Z :=
  Z.of_nat (length (filter (fun wa => is_text_read (fst wa) (snd wa)) l)).

Lemma text_reads_cons w a l :
  text_reads ((w, a) :: l) = (if is_text_read w a then 1 else 0) + text_reads l.
Proof.
  unfold text_reads. simpl. destruct (is_text_read w a); simpl length; lia.
Qed.

Lemma text_reads_nonneg l : 0 <= text_reads l.
Proof. unfold text_reads. lia. Qed.

(** The run ends with an error or outside defined behaviour. *)
Definition failing_run {A} (o : outcome pracc_state (Z * A)) : Prop :=
  match o with
  | Done (r, _) _ => r <> ERROR_OK
  | Stuck _ _ => True
  end.

(** What the loop entered with [pass] in state [s] can come to. *)
Inductive loop_result (cycle pass : Z) (s : pracc_state)
  : outcome pracc_state (Z * mips32_pracc_context) -> Prop :=
| LoopExit served ctx s' :
    log s' = log s ++ served_trace served ++ [Access false MIPS32_PRACC_TEXT] ->
    text_reads served + pass = 1 ->
    (cycle = 0 -> served = []) ->
    loop_result cycle pass s (Done (ERROR_OK, ctx) s')
| LoopOne w a ctx s' :
    cycle = 0 ->
    log s' = log s ++ served_trace [(w, a)] ->
    loop_result cycle pass s (Done (ERROR_OK, ctx) s')
| LoopFailed served tail o :
    log (final o) = log s ++ served_trace served ++ tail ->
    (tail = [] \/
     exists w a, tail = [Access w a] /\
                 (is_text_read w a = true -> text_reads served + pass = 0)) ->
    text_reads served + pass <= 1 ->
    (cycle = 0 -> served = []) ->
    failing_run o ->
    loop_result cycle pass s o.

Lemma pracc_loop_result cycle n : forall ctx pass s,
  pass = 0 \/ pass = 1 ->
  loop_result cycle pass s (pracc_loop n cycle ctx pass s).
Proof.
  induction n as [|n IH]; intros ctx pass s Hp.
  - simpl. apply LoopFailed with (served := []) (tail := []); simpl;
      [rewrite app_nil_r; reflexivity|left; reflexivity|lia|reflexivity|exact I].
  - cbn [pracc_loop]. unfold bind.
    pose proof (pracc_turn_result cycle ctx pass s) as T.
    destruct (pracc_turn cycle ctx pass s) as [t s1|f s1].
    + inversion T as [o Hl Hf|ctx' s' Hl Hne|w a o Hl Ht Hf
                      |w a ctx' s' Hc Hl Ht|w a ctx' s' Hc Hl Ht]; subst.
      * destruct t as [c p|c|r c]; simpl in Hf; try contradiction.
        apply LoopFailed with (served := []) (tail := []); simpl;
          [rewrite app_nil_r; exact Hl|left; reflexivity|lia|reflexivity|exact Hf].
      * apply LoopExit with (served := []); simpl; [exact Hl|lia|reflexivity].
      * destruct t as [c p|c|r c]; simpl in Hf; try contradiction.
        apply LoopFailed with (served := []) (tail := [Access w a]); simpl;
          [exact Hl| |lia|reflexivity|exact Hf].
        right. exists w, a. split; [reflexivity|]. intros E. apply Ht in E. lia.
      * eapply LoopOne; [reflexivity|]. simpl. exact Hl.
      * set (pass' := if is_text_read w a then pass + 1 else pass).
        assert (Hp' : pass' = 0 \/ pass' = 1).
        { subst pass'. destruct (is_text_read w a); [|exact Hp].
          right. rewrite (Ht eq_refl). reflexivity. }
        assert (Hsum : forall l, text_reads ((w, a) :: l) + pass = text_reads l + pass').
        { intros l. rewrite text_reads_cons. subst pass'.
          destruct (is_text_read w a); lia. }
        specialize (IH ctx' pass' s1 Hp').
        inversion IH as [served c s' Hl' Hs Hz|w' a' c s' Hz Hl'
                         |served tail o Hl' Ht' Hs Hz Hf]; subst.
        -- apply LoopExit with (served := (w, a) :: served);
             [|rewrite Hsum; exact Hs|intros Z0; contradiction].
           rewrite Hl', Hl. simpl. rewrite <- app_assoc. reflexivity.
        -- contradiction.
        -- apply LoopFailed with (served := (w, a) :: served) (tail := tail);
             [| |rewrite Hsum; exact Hs|intros Z0; contradiction|exact Hf].
           ++ rewrite Hl', Hl. simpl. rewrite <- app_assoc. reflexivity.
           ++ destruct Ht' as [->|(w' & a' & -> & Hx)]; [left; reflexivity|].
              right. exists w', a'. split; [reflexivity|].
              intros E. rewrite Hsum. apply Hx. exact E.
    + inversion T as [o Hl Hf| |w a o Hl Ht Hf| |]; subst.
      * apply LoopFailed with (served := []) (tail := []); simpl;
          [rewrite app_nil_r; exact Hl|left; reflexivity|lia|reflexivity|exact I].
      * apply LoopFailed with (served := []) (tail := [Access w a]); simpl;
          [exact Hl| |lia|reflexivity|exact I].
        right. exists w, a. split; [reflexivity|]. intros E. apply Ht in E. lia.
Qed.

(** ** The accesses a run serves *)

(** The head of a turn of the loop of [mips32_pracc_exec]: wait for the
    target's access and scan its address.  The result is the return code
    and, with [ERROR_OK], whether the access is a write and its address. *)
Definition next_access : M pracc_state (Z * bool * Z) :=
  '(retval, ctrl) <- wait_for_pracc_rw ;;
  if negb (retval =? ERROR_OK) then ret (retval, false, 0)
  else
    set_instr EJTAG_INST_ADDRESS ;;
    '(retval, address) <- drscan_32 0 ;;
    ret (retval, negb (Z.land ctrl EJTAG_CTRL_PRNW =? 0), address).

(** The handler the loop calls for an access. *)
Definition serve (ctx : mips32_pracc_context) (write : bool) (address : Z)
  : M pracc_state (Z * mips32_pracc_context) :=
  if write then mips32_pracc_exec_write ctx address
  else mips32_pracc_exec_read ctx address.

(** From [ctx] and [s] the target makes the accesses of the list, one after
    the other; each is seen by the loop's head and handed to its handler,
    which returns [ERROR_OK]. *)
Inductive served_run
  : mips32_pracc_context -> pracc_state -> list (bool * Z) ->
    mips32_pracc_context -> pracc_state -> Prop :=
| served_none ctx s : served_run ctx s [] ctx s
| served_more ctx s w a s1 ctx1 s2 rest ctx2 s3 :
    next_access s = Done (ERROR_OK, w, a) s1 ->
    serve ctx w a (record (Access w a) s1) = Done (ERROR_OK, ctx1) s2 ->
    served_run ctx1 (record (Served w a) s2) rest ctx2 s3 ->
    served_run ctx s ((w, a) :: rest) ctx2 s3.

(** A turn of the loop, by its head and its handler. *)
Lemma pracc_turn_unfold cycle ctx pass s :
  pracc_turn cycle ctx pass s =
  ('(r, w, a) <- next_access ;;
   if negb (r =? ERROR_OK) then ret (Return r ctx)
   else
     modify (record (Access w a)) ;;
     if is_text_read w a && negb (pass =? 0) then ret (Break ctx)
     else
       '(r, ctx') <- serve ctx w a ;;
       if negb (r =? ERROR_OK) then ret (Return r ctx')
       else
         modify (record (Served w a)) ;;
         if cycle =? 0 then ret (Break ctx')
         else ret (Next ctx' (if is_text_read w a then pass + 1 else pass))) s.
Proof.
  unfold pracc_turn, next_access, serve, is_text_read, set_instr, drscan_32.
  unfold bind, ret, modify.
  destruct (wait_for_pracc_rw s) as [[r ctrl] s1|f s1]; [|reflexivity].
  destruct (r =? ERROR_OK) eqn:C; cbn [negb]; cbv iota beta; [|rewrite C; reflexivity].
  cbn [world set_world].
  match goal with
  | |- context [mips_ejtag_drscan_32 0 ?w] =>
      destruct (mips_ejtag_drscan_32 0 w) as [[r2 a0] w2]
  end.
  destruct (r2 =? ERROR_OK) eqn:C2; cbn [negb]; cbv iota beta; [|reflexivity].
  destruct (negb (Z.land ctrl EJTAG_CTRL_PRNW =? 0)); cbn [negb andb]; cbv iota.
  - reflexivity.
  - destruct ((to_u32 a0 =? MIPS32_PRACC_TEXT) && negb (pass =? 0)); reflexivity.
Qed.

(** A turn on an access that the handler serves. *)
Lemma turn_serves cycle ctx pass s w a s1 ctx1 s2 :
  next_access s = Done (ERROR_OK, w, a) s1 ->
  (is_text_read w a = true -> pass = 0) ->
  serve ctx w a (record (Access w a) s1) = Done (ERROR_OK, ctx1) s2 ->
  pracc_turn cycle ctx pass s =
  Done (if cycle =? 0 then Break ctx1
        else Next ctx1 (if is_text_read w a then pass + 1 else pass))
       (record (Served w a) s2).
Proof.
  intros Hn Hp Hs. rewrite pracc_turn_unfold. unfold bind at 1. rewrite Hn.
  cbn [Z.eqb ERROR_OK negb]. cbv iota beta.
  unfold bind at 1, modify at 1.
  replace (is_text_read w a && negb (pass =? 0)) with false.
  2:{ destruct (is_text_read w a); [|reflexivity].
      rewrite (Hp eq_refl). reflexivity. }
  unfold bind at 1. rewrite Hs. cbn [Z.eqb ERROR_OK negb]. cbv iota beta.
  unfold bind, modify, ret. destruct (cycle =? 0); reflexivity.
Qed.

(** A turn on a read at the start of the text that is not the first. *)
Lemma turn_exits cycle ctx pass s s1 :
  next_access s = Done (ERROR_OK, false, MIPS32_PRACC_TEXT) s1 ->
  pass <> 0 ->
  pracc_turn cycle ctx pass s =
  Done (Break ctx) (record (Access false MIPS32_PRACC_TEXT) s1).
Proof.
  intros Hn Hp. rewrite pracc_turn_unfold. unfold bind at 1. rewrite Hn.
  cbn [Z.eqb ERROR_OK negb]. cbv iota beta.
  unfold bind at 1, modify at 1. unfold is_text_read at 1.
  rewrite Z.eqb_refl. apply Z.eqb_neq in Hp. rewrite Hp. reflexivity.
Qed.

(** What a turn that returns has done. *)
Lemma turn_inv cycle ctx pass s t s' :
  pracc_turn cycle ctx pass s = Done t s' ->
  match t with
  | Return r _ => r <> ERROR_OK
  | Break ctx' =>
      (pass <> 0 /\ ctx' = ctx /\
       exists s1, next_access s = Done (ERROR_OK, false, MIPS32_PRACC_TEXT) s1 /\
                  s' = record (Access false MIPS32_PRACC_TEXT) s1) \/
      (cycle = 0 /\
       exists w a s1 s2,
         next_access s = Done (ERROR_OK, w, a) s1 /\
         (is_text_read w a = true -> pass = 0) /\
         serve ctx w a (record (Access w a) s1) = Done (ERROR_OK, ctx') s2 /\
         s' = record (Served w a) s2)
  | Next ctx' pass' =>
      cycle <> 0 /\
      exists w a s1 s2,
        next_access s = Done (ERROR_OK, w, a) s1 /\
        (is_text_read w a = true -> pass = 0) /\
        serve ctx w a (record (Access w a) s1) = Done (ERROR_OK, ctx') s2 /\
        s' = record (Served w a) s2 /\
        pass' = (if is_text_read w a then pass + 1 else pass)
  end.
Proof.
  rewrite pracc_turn_unfold. intros H.
  apply bind_Done in H. destruct H as ([[r w] a] & s1 & Hn & H).
  destruct (r =? ERROR_OK) eqn:C; zbool; cbn [negb] in H; cbv iota in H.
  2:{ inversion H; subst. exact C. }
  subst r.
  apply bind_Done in H. destruct H as (u & s0 & Hm & H).
  inversion Hm; subst u s0; clear Hm.
  destruct (is_text_read w a && negb (pass =? 0)) eqn:Cx.
  - inversion H; subst t s'; clear H.
    apply andb_prop in Cx. destruct Cx as [Ct Cp].
    unfold is_text_read in Ct. apply andb_prop in Ct. destruct Ct as [Cw Ca].
    destruct w; [discriminate Cw|]. zbool. subst a.
    left. split.
    + destruct (pass =? 0) eqn:Cq; [discriminate Cp|zbool; exact Cq].
    + split; [reflexivity|]. exists s1. split; [exact Hn|reflexivity].
  - assert (Hp : is_text_read w a = true -> pass = 0).
    { intros E. rewrite E in Cx. cbn [andb] in Cx.
      destruct (pass =? 0) eqn:Cq; [zbool; exact Cq|discriminate Cx]. }
    apply bind_Done in H. destruct H as ([r ctx'] & s2 & Hs & H).
    destruct (r =? ERROR_OK) eqn:Cr; zbool; cbn [negb] in H; cbv iota in H.
    2:{ inversion H; subst. exact Cr. }
    subst r.
    apply bind_Done in H. destruct H as (u & s0 & Hm & H).
    inversion Hm; subst u s0; clear Hm.
    destruct (cycle =? 0) eqn:Cc; zbool; inversion H; subst t s'; clear H.
    + right. split; [exact Cc|]. exists w, a, s1, s2. auto.
    + split; [exact Cc|]. exists w, a, s1, s2. auto 6.
Qed.

(** The loop goes through the accesses of a served run, as long as none of
    them is a second read at the start of the text. *)
Lemma loop_runs cycle : cycle <> 0 ->
  forall ctx s served ctx1 s1, served_run ctx s served ctx1 s1 ->
  forall n pass, 0 <= pass -> text_reads served + pass <= 1 ->
  pracc_loop (length served + n) cycle ctx pass s =
  pracc_loop n cycle ctx1 (pass + text_reads served) s1.
Proof.
  intros Hc ctx s served ctx1 s1 R.
  induction R as [ctx s|ctx s w a s1 ctx1 s2 rest ctx2 s3 Hn Hs R IH];
    intros n pass Hp Ht.
  - simpl. unfold text_reads. simpl. rewrite Z.add_0_r. reflexivity.
  - rewrite text_reads_cons in Ht. pose proof (text_reads_nonneg rest) as Hr.
    assert (Hfirst : is_text_read w a = true -> pass = 0).
    { intros E. rewrite E in Ht. lia. }
    cbn [length Nat.add pracc_loop]. unfold bind at 1.
    rewrite (turn_serves cycle ctx pass s w a s1 ctx1 s2 Hn Hfirst Hs).
    apply Z.eqb_neq in Hc. rewrite Hc.
    rewrite IH.
    + rewrite text_reads_cons. f_equal. destruct (is_text_read w a); lia.
    + destruct (is_text_read w a); lia.
    + destruct (is_text_read w a); lia.
Qed.

(** A run of the loop that returns [ERROR_OK] with [cycle] not 0 served
    accesses and then met a read at the start of the text, the second. *)
Lemma loop_ok_inv cycle : cycle <> 0 ->
  forall n ctx pass s ctx' s',
  pass = 0 \/ pass = 1 ->
  pracc_loop n cycle ctx pass s = Done (ERROR_OK, ctx') s' ->
  exists served s1 s2,
    (length served < n)%nat /\
    served_run ctx s served ctx' s1 /\
    text_reads served + pass = 1 /\
    next_access s1 = Done (ERROR_OK, false, MIPS32_PRACC_TEXT) s2 /\
    s' = record (Access false MIPS32_PRACC_TEXT) s2.
Proof.
  intros Hc. induction n as [|n IH]; intros ctx pass s ctx' s' Hp H.
  - discriminate H.
  - cbn [pracc_loop] in H.
    apply bind_Done in H. destruct H as (t & s1 & Ht & H).
    apply turn_inv in Ht. destruct t as [c p|c|r c].
    + destruct Ht as (_ & w & a & s2 & s3 & Hn & Hf & Hs & -> & ->).
      apply IH in H.
      * destruct H as (served & s4 & s5 & Hl & R & Hx & Hn' & ->).
        exists ((w, a) :: served), s4, s5.
        split; [simpl; lia|]. split; [eapply served_more; eassumption|].
        split; [|split; [exact Hn'|reflexivity]].
        rewrite text_reads_cons. destruct (is_text_read w a); lia.
      * destruct (is_text_read w a); [|exact Hp].
        right. rewrite (Hf eq_refl). reflexivity.
    + inversion H; subst c s1; clear H.
      destruct Ht as [(Hp0 & -> & s2 & Hn & ->)|(Hz & _)]; [|contradiction].
      exists [], s, s2. split; [simpl; lia|]. split; [constructor|].
      split; [unfold text_reads; simpl; lia|]. split; [exact Hn|reflexivity].
    + inversion H; subst. contradiction.
Qed.

(** ** The debug stack *)

(** The faults a run may end in when the stack is at issue: an index
    outside the 32 slots is the slot below the first or the slot after the
    last. *)
Definition stack_fault (f : fault) : Prop :=
  match f with
  | BadStackIndex i => i = -1 \/ i = 32
  | _ => True
  end.

Definition stack_ok (ctx : mips32_pracc_context) : Prop :=
  length (stack ctx) = 32%nat /\ 0 <= stack_offset ctx <= 32.

Create HintDb stack_frame.

Ltac stack_frame :=
  repeat first
    [ ensures_step
    | solve [ auto with stack_frame ] ].

Lemma set_instr_stack i : ensures (fun _ => True) stack_fault (set_instr i).
Proof. intros s. exact I. Qed.

Lemma drscan_32_stack d : ensures (fun _ => True) stack_fault (drscan_32 d).
Proof.
  intros s. unfold drscan_32.
  destruct (mips_ejtag_drscan_32 d (world s)) as [[r v] w]. exact I.
Qed.

Lemma drscan_32_out_stack d : ensures (fun _ => True) stack_fault (drscan_32_out d).
Proof. intros s. exact I. Qed.

Lemma execute_queue_stack : ensures (fun _ => True) stack_fault execute_queue.
Proof.
  intros s. unfold execute_queue.
  destruct (jtag_execute_queue (world s)) as [r w]. exact I.
Qed.

Lemma now_ms_stack : ensures (fun _ => True) stack_fault now_ms.
Proof.
  intros s. unfold now_ms. destruct (timeval_ms (world s)) as [t w]. exact I.
Qed.
#[local] Hint Resolve set_instr_stack drscan_32_stack drscan_32_out_stack
  execute_queue_stack now_ms_stack : stack_frame.

Lemma wait_loop_stack n : forall then_ms ctrl,
  ensures (fun _ => True) stack_fault (wait_loop n then_ms ctrl).
Proof. induction n as [|n IH]; intros then_ms ctrl; simpl; stack_frame. Qed.
#[local] Hint Resolve wait_loop_stack : stack_frame.

Lemma wait_for_pracc_rw_stack : ensures (fun _ => True) stack_fault wait_for_pracc_rw.
Proof. unfold wait_for_pracc_rw. stack_frame. Qed.

Lemma load_stack p k : ensures (fun _ => True) stack_fault (load p k).
Proof. unfold load. stack_frame. Qed.

Lemma store_stack p k v : ensures (fun _ => True) stack_fault (store p k v).
Proof. unfold store. stack_frame. Qed.

Lemma send_data_stack d : ensures (fun _ => True) stack_fault (send_data d).
Proof. unfold send_data. stack_frame. Qed.
#[local] Hint Resolve wait_for_pracc_rw_stack load_stack store_stack send_data_stack
  : stack_frame.

(** A result with [stack_ok] holding of its context. *)
Definition ctx_ok (rc : Z * mips32_pracc_context) : Prop := stack_ok (snd rc).

Lemma sent_ok ctx data :
  stack_ok ctx ->
  ensures ctx_ok stack_fault (r <- send_data data ;; ret (r, ctx)).
Proof.
  intros H. apply (ensures_bind (fun _ => True)); [apply send_data_stack|].
  intros r _. apply ensures_ret. exact H.
Qed.

Lemma loaded_ok ctx p k :
  stack_ok ctx ->
  ensures ctx_ok stack_fault
    (data <- load p k ;; r <- send_data data ;; ret (r, ctx)).
Proof.
  intros H. apply (ensures_bind (fun _ => True)); [apply load_stack|].
  intros d _. apply sent_ok. exact H.
Qed.

(** A load from PRACC_STACK stays inside the stack unless the offset is 0,
    where it indexes slot -1. *)
Lemma exec_read_stack ctx address :
  stack_ok ctx -> ensures ctx_ok stack_fault (mips32_pracc_exec_read ctx address).
Proof.
  intros [Hl Ho]. unfold mips32_pracc_exec_read.
  destruct (in_area address MIPS32_PRACC_PARAM_IN (num_iparam ctx));
    [apply loaded_ok; split; assumption|].
  destruct (in_area address MIPS32_PRACC_PARAM_OUT (num_oparam ctx));
    [apply loaded_ok; split; assumption|].
  destruct (in_area address MIPS32_PRACC_TEXT (code_len ctx));
    [apply loaded_ok; split; assumption|].
  destruct (address =? MIPS32_PRACC_STACK);
    [|apply ensures_ret; split; assumption].
  cbn [stack stack_offset set_stack_offset].
  destruct (aget (stack ctx) (stack_offset ctx - 1)) as [data|] eqn:E.
  - apply sent_ok. unfold aget in E.
    destruct ((0 <=? stack_offset ctx - 1) &&
              (stack_offset ctx - 1 <? Z.of_nat (length (stack ctx)))) eqn:C;
      [|discriminate E].
    zbool. split; simpl; [exact Hl|lia].
  - apply ensures_stuck. simpl. left. unfold aget in E.
    destruct ((0 <=? stack_offset ctx - 1) &&
              (stack_offset ctx - 1 <? Z.of_nat (length (stack ctx)))) eqn:C.
    + zbool. apply nth_error_None in E. lia.
    + apply andb_false_iff in C. destruct C as [C|C]; zbool; lia.
Qed.

(** A store to PRACC_STACK stays inside the stack unless the offset is 32,
    where it indexes slot 32. *)
Lemma exec_write_stack ctx address :
  stack_ok ctx -> ensures ctx_ok stack_fault (mips32_pracc_exec_write ctx address).
Proof.
  intros [Hl Ho]. unfold mips32_pracc_exec_write.
  apply (ensures_bind (fun _ => True)); [apply set_instr_stack|]. intros _ _.
  apply (ensures_bind (fun _ => True)); [apply drscan_32_stack|]. intros [r data] _.
  destruct (negb (r =? ERROR_OK)); [apply ensures_ret; split; assumption|].
  apply (ensures_bind (fun _ => True)); [apply ensures_gets|]. intros ctrl _.
  apply (ensures_bind (fun _ => True)); [apply set_instr_stack|]. intros _ _.
  apply (ensures_bind (fun _ => True)); [apply drscan_32_out_stack|]. intros _ _.
  apply (ensures_bind (fun _ => True)); [apply execute_queue_stack|]. intros r2 _.
  destruct (negb (r2 =? ERROR_OK)); [apply ensures_ret; split; assumption|].
  destruct (in_area address MIPS32_PRACC_PARAM_IN (num_iparam ctx)).
  { apply (ensures_bind (fun _ => True)); [apply store_stack|]. intros p _.
    apply ensures_ret. split; assumption. }
  destruct (in_area address MIPS32_PRACC_PARAM_OUT (num_oparam ctx)).
  { apply (ensures_bind (fun _ => True)); [apply store_stack|]. intros p _.
    apply ensures_ret. split; assumption. }
  destruct (address =? MIPS32_PRACC_STACK);
    [|apply ensures_ret; split; assumption].
  destruct (aset (stack ctx) (stack_offset ctx) data) as [st|] eqn:E.
  - apply ensures_ret. apply aset_Some in E. destruct E as (Hr & Hl' & _).
    split; simpl; [congruence|lia].
  - apply ensures_stuck. simpl. right. unfold aset in E.
    destruct ((0 <=? stack_offset ctx) &&
              (stack_offset ctx <? Z.of_nat (length (stack ctx)))) eqn:C;
      [discriminate E|].
    apply andb_false_iff in C. destruct C as [C|C]; zbool; lia.
Qed.

Definition turn_ok (t : turn) : Prop :=
  match t with
  | Next ctx _ => stack_ok ctx
  | Break ctx => stack_ok ctx
  | Return _ ctx => stack_ok ctx
  end.

Lemma handled_ok cycle (pass' : Z) w a (h : M pracc_state (Z * mips32_pracc_context)) :
  ensures ctx_ok stack_fault h ->
  ensures turn_ok stack_fault
    ('(retval, ctx) <- h ;;
     if negb (retval =? ERROR_OK) then ret (Return retval ctx)
     else
       modify (record (Served w a)) ;;
       if cycle =? 0 then ret (Break ctx) else ret (Next ctx pass')).
Proof.
  intros Hh. apply (ensures_bind ctx_ok); [exact Hh|].
  intros [r ctx] Hc. unfold ctx_ok in Hc. simpl in Hc.
  destruct (negb (r =? ERROR_OK)); [apply ensures_ret; exact Hc|].
  apply (ensures_bind (fun _ => True)); [apply ensures_modify|]. intros _ _.
  destruct (cycle =? 0); apply ensures_ret; exact Hc.
Qed.

Lemma pracc_turn_stack cycle ctx pass :
  stack_ok ctx -> ensures turn_ok stack_fault (pracc_turn cycle ctx pass).
Proof.
  intros H. unfold pracc_turn.
  apply (ensures_bind (fun _ => True)); [apply wait_for_pracc_rw_stack|].
  intros [r ctrl] _.
  destruct (negb (r =? ERROR_OK)); [apply ensures_ret; exact H|].
  apply (ensures_bind (fun _ => True)); [apply set_instr_stack|]. intros _ _.
  apply (ensures_bind (fun _ => True)); [apply drscan_32_stack|].
  intros [r2 address] _.
  destruct (negb (r2 =? ERROR_OK)); [apply ensures_ret; exact H|].
  apply (ensures_bind (fun _ => True)); [apply ensures_modify|]. intros _ _.
  destruct (negb (Z.land ctrl EJTAG_CTRL_PRNW =? 0)).
  - apply handled_ok. apply exec_write_stack. exact H.
  - destruct ((address =? MIPS32_PRACC_TEXT) && negb (pass =? 0));
      [apply ensures_ret; exact H|].
    apply handled_ok. apply exec_read_stack. exact H.
Qed.

Lemma pracc_loop_stack cycle n : forall ctx pass,
  stack_ok ctx -> ensures ctx_ok stack_fault (pracc_loop n cycle ctx pass).
Proof.
  induction n as [|n IH]; intros ctx pass H; cbn [pracc_loop].
  - apply ensures_stuck. exact I.
  - apply (ensures_bind turn_ok); [apply pracc_turn_stack; exact H|].
    intros [c p|c|r c] Ht; simpl in Ht.
    + apply IH. exact Ht.
    + apply ensures_ret. exact Ht.
    + apply ensures_ret. exact Ht.
Qed.

(** C9, as amended: [mips32_pracc_exec] checks no bound of its debug stack.
    The offset starts at 0; a run that returns has made every access to
    the stack in bounds, and the offset is then in [0, 32] and the stack
    has its 32 slots.  The first access that a run makes outside the stack,
    if it makes one, is at slot -1 (a load from PRACC_STACK with the offset
    at 0) or at slot 32 (a store to PRACC_STACK with the offset at 32);
    what the C code does after such an access is not defined, and nothing
    is said about it here. *)
Theorem pracc_exec_stack_bounds code_len code num_param_in param_in
        num_param_out param_out cycle s :
  match pracc_exec_ctx code_len code num_param_in param_in
                       num_param_out param_out cycle s with
  | Done (_, ctx) _ => length (stack ctx) = 32%nat /\ 0 <= stack_offset ctx <= 32
  | Stuck (BadStackIndex i) _ => i = -1 \/ i = 32
  | Stuck _ _ => True
  end.
Proof.
  assert (H : ensures ctx_ok stack_fault
                (pracc_exec_ctx code_len code num_param_in param_in
                                num_param_out param_out cycle)).
  { unfold pracc_exec_ctx.
    apply (ensures_bind (fun _ => True)); [apply ensures_modify|]. intros _ _.
    apply pracc_loop_stack. split; simpl; [reflexivity|lia]. }
  specialize (H s).
  destruct (pracc_exec_ctx code_len code num_param_in param_in
                           num_param_out param_out cycle s) as [[r ctx] s'|f s'].
  - exact H.
  - destruct f; try exact I. exact H.
Qed.

(** With nothing on the stack, a load from PRACC_STACK indexes slot -1. *)
Lemma exec_read_empty_stack ctx s :
  in_area MIPS32_PRACC_STACK MIPS32_PRACC_PARAM_IN (num_iparam ctx) = false ->
  in_area MIPS32_PRACC_STACK MIPS32_PRACC_PARAM_OUT (num_oparam ctx) = false ->
  in_area MIPS32_PRACC_STACK MIPS32_PRACC_TEXT (code_len ctx) = false ->
  stack_offset ctx = 0 ->
  mips32_pracc_exec_read ctx MIPS32_PRACC_STACK s = Stuck (BadStackIndex (-1)) s.
Proof.
  intros H1 H2 H3 H0. unfold mips32_pracc_exec_read.
  rewrite H1, H2, H3, Z.eqb_refl. cbn [stack stack_offset set_stack_offset].
  rewrite H0. reflexivity.
Qed.

(** ** The exit of the executor *)

(** The executor is its loop run on a fresh context, after the call has
    been recorded. *)
Lemma pracc_exec_unfold code_len code num_param_in param_in
      num_param_out param_out cycle s :
  mips32_pracc_exec code_len code num_param_in param_in
                    num_param_out param_out cycle s =
  match pracc_loop fuel cycle
          (mk_ctx param_in num_param_in param_out num_param_out code code_len
                  fresh_stack 0) 0
          (record (Exec code_len num_param_in num_param_out cycle
                        (param_snapshot param_in)) s) with
  | Done (r, ctx) s1 => Done (r, local_iparam ctx, local_oparam ctx) s1
  | Stuck f s1 => Stuck f s1
  end.
Proof.
  unfold mips32_pracc_exec, pracc_exec_ctx, bind, modify, ret.
  destruct (pracc_loop _ _ _ _ _) as [[r c] s1|f s1]; reflexivity.
Qed.

(** C4: [mips32_pracc_exec] with [cycle] not 0 returns [ERROR_OK] exactly
    when the target's accesses were seen and served one after the other,
    one of them being a read at [MIPS32_PRACC_TEXT] (the first such read is
    served like any other access), and the next access seen is a read at
    [MIPS32_PRACC_TEXT] again: that second read is not served and the run
    ends there.  With [cycle == 0] it returns [ERROR_OK] exactly when the
    first access was seen and served: the run ends after that one service
    cycle.  In both cases the parameter arrays are as the handlers left
    them. *)
Theorem pracc_exec_exit code_len code num_param_in param_in
        num_param_out param_out cycle s pin pout s' :
  let ctx0 := mk_ctx param_in num_param_in param_out num_param_out code code_len
                     fresh_stack 0 in
  let s0 := record (Exec code_len num_param_in num_param_out cycle
                         (param_snapshot param_in)) s in
  (cycle <> 0 ->
   (mips32_pracc_exec code_len code num_param_in param_in
                      num_param_out param_out cycle s =
    Done (ERROR_OK, pin, pout) s' <->
    exists served ctx1 s1 s2,
      (length served < fuel)%nat /\
      served_run ctx0 s0 served ctx1 s1 /\
      text_reads served = 1 /\
      next_access s1 = Done (ERROR_OK, false, MIPS32_PRACC_TEXT) s2 /\
      s' = record (Access false MIPS32_PRACC_TEXT) s2 /\
      pin = local_iparam ctx1 /\ pout = local_oparam ctx1)) /\
  (cycle = 0 ->
   (mips32_pracc_exec code_len code num_param_in param_in
                      num_param_out param_out cycle s =
    Done (ERROR_OK, pin, pout) s' <->
    exists w a s1 ctx1 s2,
      fuel <> O /\
      next_access s0 = Done (ERROR_OK, w, a) s1 /\
      serve ctx0 w a (record (Access w a) s1) = Done (ERROR_OK, ctx1) s2 /\
      s' = record (Served w a) s2 /\
      pin = local_iparam ctx1 /\ pout = local_oparam ctx1)).
Proof.
  intros ctx0 s0. rewrite pracc_exec_unfold. fold ctx0. fold s0.
  split; intros Hc; split.
  - (* a run that returns ERROR_OK ended on the second read *)
    intros H.
    destruct (pracc_loop fuel cycle ctx0 0 s0) as [[r ctx1] s1|f s1] eqn:E;
      [|discriminate H].
    inversion H; subst r pin pout s1; clear H.
    destruct (loop_ok_inv cycle Hc fuel ctx0 0 s0 ctx1 s' (or_introl eq_refl) E)
      as (served & s1 & s2 & Hl & R & Ht & Hn & Hs).
    exists served, ctx1, s1, s2. rewrite Z.add_0_r in Ht. auto 10.
  - (* the accesses served and the second read make the run return *)
    intros (served & ctx1 & s1 & s2 & Hl & R & Ht & Hn & -> & -> & ->).
    replace fuel with (length served + S (fuel - S (length served)))%nat by lia.
    rewrite (loop_runs cycle Hc ctx0 s0 served ctx1 s1 R _ 0 (Z.le_refl 0))
      by (rewrite Ht; discriminate).
    cbn [pracc_loop]. unfold bind.
    rewrite (turn_exits cycle ctx1 (0 + text_reads served) s1 s2 Hn)
      by (rewrite Ht; discriminate).
    reflexivity.
  - (* one cycle: the first access was served *)
    intros H.
    destruct (pracc_loop fuel cycle ctx0 0 s0) as [[r ctx1] s1|f s1] eqn:E;
      [|discriminate H].
    inversion H; subst r pin pout s1; clear H.
    destruct fuel as [|n] eqn:Ef; [discriminate E|].
    cbn [pracc_loop] in E.
    apply bind_Done in E. destruct E as (t & s1 & Ht & E).
    apply turn_inv in Ht. destruct t as [c p|c|r c].
    + destruct Ht as [Hne _]. contradiction.
    + inversion E; subst c s1; clear E.
      destruct Ht as [(Hp & _)|(_ & w & a & s1 & s2 & Hn & _ & Hs & ->)];
        [contradiction Hp; reflexivity|].
      exists w, a, s1, ctx1, s2. split; [discriminate|]. auto 10.
    + inversion E; subst. contradiction.
  - intros (w & a & s1 & ctx1 & s2 & Hf & Hn & Hs & -> & -> & ->).
    destruct fuel as [|n]; [contradiction|].
    cbn [pracc_loop]. unfold bind.
    rewrite (turn_serves cycle ctx0 0 s0 w a s1 ctx1 s2 Hn (fun _ => eq_refl) Hs).
    apply Z.eqb_eq in Hc. rewrite Hc. reflexivity.
Qed.

(** ** The executions a primitive issues *)

Definition is_exec (e : event) : bool :=
  match e with Exec _ _ _ _ _ => true | _ => false end.

(** The calls of [mips32_pracc_exec] in a trace. *)
Definition exec_calls (l : list event) : list event := filter is_exec l.

Lemma exec_calls_served l : exec_calls (served_trace l) = [].
Proof. induction l as [|[w a] l IH]; simpl; auto. Qed.

(** A run of [mips32_pracc_exec] adds one call to the trace. *)
Lemma exec_adds_one_call code_len code num_param_in param_in
      num_param_out param_out cycle s :
  exec_calls (log (final (mips32_pracc_exec code_len code num_param_in param_in
                                            num_param_out param_out cycle s))) =
  exec_calls (log s) ++
  [Exec code_len num_param_in num_param_out cycle (param_snapshot param_in)].
Proof.
  rewrite pracc_exec_unfold.
  set (s0 := record (Exec code_len num_param_in num_param_out cycle
                          (param_snapshot param_in)) s).
  set (ctx0 := mk_ctx param_in num_param_in param_out num_param_out code code_len
                      fresh_stack 0).
  pose proof (pracc_loop_result cycle fuel ctx0 0 s0 (or_introl eq_refl)) as L.
  assert (H0 : forall evs, exec_calls evs = [] ->
                exec_calls (log s0 ++ evs) =
                exec_calls (log s) ++
                [Exec code_len num_param_in num_param_out cycle
                      (param_snapshot param_in)]).
  { intros evs He. subst s0. unfold exec_calls in *. simpl.
    rewrite !filter_app, He, app_nil_r. reflexivity. }
  assert (Hs : forall served tail, exec_calls tail = [] ->
                exec_calls (served_trace served ++ tail) = []).
  { intros served tail He. unfold exec_calls in *.
    rewrite filter_app, He, app_nil_r. apply exec_calls_served. }
  destruct (pracc_loop fuel cycle ctx0 0 s0) as [[r ctx] s1|f s1];
    inversion L as [served c s' Hl _ _|w a c s' _ Hl
                    |served tail o Hl Ht _ _ _]; subst; simpl in *; rewrite Hl;
    apply H0; try (apply Hs; try reflexivity);
    try reflexivity;
    destruct Ht as [->|(w & a & -> & _)]; reflexivity.
Qed.

(** The blocks of a 32-bit read of [count] words from [addr], as (address
    parameter, size), in at most [n] turns. *)
Fixpoint read_blocks (n : nat) (addr count : Z) : list (Z * Z) :=
  if count >? 0 then
    match n with
    | O => []
    | S n' =>
        let blocksize := if count >? 0x400 then 0x400 else count in
        (to_u32 addr, blocksize)
          :: read_blocks n' (to_u32 (addr + blocksize)) (count - blocksize)
    end
  else [].

(** The call of the executor for one block of a 32-bit read. *)
Definition read_block_call (b : Z * Z) : event :=
  Exec (ARRAY_SIZE read_mem32_code) 2 (snd b) 1 (Some [fst b; to_u32 (snd b)]).

Definition returned_ok {A} (o : outcome pracc_state (Z * A)) : Prop :=
  match o with Done (r, _) _ => r = ERROR_OK | Stuck _ _ => False end.

Lemma read_mem32_loop_calls n : forall addr count buf bytesread retval s,
  exists k,
    exec_calls (log (final (read_mem32_loop n addr count buf bytesread retval s))) =
    exec_calls (log s) ++ firstn k (map read_block_call (read_blocks n addr count)) /\
    (retval = ERROR_OK ->
     returned_ok (read_mem32_loop n addr count buf bytesread retval s) ->
     (length (read_blocks n addr count) <= k)%nat /\
     (0 < count -> n <> O)).
Proof.
  induction n as [|n IH]; intros addr count buf bytesread retval s; simpl.
  - destruct (count >? 0) eqn:C; exists O; simpl; rewrite app_nil_r;
      (split; [reflexivity|]); intros _ H; [contradiction|].
    split; [lia|]. zbool. lia.
  - destruct (count >? 0) eqn:C.
    2:{ exists O. simpl. rewrite app_nil_r. split; [reflexivity|].
        intros _ _. split; [lia|]. intros _ E. discriminate E. }
    set (blocksize := if count >? 1024 then 1024 else count).
    set (param_in := [to_u32 addr; to_u32 blocksize]).
    pose proof (exec_adds_one_call (ARRAY_SIZE read_mem32_code) read_mem32_code
                  (ARRAY_SIZE param_in) (Some (param_in, 0)) blocksize
                  (Some (buf, bytesread)) 1 s) as Hx.
    rewrite final_bind. unfold bind.
    destruct (mips32_pracc_exec (ARRAY_SIZE read_mem32_code) read_mem32_code
                (ARRAY_SIZE param_in) (Some (param_in, 0)) blocksize
                (Some (buf, bytesread)) 1 s) as [[[r pin] pout] s1|f s1];
      simpl in Hx.
    + destruct (r =? ERROR_OK) eqn:Cr; zbool; cbn [negb]; cbv iota.
      * destruct (IH (to_u32 (addr + blocksize)) (count - blocksize)
                     (ptr_array pout buf) (bytesread + blocksize) r s1)
          as (k & Hk & Hok).
        exists (S k). split.
        -- rewrite Hk, Hx, <- app_assoc. reflexivity.
        -- intros _ Hret. specialize (Hok Cr Hret). simpl.
           split; [lia|]. intros _ E. discriminate E.
      * exists 1%nat. split; [simpl; exact Hx|].
        intros _ Hret. simpl in Hret. contradiction.
    + exists 1%nat. split; [simpl; exact Hx|].
      intros _ Hret. simpl in Hret. contradiction.
Qed.

Lemma read_blocks_sizes n : forall addr count,
  Forall (fun b => 0 < snd b <= 0x400) (read_blocks n addr count).
Proof.
  induction n as [|n IH]; intros addr count; simpl;
    destruct (count >? 0) eqn:C; try constructor.
  - simpl. destruct (count >? 1024) eqn:C2; zbool; lia.
  - apply IH.
Qed.

Lemma read_blocks_total n : forall addr count,
  0 <= count <= Z.of_nat n ->
  fold_right Z.add 0 (map snd (read_blocks n addr count)) = count.
Proof.
  induction n as [|n IH]; intros addr count H; simpl;
    destruct (count >? 0) eqn:C; zbool; simpl; try lia.
  rewrite IH; [lia|]. destruct (count >? 1024) eqn:C2; zbool; lia.
Qed.

Lemma narrow_copy_log n : forall i width param_out buf,
  preserves same_log (narrow_copy n i width param_out buf).
Proof. induction n as [|n IH]; intros i width po buf; simpl; log_frame. Qed.

Lemma exec_then_ret_calls {A} code_len stub num_param_in param_in
      num_param_out param_out cycle (k : Z * ptr * ptr -> M pracc_state A) s :
  (forall x, preserves same_log (k x)) ->
  exec_calls (log (final ((x <- mips32_pracc_exec code_len stub num_param_in param_in
                                                  num_param_out param_out cycle ;;
                           k x) s))) =
  exec_calls (log s) ++
  [Exec code_len num_param_in num_param_out cycle (param_snapshot param_in)].
Proof.
  intros Hk.
  pose proof (exec_adds_one_call code_len stub num_param_in param_in
                                 num_param_out param_out cycle s) as Hx.
  rewrite final_bind.
  destruct (mips32_pracc_exec code_len stub num_param_in param_in
                              num_param_out param_out cycle s) as [x s1|f s1];
    simpl in Hx; [|exact Hx].
  specialize (Hk x s1). unfold same_log in Hk. rewrite Hk. exact Hx.
Qed.

Lemma read_narrow_calls stub width addr count buf s :
  exec_calls (log (final (read_narrow stub width addr count buf s))) =
  exec_calls (log s) ++
  [Exec (ARRAY_SIZE stub) 2 count 1
        (Some [to_u32 addr; to_u32 (if count >? 0x400 then 0x400 else count)])].
Proof.
  unfold read_narrow. apply exec_then_ret_calls.
  intros [[r pin] pout]. log_frame. apply narrow_copy_log.
Qed.

(** C5, as amended: a 32-bit read is issued to the executor block by block,
    each block of at least 1 and at most 0x400 words and the blocks adding
    up to [count], the run of blocks stopping early only when an execution
    fails; a 32-bit write is issued as one execution that carries all
    [count] words ([count + 2] input parameters); a 16-bit or 8-bit read is
    issued as one execution with [count] output slots whose count parameter
    is [count] cut down to 0x400. *)
Theorem block_policy addr count buf s :
  (exists k,
     exec_calls (log (final (mips32_pracc_read_mem32 addr count buf s))) =
     exec_calls (log s) ++
     firstn k (map read_block_call (read_blocks (Z.to_nat count) addr count)) /\
     (returned_ok (mips32_pracc_read_mem32 addr count buf s) ->
      (length (read_blocks (Z.to_nat count) addr count) <= k)%nat)) /\
  Forall (fun b => 0 < snd b <= 0x400) (read_blocks (Z.to_nat count) addr count) /\
  (0 <= count ->
   fold_right Z.add 0 (map snd (read_blocks (Z.to_nat count) addr count)) = count) /\
  exec_calls (log (final (mips32_pracc_write_mem32 addr count buf s))) =
  exec_calls (log s) ++
  match aslice buf 0 count with
  | Some data =>
      [Exec (ARRAY_SIZE write_mem32_code) (count + 2) 0 1
            (Some (to_u32 addr :: to_u32 (addr + count * 4) :: data))]
  | None => []
  end /\
  exec_calls (log (final (mips32_pracc_read_mem16 addr count buf s))) =
  exec_calls (log s) ++
  [Exec (ARRAY_SIZE read_mem16_code) 2 count 1
        (Some [to_u32 addr; to_u32 (if count >? 0x400 then 0x400 else count)])] /\
  exec_calls (log (final (mips32_pracc_read_mem8 addr count buf s))) =
  exec_calls (log s) ++
  [Exec (ARRAY_SIZE read_mem8_code) 2 count 1
        (Some [to_u32 addr; to_u32 (if count >? 0x400 then 0x400 else count)])].
Proof.
  split.
  { unfold mips32_pracc_read_mem32.
    destruct (read_mem32_loop_calls (Z.to_nat count) addr count buf 0 ERROR_OK s)
      as (k & Hk & Hok).
    exists k. split; [exact Hk|]. intros Hret. apply (Hok eq_refl Hret). }
  split; [apply read_blocks_sizes|].
  split; [intros Hc; apply read_blocks_total; lia|].
  split.
  { unfold mips32_pracc_write_mem32.
    destruct (aslice buf 0 count) as [data|].
    - apply exec_then_ret_calls. intros [[r pin] pout]. log_frame.
    - simpl. rewrite app_nil_r. reflexivity. }
  split; apply read_narrow_calls.
Qed.

(** ** The work area of a FASTDATA transfer *)

(** C8: with a work area smaller than the handler,
    [mips32_pracc_fastdata_xfer] returns
    [ERROR_TARGET_RESOURCE_NOT_AVAILABLE] and nothing has happened: the
    link, the fields of [ejtag_info], the trace and the buffer are as they
    were. *)
Theorem fastdata_xfer_small_work_area source_address source_size write_t
        addr count buf s :
  source_size < MIPS32_FASTDATA_HANDLER_SIZE ->
  mips32_pracc_fastdata_xfer source_address source_size write_t addr count buf s =
  Done (ERROR_TARGET_RESOURCE_NOT_AVAILABLE, buf) s.
Proof.
  intros H. unfold mips32_pracc_fastdata_xfer.
  apply Z.ltb_lt in H. rewrite H. reflexivity.
Qed.

(** ** $15 and COP0 DeSave in the stubs *)

(** The stubs beside [read_mem16]. *)
Definition sibling_memory_stubs : list (list Z) :=
  [ read_u32_code; read_mem32_code; read_mem8_code;
    write_u32_code; write_mem32_code; write_mem16_code; write_mem8_code ].

(** The coprocessor register an [MFC0] or [MTC0] word names (its [rd]
    field) and the general register it moves (its [rt] field). *)
Definition cop0_register (w : Z) : Z := Z.land (Z.shiftr w 11) 31.
Definition moved_register (w : Z) : Z := Z.land (Z.shiftr w 16) 31.

(** C6 on the code: the [read_mem16] stub moves $15 to COP0 register 31
    (DeSave) with its first instruction, as every other memory stub does,
    but its last instruction, the delay slot of the branch back to the
    start, is [MFC0 15,30,0]: it loads $15 from COP0 register 30, not from
    DeSave, so the $15 it stashed is not what it restores.  Every other
    stub, the two register stubs included, ends with [MFC0 15,31,0]. *)
Theorem read_mem16_restores_from_cop0_30 :
  nth_error read_mem16_code 0 = Some (MIPS32_MTC0 15 31 0) /\
  last read_mem16_code 0 = MIPS32_MFC0 15 30 0 /\
  last read_mem16_code 0 <> MIPS32_MFC0 15 31 0 /\
  moved_register (nth 0 read_mem16_code 0) = 15 /\
  cop0_register (nth 0 read_mem16_code 0) = 31 /\
  moved_register (last read_mem16_code 0) = 15 /\
  cop0_register (last read_mem16_code 0) = 30 /\
  Forall (fun stub => nth_error stub 0 = Some (MIPS32_MTC0 15 31 0) /\
                      last stub 0 = MIPS32_MFC0 15 31 0 /\
                      cop0_register (last stub 0) = 31)
         sibling_memory_stubs /\
  Forall (fun stub => last stub 0 = MIPS32_MFC0 15 31 0 /\
                      cop0_register (last stub 0) = 31)
         [read_regs_code; write_regs_code].
Proof.
  split; [reflexivity|]. split; [reflexivity|].
  split; [vm_compute; intros C; discriminate C|].
  split; [reflexivity|]. split; [reflexivity|].
  split; [reflexivity|]. split; [reflexivity|].
  split; repeat constructor.
Qed.

(** ** The fields of [ejtag_info] are written by the FASTDATA transfer alone *)

Definition same_ejtag (s s' : pracc_state) : Prop :=
  ejtag_ctrl s' = ejtag_ctrl s /\ fast_access_save s' = fast_access_save s.

Lemma same_ejtag_refl s : same_ejtag s s.
Proof. split; reflexivity. Qed.

Lemma same_ejtag_trans s1 s2 s3 : same_ejtag s1 s2 -> same_ejtag s2 s3 -> same_ejtag s1 s3.
Proof.
  intros [A B] [C D]. split; [rewrite C; exact A|rewrite D; exact B].
Qed.

Create HintDb ejtag_frame.

Ltac ejtag_frame :=
  repeat first
    [ frame_step same_ejtag_refl same_ejtag_trans
    | split; reflexivity
    | solve [ auto with ejtag_frame ] ].

Lemma set_instr_ejtag i : preserves same_ejtag (set_instr i).
Proof. intros s. split; reflexivity. Qed.

Lemma drscan_32_ejtag d : preserves same_ejtag (drscan_32 d).
Proof.
  intros s. unfold drscan_32.
  destruct (mips_ejtag_drscan_32 d (world s)) as [[r v] w]. split; reflexivity.
Qed.

Lemma drscan_32_out_ejtag d : preserves same_ejtag (drscan_32_out d).
Proof. intros s. split; reflexivity. Qed.

Lemma fastdata_scan_ejtag t d : preserves same_ejtag (fastdata_scan t d).
Proof.
  intros s. unfold fastdata_scan.
  destruct (mips_ejtag_fastdata_scan t d (world s)) as [[r v] w]. split; reflexivity.
Qed.

Lemma execute_queue_ejtag : preserves same_ejtag execute_queue.
Proof.
  intros s. unfold execute_queue.
  destruct (jtag_execute_queue (world s)) as [r w]. split; reflexivity.
Qed.

Lemma now_ms_ejtag : preserves same_ejtag now_ms.
Proof.
  intros s. unfold now_ms. destruct (timeval_ms (world s)) as [t w]. split; reflexivity.
Qed.
#[local] Hint Resolve set_instr_ejtag drscan_32_ejtag drscan_32_out_ejtag
  fastdata_scan_ejtag execute_queue_ejtag now_ms_ejtag : ejtag_frame.

Lemma wait_loop_ejtag n : forall then_ms ctrl,
  preserves same_ejtag (wait_loop n then_ms ctrl).
Proof. induction n as [|n IH]; intros then_ms ctrl; simpl; ejtag_frame. Qed.
#[local] Hint Resolve wait_loop_ejtag : ejtag_frame.

Lemma wait_for_pracc_rw_ejtag : preserves same_ejtag wait_for_pracc_rw.
Proof. unfold wait_for_pracc_rw. ejtag_frame. Qed.

Lemma load_ejtag p k : preserves same_ejtag (load p k).
Proof. unfold load. ejtag_frame. Qed.

Lemma store_ejtag p k v : preserves same_ejtag (store p k v).
Proof. unfold store. ejtag_frame. Qed.
#[local] Hint Resolve wait_for_pracc_rw_ejtag load_ejtag store_ejtag : ejtag_frame.

Lemma send_data_ejtag d : preserves same_ejtag (send_data d).
Proof. unfold send_data. ejtag_frame. Qed.
#[local] Hint Resolve send_data_ejtag : ejtag_frame.

Lemma exec_read_ejtag ctx a : preserves same_ejtag (mips32_pracc_exec_read ctx a).
Proof. unfold mips32_pracc_exec_read. ejtag_frame. Qed.

Lemma exec_write_ejtag ctx a : preserves same_ejtag (mips32_pracc_exec_write ctx a).
Proof. unfold mips32_pracc_exec_write. ejtag_frame. Qed.
#[local] Hint Resolve exec_read_ejtag exec_write_ejtag : ejtag_frame.

Lemma pracc_turn_ejtag cycle ctx pass : preserves same_ejtag (pracc_turn cycle ctx pass).
Proof. unfold pracc_turn. ejtag_frame. Qed.
#[local] Hint Resolve pracc_turn_ejtag : ejtag_frame.

Lemma pracc_loop_ejtag cycle n : forall ctx pass,
  preserves same_ejtag (pracc_loop n cycle ctx pass).
Proof. induction n as [|n IH]; intros ctx pass; simpl; ejtag_frame. Qed.
#[local] Hint Resolve pracc_loop_ejtag : ejtag_frame.

Lemma pracc_exec_ejtag code_len code num_param_in param_in num_param_out param_out cycle :
  preserves same_ejtag (mips32_pracc_exec code_len code num_param_in param_in
                                          num_param_out param_out cycle).
Proof. unfold mips32_pracc_exec, pracc_exec_ctx. ejtag_frame. Qed.
#[local] Hint Resolve pracc_exec_ejtag : ejtag_frame.

Lemma write_mem32_ejtag addr count buf :
  preserves same_ejtag (mips32_pracc_write_mem32 addr count buf).
Proof. unfold mips32_pracc_write_mem32. ejtag_frame. Qed.

Lemma send_jmp_code_ejtag words : preserves same_ejtag (send_jmp_code words).
Proof. induction words as [|w rest IH]; simpl; ejtag_frame. Qed.

Lemma fastdata_loop_ejtag n : forall i write_t buf,
  preserves same_ejtag (fastdata_loop n i write_t buf).
Proof. induction n as [|n IH]; intros i write_t buf; simpl; ejtag_frame. Qed.
#[local] Hint Resolve write_mem32_ejtag send_jmp_code_ejtag fastdata_loop_ejtag
  : ejtag_frame.

Lemma pracc_Done {A} (R : pracc_state -> pracc_state -> Prop) (m : M pracc_state A) s a s' :
  preserves R m -> m s = Done a s' -> R s s'.
Proof. intros H E. specialize (H s). rewrite E in H. exact H. Qed.

(** ** Waiting for an access *)

Lemma wait_loop_pracc n : forall then_ms ctrl0 s r ctrl s',
  wait_loop n then_ms ctrl0 s = Done (r, ctrl) s' ->
  r = ERROR_OK -> Z.land ctrl EJTAG_CTRL_PRACC <> 0.
Proof.
  induction n as [|n IH]; intros then_ms ctrl0 s r ctrl s' H Hr; simpl in H.
  - discriminate H.
  - apply bind_Done in H. destruct H as ([rv c] & s1 & Hd & H).
    destruct (rv =? ERROR_OK) eqn:C; zbool; cbn [negb] in H.
    + destruct (Z.land c EJTAG_CTRL_PRACC =? 0) eqn:Cp; zbool; cbn [negb] in H.
      * apply bind_Done in H. destruct H as (t & s2 & Ht & H).
        destruct (to_int (t - then_ms) >? 1000).
        -- subst r. inversion H.
        -- eapply IH; eassumption.
      * inversion H; subst. exact Cp.
    + inversion H; subst. contradiction.
Qed.

(** [wait_for_pracc_rw] reports success only with a control word whose
    PrAcc bit is set; it writes neither field of [ejtag_info] and adds
    nothing to the trace. *)
Theorem wait_for_pracc_rw_result s r ctrl s' :
  wait_for_pracc_rw s = Done (r, ctrl) s' ->
  (r = ERROR_OK -> Z.land ctrl EJTAG_CTRL_PRACC <> 0) /\
  log s' = log s /\
  ejtag_ctrl s' = ejtag_ctrl s /\ fast_access_save s' = fast_access_save s.
Proof.
  intros H.
  pose proof (pracc_Done _ _ _ _ _ wait_for_pracc_rw_log H) as Hl.
  pose proof (pracc_Done _ _ _ _ _ wait_for_pracc_rw_ejtag H) as [He Hf].
  split; [|split; [exact Hl|split; assumption]].
  unfold wait_for_pracc_rw in H.
  apply bind_Done in H. destruct H as (t0 & s1 & _ & H).
  apply bind_Done in H. destruct H as (u & s2 & _ & H).
  apply bind_Done in H. destruct H as (c0 & s3 & _ & H).
  apply bind_Done in H. destruct H as (rq & s4 & _ & H).
  destruct (rq =? ERROR_OK) eqn:C; zbool; cbn [negb] in H.
  - eapply wait_loop_pracc. exact H.
  - inversion H; subst. intros N. contradiction.
Qed.

(** ** The areas of the debug segment *)

(** The range test of a parameter area takes the address one past its last
    word: a read there passes the test and indexes the array at its length,
    one element past the end. *)
Theorem exec_read_one_past_the_end ctx a s :
  local_iparam ctx = Some (a, 0) ->
  Z.of_nat (length a) = num_iparam ctx ->
  0 <= MIPS32_PRACC_PARAM_IN ->
  MIPS32_PRACC_PARAM_IN + num_iparam ctx * 4 < 2 ^ 32 ->
  mips32_pracc_exec_read ctx (MIPS32_PRACC_PARAM_IN + num_iparam ctx * 4) s =
  Stuck (OutOfBounds (num_iparam ctx)) s.
Proof.
  intros Hp Hl H0 Hmax. unfold mips32_pracc_exec_read.
  assert (Hn : 0 <= num_iparam ctx) by lia.
  assert (Ha : in_area (MIPS32_PRACC_PARAM_IN + num_iparam ctx * 4)
                       MIPS32_PRACC_PARAM_IN (num_iparam ctx) = true).
  { unfold in_area. rewrite to_u32_small by lia.
    apply andb_true_intro. split; [apply Z.geb_le|apply Z.leb_le]; lia. }
  rewrite Ha. unfold area_offset.
  replace (MIPS32_PRACC_PARAM_IN + num_iparam ctx * 4 - MIPS32_PRACC_PARAM_IN)
    with (num_iparam ctx * 4) by lia.
  rewrite to_u32_small by lia. rewrite Z.quot_mul by lia.
  rewrite Hp. unfold bind at 1. unfold load. unfold aget.
  replace ((0 <=? 0 + num_iparam ctx) && (0 + num_iparam ctx <? Z.of_nat (length a)))
    with false.
  - reflexivity.
  - symmetry. apply andb_false_iff. right. apply Z.ltb_ge. lia.
Qed.

Definition unexpected_address (ctx : mips32_pracc_context) (address : Z) : Prop :=
  in_area address MIPS32_PRACC_PARAM_IN (num_iparam ctx) = false /\
  in_area address MIPS32_PRACC_PARAM_OUT (num_oparam ctx) = false /\
  address <> MIPS32_PRACC_STACK.

(** An access outside the areas the executor knows: a read (outside the
    text area too) is refused with [ERROR_JTAG_DEVICE_ERROR] before
    anything is sent to the target; a write is refused with an error only
    after the data was taken and the access completed, and a write into the
    text area is refused like any other.  Neither changes the parameter
    arrays or the debug stack. *)
Theorem unexpected_address_refused ctx address s :
  unexpected_address ctx address ->
  (in_area address MIPS32_PRACC_TEXT (code_len ctx) = false ->
   mips32_pracc_exec_read ctx address s = Done (ERROR_JTAG_DEVICE_ERROR, ctx) s) /\
  (forall r ctx' s',
     mips32_pracc_exec_write ctx address s = Done (r, ctx') s' ->
     r <> ERROR_OK /\ ctx' = ctx).
Proof.
  intros (Hi & Ho & Hs). split.
  - intros Ht. unfold mips32_pracc_exec_read. apply Z.eqb_neq in Hs.
    rewrite Hi, Ho, Ht, Hs. reflexivity.
  - intros r ctx' s' H. unfold mips32_pracc_exec_write in H.
    apply bind_Done in H. destruct H as (u & s1 & _ & H).
    apply bind_Done in H. destruct H as ([rv d] & s2 & _ & H).
    destruct (rv =? ERROR_OK) eqn:C; zbool; cbn [negb] in H.
    + apply bind_Done in H. destruct H as (c & s3 & _ & H).
      apply bind_Done in H. destruct H as (u1 & s4 & _ & H).
      apply bind_Done in H. destruct H as (u2 & s5 & _ & H).
      apply bind_Done in H. destruct H as (rq & s6 & _ & H).
      destruct (rq =? ERROR_OK) eqn:Cq; zbool; cbn [negb] in H.
      * cbv iota in H. apply Z.eqb_neq in Hs. rewrite Hi, Ho, Hs in H.
        inversion H; subst.
        split; [intros N; discriminate N|reflexivity].
      * inversion H; subst. auto.
    + inversion H; subst. auto.
Qed.

(** ** The debug stack is last in, first out *)


(** ** Requests that do not reach the target *)

(** A memory access with an element size other than 1, 2 or 4 returns
    [ERROR_OK] without doing anything, and so does a 32-bit read of no
    words. *)
Theorem memory_access_without_effect addr size count buf s :
  (size <> 1 -> size <> 2 -> size <> 4 ->
   mips32_pracc_read_mem addr size count buf s = Done (ERROR_OK, buf) s /\
   mips32_pracc_write_mem addr size count buf s = Done ERROR_OK s) /\
  (size = 4 -> count <= 0 ->
   mips32_pracc_read_mem addr size count buf s = Done (ERROR_OK, buf) s).
Proof.
  split.
  - intros H1 H2 H4. unfold mips32_pracc_read_mem, mips32_pracc_write_mem.
    apply Z.eqb_neq in H1, H2, H4. rewrite H1, H2, H4. split; reflexivity.
  - intros -> Hc. unfold mips32_pracc_read_mem.
    change (4 =? 1) with false. change (4 =? 2) with false. change (4 =? 4) with true.
    cbv iota.
    replace (count =? 1) with false by (symmetry; apply Z.eqb_neq; lia).
    unfold mips32_pracc_read_mem32.
    assert (C : (count >? 0) = false) by (rewrite Z.gtb_ltb; apply Z.ltb_ge; lia).
    destruct (Z.to_nat count); simpl; rewrite C; reflexivity.
Qed.

(** ** One execution per primitive *)

(** The single-word accesses, the 16-bit and 8-bit writes and the register
    transfers each run the executor once, with these sizes: [read_u32] one
    input (the address) and one output; [write_u32] two inputs (address,
    word) and no output; a narrow write [count + 2] inputs (address, count,
    then the elements) and no output; the register transfers 38 words, as
    inputs for [write_regs] and as outputs for [read_regs]. *)
Theorem single_execution_primitives addr count buf regs s :
  exec_calls (log (final (mips32_pracc_read_u32 addr buf s))) =
    exec_calls (log s) ++ [Exec 10 1 1 1 (Some [to_u32 addr])] /\
  (forall v, aget buf 0 = Some v ->
     exec_calls (log (final (mips32_pracc_write_u32 addr buf s))) =
       exec_calls (log s) ++ [Exec 12 2 0 1 (Some [to_u32 addr; v])]) /\
  (forall data, aslice buf 0 count = Some data ->
     exec_calls (log (final (mips32_pracc_write_mem16 addr count buf s))) =
       exec_calls (log s) ++
       [Exec 27 (count + 2) 0 1 (Some (to_u32 addr :: to_u32 count :: data))] /\
     exec_calls (log (final (mips32_pracc_write_mem8 addr count buf s))) =
       exec_calls (log s) ++
       [Exec 27 (count + 2) 0 1 (Some (to_u32 addr :: to_u32 count :: data))]) /\
  exec_calls (log (final (mips32_pracc_write_regs regs s))) =
    exec_calls (log s) ++ [Exec 54 38 0 1 (Some regs)] /\
  exec_calls (log (final (mips32_pracc_read_regs regs s))) =
    exec_calls (log s) ++ [Exec 59 0 38 1 None].
Proof.
  split; [|split; [|split; [|split]]].
  - unfold mips32_pracc_read_u32.
    apply (exec_then_ret_calls 10 read_u32_code 1 (Some ([to_u32 addr], 0))).
    intros [[r pin] pout]. log_frame.
  - intros v Hv. unfold mips32_pracc_write_u32. rewrite Hv.
    apply (exec_then_ret_calls 12 write_u32_code 2 (Some ([to_u32 addr; v], 0))).
    intros [[r pin] pout]. log_frame.
  - intros data Hd. unfold mips32_pracc_write_mem16, mips32_pracc_write_mem8, write_narrow.
    rewrite Hd. split.
    + apply (exec_then_ret_calls 27 write_mem16_code (count + 2)
               (Some (to_u32 addr :: to_u32 count :: data, 0))).
      intros [[r pin] pout]. log_frame.
    + apply (exec_then_ret_calls 27 write_mem8_code (count + 2)
               (Some (to_u32 addr :: to_u32 count :: data, 0))).
      intros [[r pin] pout]. log_frame.
  - unfold mips32_pracc_write_regs.
    apply (exec_then_ret_calls 54 write_regs_code 38 (Some (regs, 0))).
    intros [[r pin] pout]. log_frame.
  - unfold mips32_pracc_read_regs.
    apply (exec_then_ret_calls 59 read_regs_code 0 None).
    intros [[r pin] pout]. log_frame.
Qed.

(** ** Where the blocks of a 32-bit read are fetched from *)

Lemma to_u32_add_l a b : to_u32 (to_u32 a + b) = to_u32 (a + b).
Proof. unfold to_u32. apply Zplus_mod_idemp_l. Qed.

Lemma read_blocks_nth k : forall n addr count,
  0x400 * Z.of_nat k < count -> count <= Z.of_nat n ->
  nth_error (read_blocks n addr count) k =
  Some (to_u32 (addr + 0x400 * Z.of_nat k), Z.min 0x400 (count - 0x400 * Z.of_nat k)).
Proof.
  induction k as [|k IH]; intros n addr count Hk Hn.
  - destruct n as [|n]; [lia|]. simpl.
    replace (count >? 0) with true by (symmetry; rewrite Z.gtb_ltb; apply Z.ltb_lt; lia).
    simpl. rewrite Z.add_0_r, Z.sub_0_r. f_equal. f_equal.
    destruct (count >? 1024) eqn:C; zbool; lia.
  - destruct n as [|n]; [lia|]. simpl read_blocks.
    replace (count >? 0) with true by (symmetry; rewrite Z.gtb_ltb; apply Z.ltb_lt; lia).
    replace (count >? 1024) with true by (symmetry; rewrite Z.gtb_ltb; apply Z.ltb_lt; lia).
    cbn [nth_error]. rewrite IH by lia.
    rewrite to_u32_add_l. f_equal. f_equal; [f_equal; lia|lia].
Qed.

(** In a 32-bit read of [count] words from [addr] that returns [ERROR_OK],
    the execution that [mips32_pracc_read_mem32] makes for block [k] (the
    call number [k] it adds to the trace, counted from 0) is given the
    address [addr + 0x400 * k] and [min(0x400, count - 0x400 * k)] words:
    from one block to the next the address moves on by the number of words
    read, 0x400, and not by the 0x1000 bytes they take. *)
Theorem read_mem32_block_addresses addr count buf s k :
  0 <= k -> 0x400 * k < count ->
  returned_ok (mips32_pracc_read_mem32 addr count buf s) ->
  nth_error (exec_calls (log (final (mips32_pracc_read_mem32 addr count buf s))))
            (length (exec_calls (log s)) + Z.to_nat k) =
  Some (Exec (ARRAY_SIZE read_mem32_code) 2 (Z.min 0x400 (count - 0x400 * k)) 1
             (Some [to_u32 (addr + 0x400 * k);
                    to_u32 (Z.min 0x400 (count - 0x400 * k))])).
Proof.
  intros Hk Hc Hret. unfold mips32_pracc_read_mem32 in *.
  destruct (read_mem32_loop_calls (Z.to_nat count) addr count buf 0 ERROR_OK s)
    as (n & Hn & Hok).
  destruct (Hok eq_refl Hret) as [Hlen _].
  rewrite Hn, firstn_all2 by (rewrite length_map; exact Hlen).
  rewrite nth_error_app2 by lia.
  replace (length (exec_calls (log s)) + Z.to_nat k - length (exec_calls (log s)))%nat
    with (Z.to_nat k) by lia.
  rewrite nth_error_map.
  pose proof (read_blocks_nth (Z.to_nat k) (Z.to_nat count) addr count) as H.
  rewrite !Z2Nat.id in H by lia. rewrite H by lia. reflexivity.
Qed.

(** ** The handler of a FASTDATA transfer *)

(** With a work area that is large enough, the handler is written to the
    target, in one execution of the 32-bit write stub with the handler's 20
    words, exactly when the direction differs from the one saved in
    [fast_access_save]; no other execution is made, and once the transfer
    returns the direction is saved, whatever became of the write. *)
Theorem fastdata_xfer_handler source_address source_size write_t addr count buf s :
  MIPS32_FASTDATA_HANDLER_SIZE <= source_size ->
  exec_calls (log (final (mips32_pracc_fastdata_xfer source_address source_size
                            write_t addr count buf s))) =
  exec_calls (log s) ++
  (if write_t =? fast_access_save s then []
   else [Exec 22 22 0 1
              (Some (to_u32 source_address :: to_u32 (source_address + 20 * 4)
                       :: handler_code write_t))]) /\
  (forall r buf' s',
     mips32_pracc_fastdata_xfer source_address source_size write_t addr count buf s =
       Done (r, buf') s' ->
     fast_access_save s' = write_t /\ ejtag_ctrl s' = ejtag_ctrl s).
Proof.
  intros Hsz.
  assert (Csz : (source_size <? MIPS32_FASTDATA_HANDLER_SIZE) = false)
    by (apply Z.ltb_ge; exact Hsz).
  set (rest := fun (_ : unit) =>
    retval <- send_jmp_code (jmp_code source_address) ;;
    if negb (retval =? ERROR_OK) then ret (retval, buf)
    else
      '(retval, _) <- wait_for_pracc_rw ;;
      if negb (retval =? ERROR_OK) then ret (retval, buf)
      else
        set_instr EJTAG_INST_ADDRESS ;;
        '(retval, address) <- drscan_32 0 ;;
        if negb (retval =? ERROR_OK) then ret (retval, buf)
        else if negb (address =? MIPS32_PRACC_FASTDATA_AREA) then ret (ERROR_FAIL, buf)
        else
          '(retval, _) <- wait_for_pracc_rw ;;
          if negb (retval =? ERROR_OK) then ret (retval, buf)
          else
            set_instr EJTAG_INST_FASTDATA ;;
            fastdata_scan 1 (to_u32 addr) ;;
            fastdata_scan 1 (to_u32 (addr + (count - 1) * 4)) ;;
            '(retval, buf) <- fastdata_loop (Z.to_nat count) 0 write_t buf ;;
            if negb (retval =? ERROR_OK) then ret (retval, buf)
            else
              retval <- execute_queue ;;
              if negb (retval =? ERROR_OK) then ret (retval, buf)
              else
                '(retval, _) <- wait_for_pracc_rw ;;
                if negb (retval =? ERROR_OK) then ret (retval, buf)
                else
                  set_instr EJTAG_INST_ADDRESS ;;
                  '(retval, address) <- drscan_32 0 ;;
                  ret (retval, buf)).
  assert (Rl : forall u, preserves same_log (rest u)).
  { intros u. unfold rest. log_frame.
    - induction (jmp_code source_address) as [|w ws IHw]; simpl; log_frame.
    - generalize 0 as i. generalize buf as b.
      induction (Z.to_nat count) as [|n IHn]; intros b i; simpl; log_frame. }
  assert (Re : forall u, preserves same_ejtag (rest u)).
  { intros u. unfold rest. ejtag_frame. }
  assert (E : mips32_pracc_fastdata_xfer source_address source_size write_t addr count buf =
              (saved <- gets fast_access_save ;;
               (if negb (write_t =? saved) then
                  mips32_pracc_write_mem32 source_address
                    (ARRAY_SIZE (handler_code write_t)) (handler_code write_t) ;;
                  modify (set_fast_access_save write_t)
                else ret tt) ;;
               rest tt)).
  { unfold mips32_pracc_fastdata_xfer. rewrite Csz. reflexivity. }
  rewrite E. clear E. split.
  - unfold bind at 1. unfold gets at 1.
    destruct (write_t =? fast_access_save s) eqn:C; cbn [negb].
    + unfold bind at 1. unfold ret at 1.
      pose proof (Rl tt s) as H. unfold same_log in H. rewrite H, app_nil_r. reflexivity.
    + rewrite final_bind.
      assert (Hw : exec_calls
                (log (final ((mips32_pracc_write_mem32 source_address
                                (ARRAY_SIZE (handler_code write_t)) (handler_code write_t) ;;
                              modify (set_fast_access_save write_t)) s))) =
              exec_calls (log s) ++
              [Exec 22 22 0 1
                    (Some (to_u32 source_address :: to_u32 (source_address + 20 * 4)
                             :: handler_code write_t))]).
      { unfold mips32_pracc_write_mem32.
        change (aslice (handler_code write_t) 0 (ARRAY_SIZE (handler_code write_t)))
          with (Some (handler_code write_t)).
        cbv iota.
        pose proof (exec_then_ret_calls 22 write_mem32_code 22
                      (Some (to_u32 source_address :: to_u32 (source_address + 20 * 4)
                               :: handler_code write_t, 0)) 0 None 1
                      (fun x => (let '(retval, _, _) := x in ret retval) ;;
                                modify (set_fast_access_save write_t)) s) as Hx.
        cbn [param_snapshot] in Hx. rewrite bind_assoc. rewrite <- Hx.
        - reflexivity.
        - intros [[r pin] pout]. log_frame. }
      destruct ((mips32_pracc_write_mem32 source_address
                   (ARRAY_SIZE (handler_code write_t)) (handler_code write_t) ;;
                 modify (set_fast_access_save write_t)) s) as [u s1|f s1];
        cbn [final] in Hw.
      * cbv iota. pose proof (Rl tt s1) as H. unfold same_log in H.
        rewrite H. exact Hw.
      * exact Hw.
  - intros r buf' s' H.
    apply bind_Done in H. destruct H as (saved & s0 & Hg & H).
    inversion Hg; subst saved s0; clear Hg.
    apply bind_Done in H. destruct H as (u & s1 & Hh & H).
    pose proof (pracc_Done _ _ _ _ _ (Re u) H) as [Hc Hf].
    rewrite Hc, Hf. clear H.
    destruct (write_t =? fast_access_save s) eqn:C; zbool; cbn [negb] in Hh.
    + inversion Hh; subst. auto.
    + apply bind_Done in Hh. destruct Hh as (rw & s2 & Hw & Hm).
      inversion Hm; subst s1. cbn [fast_access_save ejtag_ctrl set_fast_access_save].
      pose proof (pracc_Done _ _ _ _ _ (write_mem32_ejtag _ _ _) Hw) as [Hc2 _].
      auto.
Qed.

End Engine.

(** ** The fields of an instruction word *)

Lemma lor_add a b n q :
  0 <= n -> a = q * 2 ^ n -> 0 <= b < 2 ^ n -> Z.lor a b = a + b.
Proof.
  intros Hn -> Hlo.
  assert (D : Z.land (q * 2 ^ n) b = 0).
  { apply Z.bits_inj'. intros m Hm. rewrite Z.land_spec, Z.bits_0.
    destruct (Z_lt_le_dec m n) as [L|G].
    - rewrite Z.mul_pow2_bits_low by lia. reflexivity.
    - replace b with (b mod 2 ^ n) by (apply Z.mod_small; lia).
      rewrite Z.mod_pow2_bits_high by lia. apply andb_false_r. }
  rewrite <- Z.lxor_lor by exact D. symmetry. apply Z.add_nocarry_lxor. exact D.
Qed.

Ltac pow_lia := cbn [Z.pow Z.pow_pos Pos.iter Z.mul Pos.mul] in *; lia.

Lemma R_INST_value opcode rs rt rd shamt funct :
  0 <= opcode < 64 -> 0 <= rs < 32 -> 0 <= rt < 32 -> 0 <= rd < 32 ->
  0 <= shamt < 32 -> 0 <= funct < 64 ->
  MIPS32_R_INST opcode rs rt rd shamt funct =
  opcode * 67108864 + rs * 2097152 + rt * 65536 + rd * 2048 + shamt * 64 + funct.
Proof.
  intros Ho Hs Ht Hd Hh Hf. unfold MIPS32_R_INST.
  rewrite !Z.shiftl_mul_pow2 by lia.
  change (2 ^ 26) with 67108864. change (2 ^ 21) with 2097152.
  change (2 ^ 16) with 65536. change (2 ^ 11) with 2048. change (2 ^ 6) with 64.
  rewrite (lor_add _ (rs * 2097152) 26 opcode) by pow_lia.
  rewrite (lor_add _ (rt * 65536) 21 (opcode * 32 + rs)) by pow_lia.
  rewrite (lor_add _ (rd * 2048) 16 (opcode * 1024 + rs * 32 + rt)) by pow_lia.
  rewrite (lor_add _ (shamt * 64) 11 (opcode * 32768 + rs * 1024 + rt * 32 + rd))
    by pow_lia.
  rewrite (lor_add _ funct 6
             (opcode * 1048576 + rs * 32768 + rt * 1024 + rd * 32 + shamt))
    by pow_lia.
  apply to_u32_small. pow_lia.
Qed.

Lemma I_INST_value opcode rs rt immd :
  0 <= opcode < 64 -> 0 <= rs < 32 -> 0 <= rt < 32 -> 0 <= immd < 65536 ->
  MIPS32_I_INST opcode rs rt immd =
  opcode * 67108864 + rs * 2097152 + rt * 65536 + immd.
Proof.
  intros Ho Hs Ht Hi. unfold MIPS32_I_INST.
  rewrite !Z.shiftl_mul_pow2 by lia.
  change (2 ^ 26) with 67108864. change (2 ^ 21) with 2097152.
  change (2 ^ 16) with 65536.
  rewrite (lor_add _ (rs * 2097152) 26 opcode) by pow_lia.
  rewrite (lor_add _ (rt * 65536) 21 (opcode * 32 + rs)) by pow_lia.
  rewrite (lor_add _ immd 16 (opcode * 1024 + rs * 32 + rt)) by pow_lia.
  apply to_u32_small. pow_lia.
Qed.

Lemma field_of w q f lo n k :
  0 <= n -> 0 < k -> 0 <= lo < 2 ^ n -> 0 <= f < 2 ^ k ->
  w = (q * 2 ^ k + f) * 2 ^ n + lo ->
  Z.land (Z.shiftr w n) (Z.ones k) = f.
Proof.
  intros Hn Hk Hlo Hf ->.
  rewrite Z.shiftr_div_pow2, Z.land_ones by lia.
  rewrite Z.div_add_l by lia. rewrite (Z.div_small lo) by lia.
  rewrite Z.add_0_r, Z.add_comm, Z.mod_add by lia. apply Z.mod_small. lia.
Qed.

Lemma top_field w q lo n :
  0 <= n -> 0 <= lo < 2 ^ n -> w = q * 2 ^ n + lo -> Z.shiftr w n = q.
Proof.
  intros Hn Hlo ->. rewrite Z.shiftr_div_pow2 by lia.
  rewrite Z.div_add_l by lia. rewrite Z.div_small by lia. lia.
Qed.

Lemma low_field w q lo n :
  0 <= n -> 0 <= lo < 2 ^ n -> w = q * 2 ^ n + lo -> Z.land w (Z.ones n) = lo.
Proof.
  intros Hn Hlo ->. rewrite Z.land_ones by lia.
  rewrite Z.add_comm, Z.mod_add by lia. apply Z.mod_small. lia.
Qed.

(** The macros [MIPS32_R_INST] and [MIPS32_I_INST] pack their fields side by
    side: with every field in its range the word fits 32 bits and each
    field is read back from its place by a shift and a mask. *)
Theorem instruction_fields :
  (forall opcode rs rt rd shamt funct,
     0 <= opcode < 64 -> 0 <= rs < 32 -> 0 <= rt < 32 -> 0 <= rd < 32 ->
     0 <= shamt < 32 -> 0 <= funct < 64 ->
     let w := MIPS32_R_INST opcode rs rt rd shamt funct in
     0 <= w < 2 ^ 32 /\
     Z.shiftr w 26 = opcode /\
     Z.land (Z.shiftr w 21) 31 = rs /\
     Z.land (Z.shiftr w 16) 31 = rt /\
     Z.land (Z.shiftr w 11) 31 = rd /\
     Z.land (Z.shiftr w 6) 31 = shamt /\
     Z.land w 63 = funct) /\
  (forall opcode rs rt immd,
     0 <= opcode < 64 -> 0 <= rs < 32 -> 0 <= rt < 32 -> 0 <= immd < 65536 ->
     let w := MIPS32_I_INST opcode rs rt immd in
     0 <= w < 2 ^ 32 /\
     Z.shiftr w 26 = opcode /\
     Z.land (Z.shiftr w 21) 31 = rs /\
     Z.land (Z.shiftr w 16) 31 = rt /\
     Z.land w 65535 = immd).
Proof.
  split.
  - intros opcode rs rt rd shamt funct Ho Hs Ht Hd Hh Hf w.
    pose proof (R_INST_value opcode rs rt rd shamt funct Ho Hs Ht Hd Hh Hf) as E.
    fold w in E.
    split; [pow_lia|].
    split.
    { apply (top_field w opcode
               (rs * 2097152 + rt * 65536 + rd * 2048 + shamt * 64 + funct) 26);
        pow_lia. }
    split.
    { apply (field_of w opcode rs (rt * 65536 + rd * 2048 + shamt * 64 + funct) 21 5);
        pow_lia. }
    split.
    { apply (field_of w (opcode * 32 + rs) rt (rd * 2048 + shamt * 64 + funct) 16 5);
        pow_lia. }
    split.
    { apply (field_of w (opcode * 1024 + rs * 32 + rt) rd (shamt * 64 + funct) 11 5);
        pow_lia. }
    split.
    { apply (field_of w (opcode * 32768 + rs * 1024 + rt * 32 + rd) shamt funct 6 5);
        pow_lia. }
    apply (low_field w (opcode * 1048576 + rs * 32768 + rt * 1024 + rd * 32 + shamt)
             funct 6); pow_lia.
  - intros opcode rs rt immd Ho Hs Ht Hi w.
    pose proof (I_INST_value opcode rs rt immd Ho Hs Ht Hi) as E. fold w in E.
    split; [pow_lia|].
    split.
    { apply (top_field w opcode (rs * 2097152 + rt * 65536 + immd) 26); pow_lia. }
    split.
    { apply (field_of w opcode rs (rt * 65536 + immd) 21 5); pow_lia. }
    split.
    { apply (field_of w (opcode * 32 + rs) rt immd 16 5); pow_lia. }
    apply (low_field w (opcode * 1024 + rs * 32 + rt) immd 16); pow_lia.
Qed.

(** ** A bench target

    The addresses and codes of the EJTAG layer with the values OpenOCD gives
    them, and a target that performs a given list of accesses (write?,
    address, word stored), one after the other: PrAcc is up while an access
    is waiting, the access is over once the control register is written
    back, and with no access waiting PrAcc stays down.  The clock moves on
    by 600 ms each time it is read. *)

Definition TEXT : Z := 0xFF200200.
Definition STACK : Z := 0xFF204000.
Definition PARAM_IN : Z := 0xFF201000.
Definition PARAM_OUT : Z := 0xFF202000.
Definition FASTDATA_AREA : Z := 0xFF200000.
Definition HANDLER_SIZE : Z := 0x80.
Definition upper16 (x : Z) : Z := Z.shiftr x 16.
Definition lower16 (x : Z) : Z := Z.land x 0xFFFF.
Definition neg16 (v : Z) : Z := Z.land (Z.lnot v + 1) 0xFFFF.
Definition INST_ADDRESS : Z := 0x08.
Definition INST_DATA : Z := 0x09.
Definition INST_CONTROL : Z := 0x0A.
Definition INST_FASTDATA : Z := 0x0E.
Definition CTRL_PRACC : Z := Z.shiftl 1 18.
Definition CTRL_PRNW : Z := Z.shiftl 1 19.

Record target : Type := mk_target {
  t_instr : Z;
  t_accesses : list (bool * Z * Z);
  t_clock : Z
}.

Definition target_set_instr (i : Z) (t : target) : target :=
  mk_target i (t_accesses t) (t_clock t).

Definition target_drscan_32 (d : Z) (t : target) : (Z * Z) * target :=
  match t_accesses t with
  | [] => ((ERROR_OK, 0), t)
  | (w, a, v) :: _ =>
      if t_instr t =? INST_CONTROL
      then ((ERROR_OK, Z.lor CTRL_PRACC (if w then CTRL_PRNW else 0)), t)
      else if t_instr t =? INST_ADDRESS then ((ERROR_OK, a), t)
      else ((ERROR_OK, v), t)
  end.

Definition target_drscan_32_out (d : Z) (t : target) : target :=
  if t_instr t =? INST_CONTROL
  then mk_target (t_instr t) (tl (t_accesses t)) (t_clock t)
  else t.

Definition target_fastdata_scan (write_t d : Z) (t : target) : (Z * Z) * target :=
  ((ERROR_OK, d), t).

Definition target_execute_queue (t : target) : Z * target := (ERROR_OK, t).

Definition target_timeval_ms (t : target) : Z * target :=
  (t_clock t, mk_target (t_instr t) (t_accesses t) (t_clock t + 600)).

(** The state before a run: the target about to perform [accesses]. *)
Definition bench_state (accesses : list (bool * Z * Z)) : pracc_state target :=
  mk_state target (mk_target 0 accesses 0) 0 0 [].

Definition bench_fuel : nat := 50.

Abbreviation bench_exec_ctx :=
  (pracc_exec_ctx TEXT STACK PARAM_IN PARAM_OUT INST_ADDRESS INST_DATA INST_CONTROL
                  CTRL_PRACC CTRL_PRNW target target_set_instr target_drscan_32
                  target_drscan_32_out target_execute_queue target_timeval_ms
                  bench_fuel).

Abbreviation bench_exec :=
  (mips32_pracc_exec TEXT STACK PARAM_IN PARAM_OUT INST_ADDRESS INST_DATA
                     INST_CONTROL CTRL_PRACC CTRL_PRNW target target_set_instr
                     target_drscan_32 target_drscan_32_out target_execute_queue
                     target_timeval_ms bench_fuel).

Abbreviation bench_read_u32_code := (read_u32_code STACK PARAM_IN PARAM_OUT upper16 lower16 neg16).

Abbreviation bench_read_mem32 :=
  (mips32_pracc_read_mem32 TEXT STACK PARAM_IN PARAM_OUT upper16 lower16 neg16
     INST_ADDRESS INST_DATA INST_CONTROL CTRL_PRACC CTRL_PRNW target
     target_set_instr target_drscan_32 target_drscan_32_out target_execute_queue
     target_timeval_ms bench_fuel).

Abbreviation bench_write_mem32 :=
  (mips32_pracc_write_mem32 TEXT STACK PARAM_IN PARAM_OUT upper16 lower16 neg16
     INST_ADDRESS INST_DATA INST_CONTROL CTRL_PRACC CTRL_PRNW target
     target_set_instr target_drscan_32 target_drscan_32_out target_execute_queue
     target_timeval_ms bench_fuel).

Abbreviation bench_read_mem16 :=
  (mips32_pracc_read_mem16 TEXT STACK PARAM_IN PARAM_OUT upper16 lower16 neg16
     INST_ADDRESS INST_DATA INST_CONTROL CTRL_PRACC CTRL_PRNW target
     target_set_instr target_drscan_32 target_drscan_32_out target_execute_queue
     target_timeval_ms bench_fuel).

Abbreviation bench_fastdata_xfer :=
  (mips32_pracc_fastdata_xfer TEXT STACK PARAM_IN PARAM_OUT FASTDATA_AREA
     HANDLER_SIZE upper16 lower16 neg16
     INST_ADDRESS INST_DATA INST_CONTROL INST_FASTDATA CTRL_PRACC CTRL_PRNW target
     target_set_instr target_drscan_32 target_drscan_32_out target_fastdata_scan
     target_execute_queue target_timeval_ms bench_fuel).

Abbreviation bench_read_block_call :=
  (read_block_call STACK PARAM_IN PARAM_OUT upper16 lower16 neg16).

(** The accesses of a target that runs the [read_u32] stub on a word that
    holds 77: two fetches, the spill of $8, the load of the address, the
    store of the word, the reload of $8, and the fetch at the start again. *)
Definition read_u32_accesses : list (bool * Z * Z) :=
  [ (false, TEXT, 0); (false, TEXT + 4, 0); (true, STACK, 5);
    (false, PARAM_IN, 0); (true, PARAM_OUT, 77); (false, STACK, 0);
    (false, TEXT, 0) ].

(** A target that fetches at the start and at once fetches there again. *)
Definition idle_accesses : list (bool * Z * Z) := [ (false, TEXT, 0); (false, TEXT, 0) ].

Example read_u32_dialogue :
  exists s',
    bench_exec 10 bench_read_u32_code 1 (Some ([4096], 0)) 1 (Some ([0], 0)) 1
               (bench_state read_u32_accesses) =
    Done (ERROR_OK, Some ([4096], 0), Some ([77], 0)) s' /\
    log target s' =
    Exec 10 1 1 1 (Some [4096])
      :: served_trace [ (false, TEXT); (false, TEXT + 4); (true, STACK);
                        (false, PARAM_IN); (true, PARAM_OUT); (false, STACK) ]
      ++ [Access false TEXT].
Proof. eexists. split; vm_compute; reflexivity. Qed.

Abbreviation bench_served_run :=
  (served_run TEXT STACK PARAM_IN PARAM_OUT INST_ADDRESS INST_DATA INST_CONTROL
              CTRL_PRACC CTRL_PRNW target target_set_instr target_drscan_32
              target_drscan_32_out target_execute_queue target_timeval_ms
              bench_fuel).

Abbreviation bench_next_access :=
  (next_access INST_ADDRESS INST_CONTROL CTRL_PRACC CTRL_PRNW target
               target_set_instr target_drscan_32 target_execute_queue
               target_timeval_ms bench_fuel).

Abbreviation bench_serve :=
  (serve TEXT STACK PARAM_IN PARAM_OUT INST_DATA INST_CONTROL CTRL_PRACC target
         target_set_instr target_drscan_32 target_drscan_32_out
         target_execute_queue).

(** The context and the state the loop starts from. *)
Definition bench_ctx0 : mips32_pracc_context :=
  mk_ctx (Some ([4096], 0)) 1 (Some ([0], 0)) 1 bench_read_u32_code 10 fresh_stack 0.

Definition bench_s0 (cycle : Z) (accesses : list (bool * Z * Z)) : pracc_state target :=
  record target (Exec 10 1 1 cycle (Some [4096])) (bench_state accesses).

Lemma pracc_exec_exit_witness :
  (exists served ctx1 s1 s2,
     (length served < bench_fuel)%nat /\
     bench_served_run bench_ctx0 (bench_s0 1 read_u32_accesses) served ctx1 s1 /\
     text_reads TEXT served = 1 /\
     bench_next_access s1 = Done (ERROR_OK, false, TEXT) s2 /\
     local_oparam ctx1 = Some ([77], 0)) /\
  (exists w a s1 ctx1 s2,
     bench_next_access (bench_s0 0 read_u32_accesses) = Done (ERROR_OK, w, a) s1 /\
     bench_serve bench_ctx0 w a (record target (Access w a) s1) =
       Done (ERROR_OK, ctx1) s2).
Proof.
  split.
  - assert (E : exists s',
               bench_exec 10 bench_read_u32_code 1 (Some ([4096], 0)) 1
                          (Some ([0], 0)) 1 (bench_state read_u32_accesses) =
               Done (ERROR_OK, Some ([4096], 0), Some ([77], 0)) s').
    { eexists. vm_compute. reflexivity. }
    destruct E as [s' E].
    destruct (pracc_exec_exit TEXT STACK PARAM_IN PARAM_OUT INST_ADDRESS INST_DATA
                INST_CONTROL CTRL_PRACC CTRL_PRNW target target_set_instr
                target_drscan_32 target_drscan_32_out target_execute_queue
                target_timeval_ms bench_fuel
                10 bench_read_u32_code 1 (Some ([4096], 0)) 1 (Some ([0], 0)) 1
                (bench_state read_u32_accesses)
                (Some ([4096], 0)) (Some ([77], 0)) s') as [H1 _].
    assert (Hc : 1 <> 0) by (intros C; discriminate C).
    destruct (proj1 (H1 Hc) E)
      as (served & ctx1 & s1 & s2 & Hl & R & Ht & Hn & _ & _ & Ho).
    exists served, ctx1, s1, s2. auto 10.
  - assert (E : exists pin pout s',
               bench_exec 10 bench_read_u32_code 1 (Some ([4096], 0)) 1
                          (Some ([0], 0)) 0 (bench_state read_u32_accesses) =
               Done (ERROR_OK, pin, pout) s').
    { do 3 eexists. vm_compute. reflexivity. }
    destruct E as (pin & pout & s' & E).
    destruct (pracc_exec_exit TEXT STACK PARAM_IN PARAM_OUT INST_ADDRESS INST_DATA
                INST_CONTROL CTRL_PRACC CTRL_PRNW target target_set_instr
                target_drscan_32 target_drscan_32_out target_execute_queue
                target_timeval_ms bench_fuel
                10 bench_read_u32_code 1 (Some ([4096], 0)) 1 (Some ([0], 0)) 0
                (bench_state read_u32_accesses) pin pout s') as [_ H0].
    destruct (proj1 (H0 eq_refl) E)
      as (w & a & s1 & ctx1 & s2 & _ & Hn & Hs & _).
    exists w, a, s1, ctx1, s2. split; [exact Hn|exact Hs].
Defined.

(** C9 as stated fails: a target that fetches once and then loads from
    PRACC_STACK makes the executor pop at offset 0 and index slot -1, and one
    that stores to PRACC_STACK 33 times makes it push at offset 32 and index
    slot 32. *)
Lemma debug_stack_is_not_bounds_checked :
  (exists s',
     bench_exec_ctx 10 bench_read_u32_code 1 (Some ([4096], 0)) 1 (Some ([0], 0)) 1
                    (bench_state [ (false, TEXT, 0); (false, STACK, 0) ]) =
     Stuck (BadStackIndex (-1)) s') /\
  (exists s',
     bench_exec_ctx 10 bench_read_u32_code 1 (Some ([4096], 0)) 1 (Some ([0], 0)) 1
                    (bench_state ((false, TEXT, 0) :: repeat (true, STACK, 7) 33)) =
     Stuck (BadStackIndex 32) s').
Proof. split; eexists; vm_compute; reflexivity. Qed.

(** How many input parameters each execution in a trace was given. *)
Definition input_counts (l : list event) : list Z :=
  flat_map (fun e => match e with Exec _ n _ _ _ => [n] | _ => [] end) l.

(** C5 as stated fails: a 32-bit write of 0x500 words is one execution with
    0x502 input parameters, not two of 0x400 and 0x100 words; and the one
    execution of a 16-bit read of 0x500 halfwords is told to read 0x400. *)
Lemma write_mem32_is_one_execution :
  input_counts
    (log target (final (bench_write_mem32 0x80000000 0x500 (repeat 0 0x500%nat)
                                          (bench_state idle_accesses)))) = [0x502] /\
  exec_calls
    (log target (final (bench_read_mem16 0x80000000 0x500 (repeat 0 0x500%nat)
                                         (bench_state idle_accesses)))) =
  [Exec 28 2 0x500 1 (Some [0x80000000; 0x400])].
Proof. split; vm_compute; reflexivity. Qed.

Lemma block_policy_witness :
  exec_calls
    (log target (final (bench_read_mem32 0x80000000 0x500 (repeat 0 0x500%nat)
                                         (bench_state (idle_accesses ++ idle_accesses))))) =
  map bench_read_block_call [ (0x80000000, 0x400); (0x80000400, 0x100) ].
Proof.
  destruct (block_policy TEXT STACK PARAM_IN PARAM_OUT upper16 lower16 neg16
              INST_ADDRESS INST_DATA INST_CONTROL CTRL_PRACC CTRL_PRNW target
              target_set_instr target_drscan_32 target_drscan_32_out
              target_execute_queue target_timeval_ms bench_fuel
              0x80000000 0x500 (repeat 0 0x500%nat)
              (bench_state (idle_accesses ++ idle_accesses)))
    as ((k & Hk & Hok) & _).
  rewrite Hk. clear Hk.
  assert (Hlen : (2 <= k)%nat).
  { apply Hok. vm_compute. reflexivity. }
  clear Hok.
  replace (read_blocks (Z.to_nat 0x500) 0x80000000 0x500)
    with [ (0x80000000, 0x400); (0x80000400, 0x100) ]
    by (vm_compute; reflexivity).
  rewrite firstn_all2; [reflexivity|exact Hlen].
Defined.

Lemma fastdata_xfer_small_work_area_witness :
  bench_fastdata_xfer 0xA0000000 64 1 0x80000000 1024 (repeat 0 1024%nat)
                      (bench_state []) =
  Done (ERROR_TARGET_RESOURCE_NOT_AVAILABLE, repeat 0 1024%nat) (bench_state []).
Proof.
  apply (fastdata_xfer_small_work_area TEXT STACK PARAM_IN PARAM_OUT FASTDATA_AREA
           HANDLER_SIZE upper16 lower16 neg16
           INST_ADDRESS INST_DATA INST_CONTROL INST_FASTDATA CTRL_PRACC CTRL_PRNW
           target target_set_instr target_drscan_32 target_drscan_32_out
           target_fastdata_scan target_execute_queue target_timeval_ms bench_fuel).
  reflexivity.
Defined.


(** ** More runs on the bench target *)

Abbreviation bench_wait :=
  (wait_for_pracc_rw INST_CONTROL CTRL_PRACC target target_set_instr target_drscan_32
                     target_execute_queue target_timeval_ms bench_fuel).

Abbreviation bench_exec_read :=
  (mips32_pracc_exec_read TEXT STACK PARAM_IN PARAM_OUT INST_DATA INST_CONTROL
                          CTRL_PRACC target target_set_instr target_drscan_32_out
                          target_execute_queue).

Abbreviation bench_exec_write :=
  (mips32_pracc_exec_write STACK PARAM_IN PARAM_OUT INST_DATA INST_CONTROL
                           CTRL_PRACC target target_set_instr target_drscan_32
                           target_drscan_32_out target_execute_queue).

(** The context of a run of a ten-word stub with two input words and one
    output word. *)
Definition bench_ctx : mips32_pracc_context :=
  mk_ctx (Some ([4096; 7], 0)) 2 (Some ([0], 0)) 1 (repeat 0 10%nat) 10
         (repeat 0 32%nat) 0.

Lemma wait_for_pracc_rw_result_witness :
  exists ctrl s',
    bench_wait (bench_state [(true, STACK, 5)]) = Done (ERROR_OK, ctrl) s' /\
    Z.land ctrl CTRL_PRACC <> 0.
Proof.
  destruct (bench_wait (bench_state [(true, STACK, 5)])) as [[r ctrl] s'|f s'] eqn:E;
    [|vm_compute in E; discriminate E].
  assert (Hr : r = ERROR_OK) by (vm_compute in E; inversion E; reflexivity).
  destruct (wait_for_pracc_rw_result INST_CONTROL CTRL_PRACC target target_set_instr
              target_drscan_32 target_execute_queue target_timeval_ms bench_fuel
              _ _ _ _ E) as (H & _).
  exists ctrl, s'. subst r. split; [reflexivity|]. apply H. reflexivity.
Defined.

Lemma exec_read_one_past_the_end_witness :
  bench_exec_read bench_ctx (PARAM_IN + 8) (bench_state []) =
  Stuck (OutOfBounds 2) (bench_state []).
Proof.
  apply (exec_read_one_past_the_end TEXT STACK PARAM_IN PARAM_OUT INST_DATA
           INST_CONTROL CTRL_PRACC target target_set_instr target_drscan_32_out
           target_execute_queue bench_ctx [4096; 7] (bench_state [])).
  - reflexivity.
  - reflexivity.
  - intros C; discriminate C.
  - reflexivity.
Defined.

Lemma unexpected_address_refused_witness :
  bench_exec_read bench_ctx 0x80000000 (bench_state []) =
  Done (ERROR_JTAG_DEVICE_ERROR, bench_ctx) (bench_state []).
Proof.
  apply (unexpected_address_refused TEXT STACK PARAM_IN PARAM_OUT INST_DATA
           INST_CONTROL CTRL_PRACC target target_set_instr target_drscan_32
           target_drscan_32_out target_execute_queue bench_ctx 0x80000000
           (bench_state [])).
  - split; [reflexivity|]. split; [reflexivity|]. intros C; discriminate C.
  - reflexivity.
Defined.


Lemma read_mem32_block_addresses_witness :
  nth_error
    (exec_calls
       (log target (final (bench_read_mem32 0x80000000 0x500 (repeat 0 0x500%nat)
                             (bench_state (idle_accesses ++ idle_accesses))))))
    1 =
  Some (Exec 28 2 0x100 1 (Some [0x80000400; 0x100])).
Proof.
  apply (read_mem32_block_addresses TEXT STACK PARAM_IN PARAM_OUT upper16 lower16
           neg16 INST_ADDRESS INST_DATA INST_CONTROL CTRL_PRACC CTRL_PRNW target
           target_set_instr target_drscan_32 target_drscan_32_out
           target_execute_queue target_timeval_ms bench_fuel
           0x80000000 0x500 (repeat 0 0x500%nat)
           (bench_state (idle_accesses ++ idle_accesses)) 1).
  - intros C; discriminate C.
  - reflexivity.
  - vm_compute. reflexivity.
Defined.

Lemma fastdata_xfer_handler_witness :
  exists call,
    exec_calls
      (log target (final (bench_fastdata_xfer 0xA0000000 0x80 1 0x80000000 4
                            [1; 2; 3; 4] (bench_state idle_accesses)))) = [call] /\
    exec_calls
      (log target (final (bench_fastdata_xfer 0xA0000000 0x80 0 0x80000000 4
                            [1; 2; 3; 4] (bench_state idle_accesses)))) = [].
Proof.
  eexists. split.
  - apply (fastdata_xfer_handler TEXT STACK PARAM_IN PARAM_OUT FASTDATA_AREA
             HANDLER_SIZE upper16 lower16 neg16
             INST_ADDRESS INST_DATA INST_CONTROL INST_FASTDATA CTRL_PRACC CTRL_PRNW
             target target_set_instr target_drscan_32 target_drscan_32_out
             target_fastdata_scan target_execute_queue target_timeval_ms bench_fuel
             0xA0000000 0x80 1 0x80000000 4 [1; 2; 3; 4] (bench_state idle_accesses)).
    intros C; discriminate C.
  - apply (fastdata_xfer_handler TEXT STACK PARAM_IN PARAM_OUT FASTDATA_AREA
             HANDLER_SIZE upper16 lower16 neg16
             INST_ADDRESS INST_DATA INST_CONTROL INST_FASTDATA CTRL_PRACC CTRL_PRNW
             target target_set_instr target_drscan_32 target_drscan_32_out
             target_fastdata_scan target_execute_queue target_timeval_ms bench_fuel
             0xA0000000 0x80 0 0x80000000 4 [1; 2; 3; 4] (bench_state idle_accesses)).
    intros C; discriminate C.
Defined.

End Pracc.
